(** * SafeLink: URL validation, fetching, HTML features, risk scoring, cache

    A shallow embedding of the Python sources under [app/]:
    [url_utils.py], [cache.py], [fetcher.py], [html_parser.py],
    [risk_engine.py] and the endpoints of [main.py].

    Conventions of the embedding.
    - A Python [str] is a [string]; a character stands for the code point
      of the same number (code points below 256).  Text decoded from a
      response body can hold any code point and is a [list N].
    - A Python exception is a value of [exn]; a function that may raise
      returns a [pyresult].
    - Python [int] is [Z]; [len] is a [nat].  The heuristic score is a
      Python float that only ever holds integers; it is carried as a [Z]
      with the same value, which is exact for all engine counts that are
      not negative (see [combine_vt_gsb_score] for the others).  The two
      ratios are genuine binary64 quotients and are kept as [float].
    - Library code outside the repository (urllib, tldextract, hashlib,
      json, httpx, BeautifulSoup) is reached through type classes;
      reference instances are given for running the code on concrete
      inputs. *)

From Stdlib Require Import ZArith Lia String Ascii List Bool.
From Stdlib Require Import Floats.PrimFloat Numbers.Cyclic.Int63.Uint63.
From stdpp Require Import gmap strings list.

Local Open Scope string_scope.
Local Open Scope Z_scope.

(** ** Exceptions and results *)

Inductive exn : Type :=
| ValueError
| AttributeError
| KeyError
| ZeroDivisionError
| RequestError (msg : string)
| OtherError (msg : string).

Inductive pyresult (A : Type) : Type :=
| Ok (a : A)
| Raise (e : exn).

Arguments Ok {A} a.
Arguments Raise {A} e.

Definition bind {A B : Type} (m : pyresult A) (k : A -> pyresult B) : pyresult B :=
  match m with
  | Ok a => k a
  | Raise e => Raise e
  end.

#[global] Instance pyresult_ret : MRet pyresult := fun A a => Ok a.
#[global] Instance pyresult_bind : MBind pyresult := fun A B k m => bind m k.
#[global] Instance pyresult_fmap : FMap pyresult := fun A B f m =>
  match m with
  | Ok a => Ok (f a)
  | Raise e => Raise e
  end.

(** ** Python string operations *)

Module PyStr.

Definition code (c : ascii) : nat := nat_of_ascii c.

Definition between (lo hi : nat) (c : ascii) : bool :=
  (Nat.leb lo (code c) && Nat.leb (code c) hi)%bool.

(** [str.isspace] on one character (code points below 256). *)
Definition is_space (c : ascii) : bool :=
  (between 9 13 c || between 28 32 c
   || Nat.eqb (code c) 133 || Nat.eqb (code c) 160)%bool.

Definition is_digit (c : ascii) : bool := between 48 57 c.
Definition is_upper (c : ascii) : bool := between 65 90 c.
Definition is_lower (c : ascii) : bool := between 97 122 c.
Definition is_alpha (c : ascii) : bool := (is_upper c || is_lower c)%bool.

Fixpoint lstrip (s : string) : string :=
  match s with
  | EmptyString => EmptyString
  | String c r => if is_space c then lstrip r else s
  end.

Fixpoint rstrip (s : string) : string :=
  match s with
  | EmptyString => EmptyString
  | String c r =>
      match rstrip r with
      | EmptyString => if is_space c then EmptyString else String c EmptyString
      | r' => String c r'
      end
  end.

(** [s.strip()] *)
Definition strip (s : string) : string := rstrip (lstrip s).

(** [s.startswith(p)] *)
Fixpoint startswith (s p : string) {struct p} : bool :=
  match p, s with
  | EmptyString, _ => true
  | String a p', String b s' => (Ascii.eqb a b && startswith s' p')%bool
  | String _ _, EmptyString => false
  end.

(** [needle in s] *)
Fixpoint contains (needle s : string) : bool :=
  (startswith s needle
   || match s with
      | EmptyString => false
      | String _ r => contains needle r
      end)%bool.

(** [s.endswith(p)] *)
Fixpoint endswith (s p : string) : bool :=
  (String.eqb s p
   || match s with
      | EmptyString => false
      | String _ r => endswith r p
      end)%bool.

(** [str.lower] on one character: ASCII capitals and the Latin-1 capitals
    U+00C0..U+00DE except the multiplication sign U+00D7. *)
Definition lower_char (c : ascii) : ascii :=
  if (is_upper c || (between 192 222 c && negb (Nat.eqb (code c) 215)))%bool
  then ascii_of_nat (code c + 32)
  else c.

Fixpoint lower (s : string) : string :=
  match s with
  | EmptyString => EmptyString
  | String c r => String (lower_char c) (lower r)
  end.

(** [str.upper] on one character: the small ASCII letters and the small
    Latin-1 letters U+00E0..U+00FE except the division sign U+00F7 move down
    by 32, and the sharp s U+00DF becomes two capitals.  The capitals of the
    micro sign U+00B5 and of U+00FF lie beyond code point 255, outside the
    strings of this model; these two characters are left as they are. *)
Definition upper_char (c : ascii) : string :=
  if (is_lower c || (between 224 254 c && negb (Nat.eqb (code c) 247)))%bool
  then String (ascii_of_nat (code c - 32)) EmptyString
  else if Nat.eqb (code c) 223 then String "S" (String "S" EmptyString)
  else String c EmptyString.

Fixpoint upper (s : string) : string :=
  match s with
  | EmptyString => EmptyString
  | String c r => String.append (upper_char c) (upper r)
  end.

(** [s.split(sep)[-1]]: what follows the last occurrence of [sep]. *)
Fixpoint last_field (sep : ascii) (s : string) : string :=
  match s with
  | EmptyString => EmptyString
  | String c r =>
      if Ascii.eqb c sep then last_field sep r
      else if contains (String sep EmptyString) r then last_field sep r
      else s
  end.

(** [s.find(c)] for a single character. *)
Fixpoint find_char (c : ascii) (s : string) : option nat :=
  match s with
  | EmptyString => None
  | String a r =>
      if Ascii.eqb a c then Some 0%nat
      else option_map S (find_char c r)
  end.

(** [s[:n]] and [s[n:]] *)
Fixpoint take (n : nat) (s : string) : string :=
  match n, s with
  | S n', String c r => String c (take n' r)
  | _, _ => EmptyString
  end.

Fixpoint drop (n : nat) (s : string) : string :=
  match n, s with
  | S n', String _ r => drop n' r
  | _, _ => s
  end.

Fixpoint all_chars (p : ascii -> bool) (s : string) : bool :=
  match s with
  | EmptyString => true
  | String c r => (p c && all_chars p r)%bool
  end.

Fixpoint filter_chars (p : ascii -> bool) (s : string) : string :=
  match s with
  | EmptyString => EmptyString
  | String c r => if p c then String c (filter_chars p r) else filter_chars p r
  end.

(** [s.partition(c)[0]] and [s.partition(c)[2]] *)
Fixpoint before_char (c : ascii) (s : string) : string :=
  match s with
  | EmptyString => EmptyString
  | String a r => if Ascii.eqb a c then EmptyString else String a (before_char c r)
  end.

Fixpoint after_char (c : ascii) (s : string) : string :=
  match s with
  | EmptyString => EmptyString
  | String a r => if Ascii.eqb a c then r else after_char c r
  end.

(** [s.rpartition(c)[2]] *)
Fixpoint after_last_char (c : ascii) (s : string) : string :=
  match s with
  | EmptyString => EmptyString
  | String a r =>
      if contains (String c EmptyString) r then after_last_char c r
      else if Ascii.eqb a c then r else s
  end.

(** Truthiness of a string: [bool(s)]. *)
Definition nonempty (s : string) : bool :=
  match s with EmptyString => false | _ => true end.

End PyStr.

(** ** Regular expressions, as far as [re.match] needs them here

    Only the existence of a match is ever used ([bool(re.match(..))] and
    [if not URL_REGEX.match(url)]), so a pattern is read as the language it
    denotes and matched with derivatives. *)

Module Regex.

Inductive re : Type :=
| Void
| Eps
| Cls (p : ascii -> bool)
| Cat (r1 r2 : re)
| Alt (r1 r2 : re)
| Star (r : re).

Fixpoint nullable (r : re) : bool :=
  match r with
  | Void => false
  | Eps => true
  | Cls _ => false
  | Cat r1 r2 => (nullable r1 && nullable r2)%bool
  | Alt r1 r2 => (nullable r1 || nullable r2)%bool
  | Star _ => true
  end.

Definition cat (r1 r2 : re) : re :=
  match r1, r2 with
  | Void, _ => Void
  | _, Void => Void
  | Eps, _ => r2
  | _, _ => Cat r1 r2
  end.

Definition alt (r1 r2 : re) : re :=
  match r1, r2 with
  | Void, _ => r2
  | _, Void => r1
  | _, _ => Alt r1 r2
  end.

Fixpoint deriv (c : ascii) (r : re) : re :=
  match r with
  | Void => Void
  | Eps => Void
  | Cls p => if p c then Eps else Void
  | Cat r1 r2 =>
      if nullable r1 then alt (cat (deriv c r1) r2) (deriv c r2)
      else cat (deriv c r1) r2
  | Alt r1 r2 => alt (deriv c r1) (deriv c r2)
  | Star r1 => cat (deriv c r1) (Star r1)
  end.

Fixpoint fullmatch (r : re) (s : string) : bool :=
  match s with
  | EmptyString => nullable r
  | String c s' => fullmatch (deriv c r) s'
  end.

(** Pattern syntax. *)
Definition chr (a : ascii) : re := Cls (Ascii.eqb a).
Definition opt (r : re) : re := Alt r Eps.                  (* r? *)
Definition plus (r : re) : re := Cat r (Star r).            (* r+ *)
Definition any : re := Cls (fun c => negb (Ascii.eqb c "010")).  (* . *)
Definition digit : re := Cls PyStr.is_digit.                (* \d *)
Definition letter : re := Cls PyStr.is_alpha.               (* [A-Za-z] *)

Fixpoint lit (s : string) : re :=
  match s with
  | EmptyString => Eps
  | String c r => Cat (chr c) (lit r)
  end.

(** [$] at the end of a pattern: the end of the string, or just before a
    final newline. *)
Definition dollar : re := opt (chr "010").

(** [re.match(r, s)] is not [None], for a pattern [r] that ends in [$]. *)
Definition re_match (r : re) (s : string) : bool := fullmatch r s.

End Regex.

(** ** Library collaborators of the URL code *)

(** What the code reads off [urllib.parse.urlparse(url)]. *)
Record ParseResult : Type := {
  scheme : string;
  hostname : option string
}.

(** What the code reads off [tldextract.extract(url)]. *)
Record ExtractResult : Type := {
  domain : string;
  suffix : string
}.

Class UrlLib : Type := {
  urlparse : string -> pyresult ParseResult;
  tldextract_extract : string -> ExtractResult
}.

(** ** app/url_utils.py *)

Module UrlUtils.
Import PyStr Regex.

Definition domain_char (c : ascii) : bool :=
  (is_alpha c || is_digit c || Ascii.eqb c "." || Ascii.eqb c "-")%bool.

(** [URL_REGEX], group by group: the optional [https?://], the domain
    [[A-Za-z0-9.-]+], the TLD [\.[A-Za-z]{2,}], the optional port [:\d+],
    the optional path (a slash, then any run of characters other than a
    newline), and the closing [$]. *)
Definition URL_REGEX : re :=
  Cat (opt (Cat (lit "http") (Cat (opt (chr "s")) (lit "://"))))
 (Cat (plus (Cls domain_char))
 (Cat (Cat (chr ".") (Cat letter (plus letter)))
 (Cat (opt (Cat (chr ":") (plus digit)))
 (Cat (opt (Cat (chr "/") (Star any)))
      dollar)))).

Definition normalize_url (url : string) : string :=
  let url := strip url in
  if negb (startswith url "http://" || startswith url "https://")
  then "https://" ++ url
  else url.

Definition is_valid_url (url : string) : bool :=
  if negb (re_match URL_REGEX url) then false else true.

Section WithUrlLib.
Context `{UrlLib}.

Definition extract_domain (url : string) : string :=
  let parsed := tldextract_extract url in
  domain parsed ++ "." ++ suffix parsed.

Definition validate_and_normalize (url : string) : pyresult (bool * string) :=
  let url := normalize_url url in
  if negb (is_valid_url url) then Ok (false, "Invalid URL format")
  else
    parsed ← urlparse url;
    if negb (String.eqb (scheme parsed) "http" || String.eqb (scheme parsed) "https")
    then Ok (false, "URL uses unsafe scheme")
    else
      let domain := extract_domain url in
      if negb (nonempty domain) then Ok (false, "Could not extract domain")
      else Ok (true, url).

End WithUrlLib.

End UrlUtils.

(** ** Reference instance of the URL collaborators

    [urlsplit_ref] follows CPython's [urllib.parse.urlsplit] on the scheme
    and the network location, and the [hostname] property of its result;
    the checks on bracketed IPv6 literals beyond bracket balance and the
    NFKC check of non-ASCII hosts are left out.  [tldextract_ref] splits
    the host with a public-suffix list that holds every single label. *)

Module UrlRef.
Import PyStr.

Definition scheme_char (c : ascii) : bool :=
  (is_alpha c || is_digit c
   || Ascii.eqb c "+" || Ascii.eqb c "-" || Ascii.eqb c ".")%bool.

Definition c0_or_space (c : ascii) : bool := Nat.leb (code c) 32.

Fixpoint lstrip_c0 (s : string) : string :=
  match s with
  | EmptyString => EmptyString
  | String c r => if c0_or_space c then lstrip_c0 r else s
  end.

Definition unsafe_byte (c : ascii) : bool :=
  (Ascii.eqb c "009" || Ascii.eqb c "010" || Ascii.eqb c "013")%bool.

Definition safe_byte (c : ascii) : bool := negb (unsafe_byte c).

Definition first_is_alpha (s : string) : bool :=
  match s with
  | EmptyString => false
  | String c _ => is_alpha c
  end.

Definition split_scheme (url : string) : string * string :=
  match find_char ":" url with
  | Some (S i) =>
      if (first_is_alpha url && all_chars scheme_char (take (S i) url))%bool
      then (lower (take (S i) url), drop (S (S i)) url)
      else (EmptyString, url)
  | _ => (EmptyString, url)
  end.

Definition netloc_delim (c : ascii) : bool :=
  (Ascii.eqb c "/" || Ascii.eqb c "?" || Ascii.eqb c "#")%bool.

Fixpoint take_netloc (s : string) : string :=
  match s with
  | EmptyString => EmptyString
  | String c r => if netloc_delim c then EmptyString else String c (take_netloc r)
  end.

Fixpoint from_char (c : ascii) (s : string) : string :=
  match s with
  | EmptyString => EmptyString
  | String a r => if Ascii.eqb a c then s else from_char c r
  end.

Definition hostname_of_netloc (netloc : string) : option string :=
  let hostinfo := after_last_char "@" netloc in
  let host :=
    if contains "[" hostinfo
    then before_char "]" (after_char "[" hostinfo)
    else before_char ":" hostinfo in
  if nonempty host
  then Some (lower (before_char "%" host) ++ from_char "%" host)
  else None.

Definition urlsplit_ref (url : string) : pyresult ParseResult :=
  let url := filter_chars safe_byte (lstrip_c0 url) in
  let '(sch, rest) := split_scheme url in
  if startswith rest "//" then
    let netloc := take_netloc (drop 2 rest) in
    if xorb (contains "[" netloc) (contains "]" netloc)
    then Raise ValueError
    else Ok {| scheme := sch; hostname := hostname_of_netloc netloc |}
  else Ok {| scheme := sch; hostname := None |}.

(** The host the reference splitter works on: the network location with
    user information and port removed, or the input itself when it has no
    [//] part. *)
Definition host_for_extract (url : string) : string :=
  match urlsplit_ref url with
  | Ok {| hostname := Some h |} => h
  | _ => url
  end.

(** [s.rsplit(sep, 1)[0]] *)
Fixpoint without_last_field (sep : ascii) (s : string) : string :=
  match s with
  | EmptyString => EmptyString
  | String c r =>
      if contains (String sep EmptyString) r
      then String c (without_last_field sep r)
      else if Ascii.eqb c sep then EmptyString
      else s
  end.

Definition tldextract_ref (url : string) : ExtractResult :=
  let h := host_for_extract url in
  if contains "." h
  then {| domain := last_field "." (without_last_field "." h);
          suffix := last_field "." h |}
  else {| domain := h; suffix := EmptyString |}.

#[global] Instance url_ref : UrlLib := {
  urlparse := urlsplit_ref;
  tldextract_extract := tldextract_ref
}.

End UrlRef.

(** ** The outside world: clock, network, cache file

    [time.time()], the httpx client and the file [cache/scans.json] are the
    only state the code touches.  The clock and the network form an
    [Environment]; sending a request may change it in any way (the clock
    moves, the server answers differently next time).  Clock readings are
    kept in whole seconds. *)

Inductive http_method : Type := HEAD | GET.

(** What the code reads off an [httpx.Response]. *)
Record Response : Type := {
  resp_status_code : Z;
  resp_url : string;
  resp_history : list string;          (* [str(r.url) for r in resp.history] *)
  resp_headers : gmap string string;
  resp_content : list Byte.byte;       (* resp.content *)
  resp_text : list N                   (* resp.text, as code points *)
}.

Class Environment : Type := {
  env : Type;
  now : env -> Z;
  send : http_method -> string -> env -> pyresult Response * env
}.

Record cache_entry (P : Type) : Type := {
  ts : Z;
  result : P
}.
Arguments ts {P} _.
Arguments result {P} _.

(** What [cache/scans.json] holds when it exists: a JSON document, kept as
    the dict from key to entry that [json.load] reads from it, or text that
    is no JSON document, which is what a [json.dump] that raised half way
    leaves behind ([open(..., "w")] has emptied the file by then). *)
Inductive cache_file (J : Type) : Type :=
| Document (d : gmap string (cache_entry J))
| Truncated.
Arguments Document {J} _.
Arguments Truncated {J}.

(** The world: the network and the clock, and the cache file ([None] when
    the file does not exist).  [J] is the type of the JSON values stored
    under "result". *)
Record world (J : Type) `{Environment} : Type := {
  w_env : env;
  w_cache_file : option (cache_file J)
}.
Arguments w_env {J _} _.
Arguments w_cache_file {J _} _.

(** Computations over the world that may raise. *)
Definition io (W A : Type) : Type := W -> pyresult A * W.

#[global] Instance io_ret {W} : MRet (io W) := fun A a w => (Ok a, w).
#[global] Instance io_bind {W} : MBind (io W) := fun A B k m w =>
  match m w with
  | (Ok a, w') => k a w'
  | (Raise e, w') => (Raise e, w')
  end.

Definition lift {W A : Type} (r : pyresult A) : io W A := fun w => (r, w).

Section WorldOps.
Context {P : Type} `{Environment}.

(** [time.time()] *)
Definition time_time : io (world P) Z :=
  fun w => (Ok (now (w_env w)), w).

(** [await client.head(url)] / [await client.get(url)]; an exception of the
    client is handed to the caller as a value, for its [except] clauses. *)
Definition client_request (m : http_method) (url : string)
  : io (world P) (pyresult Response) :=
  fun w =>
    let '(r, e') := send m url (w_env w) in
    (Ok r, {| w_env := e'; w_cache_file := w_cache_file w |}).

End WorldOps.

(** ** app/cache.py *)

Class Digest : Type := {
  sha256_hexdigest : string -> string   (* hashlib.sha256(s.encode()).hexdigest() *)
}.

(** The [json] module on the payloads of the cache: [J] is the type of JSON
    values, [P] the type of the Python values handed to [cache_set] and
    returned by [cache_get].  [json.dump] raises [TypeError] on a value that
    has no JSON form (a set, say), and what [json.load] reads back need not
    be the value that was written (a tuple comes back as a list); a value
    that [json.load] built is written back as the JSON value it came from. *)
Class Json (J P : Type) : Type := {
  json_load : J -> P;
  json_dump : P -> option J;               (* [None]: TypeError *)
  json_dump_load : forall j, json_dump (json_load j) = Some j
}.

(** [cache.py]; [main.py] repeats these four definitions word for word after
    its endpoints (lines 160 to 185). *)
Module Cache.

Definition TTL : Z := 60 * 60 * 12.

Section WithPayload.
Context {J P : Type} `{Environment} `{Digest} `{!Json J P}.

(** One entry [{"ts": ..., "result": ...}], read and written. *)
Definition load_entry (e : cache_entry J) : cache_entry P :=
  {| ts := ts e; result := json_load (result e) |}.

Definition dump_entry (e : cache_entry P) : option (cache_entry J) :=
  j ← json_dump (result e); Some {| ts := ts e; result := j |}.

(** [json.dump(d, f)] on the dict of entries: the document written, or
    [None] when one of the payloads has no JSON form. *)
Definition json_dump_dict (d : gmap string (cache_entry P))
  : option (gmap string (cache_entry J)) :=
  if bool_decide (map_Forall (fun _ e => is_Some (dump_entry e)) d)
  then Some (omap dump_entry d)
  else None.

(** [_load]: the empty dict when the file does not exist; [json.load]
    raises [JSONDecodeError], a [ValueError], on a file that holds no JSON
    document. *)
Definition _load : io (world J) (gmap string (cache_entry P)) :=
  fun w =>
    match w_cache_file w with
    | None => (Ok ∅, w)
    | Some (Document d) => (Ok (load_entry <$> d), w)
    | Some Truncated => (Raise ValueError, w)
    end.

(** [_save]: the file is created or replaced as a whole; when [json.dump]
    raises, the file has been opened for writing already and is left
    without a document. *)
Definition _save (d : gmap string (cache_entry P)) : io (world J) unit :=
  fun w =>
    match json_dump_dict d with
    | Some doc =>
        (Ok tt, {| w_env := w_env w; w_cache_file := Some (Document doc) |})
    | None =>
        (Raise (OtherError "TypeError"),
         {| w_env := w_env w; w_cache_file := Some Truncated |})
    end.

Definition cache_get (url : string) : io (world J) (option P) :=
  d ← _load;
  let key := sha256_hexdigest url in
  match d !! key with
  | None => mret None
  | Some item =>
      t ← time_time;
      if t - ts item >? TTL
      then _ ← _save (delete key d); mret None
      else mret (Some (result item))
  end.

Definition cache_set (url : string) (result : P) : io (world J) unit :=
  d ← _load;
  let key := sha256_hexdigest url in
  t ← time_time;
  _save (<[key := {| ts := t; result := result |}]> d).

End WithPayload.

End Cache.

(** ** [bytes.decode] for UTF-8

    [utf8_decode h bs] is [bs.decode("utf-8", errors=h)].  As in CPython,
    an error covers the lead byte together with the continuation bytes
    accepted so far (a lone byte when the lead itself is invalid), and
    decoding resumes at the byte that did not fit. *)

Module Utf8.

Inductive errors : Type := Strict | Ignore | Replace.

Definition REPLACEMENT : N := 65533.     (* U+FFFD *)

Definition on_error (h : errors) (rest : pyresult (list N)) : pyresult (list N) :=
  match h with
  | Strict => Raise ValueError           (* UnicodeDecodeError *)
  | Ignore => rest
  | Replace => cons REPLACEMENT <$> rest
  end.

Local Open Scope N_scope.

Definition in_range (lo hi n : N) : bool := ((lo <=? n) && (n <=? hi))%bool.
Definition is_cont (n : N) : bool := in_range 128 191 n.

(** The second byte allowed after a three- or four-byte lead. *)
Definition second_ok (lead n : N) : bool :=
  if lead =? 224 then in_range 160 191 n          (* E0: no overlong forms *)
  else if lead =? 237 then in_range 128 159 n     (* ED: no surrogates *)
  else if lead =? 240 then in_range 144 191 n     (* F0: no overlong forms *)
  else if lead =? 244 then in_range 128 143 n     (* F4: at most U+10FFFF *)
  else is_cont n.

Definition low6 (n : N) : N := n mod 64.

Fixpoint utf8_decode (h : errors) (bs : list Byte.byte) : pyresult (list N) :=
  match bs with
  | [] => Ok []
  | b0 :: r0 =>
      let n0 := Byte.to_N b0 in
      if n0 <? 128 then cons n0 <$> utf8_decode h r0
      else if in_range 194 223 n0 then
        match r0 with
        | [] => on_error h (Ok [])
        | b1 :: r1 =>
            let n1 := Byte.to_N b1 in
            if is_cont n1
            then cons ((n0 mod 32) * 64 + low6 n1) <$> utf8_decode h r1
            else on_error h (utf8_decode h r0)
        end
      else if in_range 224 239 n0 then
        match r0 with
        | [] => on_error h (Ok [])
        | b1 :: r1 =>
            let n1 := Byte.to_N b1 in
            if second_ok n0 n1 then
              match r1 with
              | [] => on_error h (Ok [])
              | b2 :: r2 =>
                  let n2 := Byte.to_N b2 in
                  if is_cont n2
                  then cons ((n0 mod 16) * 4096 + low6 n1 * 64 + low6 n2)
                         <$> utf8_decode h r2
                  else on_error h (utf8_decode h r1)
              end
            else on_error h (utf8_decode h r0)
        end
      else if in_range 240 244 n0 then
        match r0 with
        | [] => on_error h (Ok [])
        | b1 :: r1 =>
            let n1 := Byte.to_N b1 in
            if second_ok n0 n1 then
              match r1 with
              | [] => on_error h (Ok [])
              | b2 :: r2 =>
                  let n2 := Byte.to_N b2 in
                  if is_cont n2 then
                    match r2 with
                    | [] => on_error h (Ok [])
                    | b3 :: r3 =>
                        let n3 := Byte.to_N b3 in
                        if is_cont n3
                        then cons ((n0 mod 8) * 262144 + low6 n1 * 4096
                                   + low6 n2 * 64 + low6 n3)
                               <$> utf8_decode h r3
                        else on_error h (utf8_decode h r2)
                    end
                  else on_error h (utf8_decode h r1)
              end
            else on_error h (utf8_decode h r0)
        end
      else on_error h (utf8_decode h r0)
  end.

(** [bs.decode(errors="ignore")] cannot raise; its value. *)
Definition decode_ignore (bs : list Byte.byte) : list N :=
  match utf8_decode Ignore bs with
  | Ok t => t
  | Raise _ => []
  end.

End Utf8.

(** ** app/fetcher.py *)

Module Fetcher.

Definition FETCH_TIMEOUT : Z := 10.
Definition MAX_CONTENT_BYTES : Z := 1000000.

(** The result dict of [head_request]. *)
Record head_result : Type := {
  h_status_code : option Z;
  h_final_url : string;
  h_redirects : list string;
  h_headers : gmap string string;
  h_error : option string
}.

(** The result dict of [get_request]. *)
Record get_result : Type := {
  status_code : option Z;
  final_url : string;
  redirects : list string;
  headers : gmap string string;
  content : option (list N);
  filesize : nat;
  error : option string
}.

(** An entry of the dict [fetch_url_data] returns: the key may be missing,
    or hold [None], or hold a result dict. *)
Inductive entry (A : Type) : Type :=
| Missing
| IsNone
| Holds (a : A).
Arguments Missing {A}.
Arguments IsNone {A}.
Arguments Holds {A} a.

Record fetch_data : Type := {
  f_url : string;
  f_normalized_url : string;
  f_error : option string;
  f_head : entry head_result;
  f_get : entry get_result;
  f_duration : Z
}.

(** [bs[:n]] for a Python [int] [n]: a negative [n] counts from the end. *)
Definition slice_to (n : Z) (bs : list Byte.byte) : list Byte.byte :=
  if n <? 0 then firstn (Z.to_nat (Z.of_nat (length bs) + n)) bs
  else firstn (Z.to_nat n) bs.

(** [f"...: {repr(e)}"]: the text of the exception is kept as it is. *)
Definition head_error_text (e : exn) : string :=
  match e with
  | RequestError msg => "head_request_error: " ++ msg
  | OtherError msg => "head_request_unexpected: " ++ msg
  | _ => "head_request_unexpected: "
  end.

Definition get_error_text (e : exn) : string :=
  match e with
  | RequestError msg => "get_request_error: " ++ msg
  | OtherError msg => "get_request_unexpected: " ++ msg
  | _ => "get_request_unexpected: "
  end.

Section WithWorld.
Context {P : Type} `{Environment} `{UrlLib}.

Definition head_request (url : string) (timeout : Z) : io (world P) head_result :=
  r ← client_request HEAD url;
  match r with
  | Ok resp =>
      mret {| h_status_code := Some (resp_status_code resp);
              h_final_url := resp_url resp;
              h_redirects := resp_history resp;
              h_headers := resp_headers resp;
              h_error := None |}
  | Raise e =>
      mret {| h_status_code := None;
              h_final_url := url;
              h_redirects := [];
              h_headers := ∅;
              h_error := Some (head_error_text e) |}
  end.

Definition get_request (url : string) (timeout : Z) (max_bytes : Z)
  : io (world P) get_result :=
  r ← client_request GET url;
  match r with
  | Ok resp =>
      let content_bytes := resp_content resp in
      let filesize := length content_bytes in
      mret {| status_code := Some (resp_status_code resp);
              final_url := resp_url resp;
              redirects := resp_history resp;
              headers := resp_headers resp;
              content :=
                if Z.of_nat filesize >? max_bytes
                then Some (Utf8.decode_ignore (slice_to max_bytes content_bytes))
                else Some (resp_text resp);
              filesize := filesize;
              error := None |}
  | Raise e =>
      mret {| status_code := None;
              final_url := url;
              redirects := [];
              headers := ∅;
              content := None;
              filesize := 0;
              error := Some (get_error_text e) |}
  end.

(** [a or b] on strings. *)
Definition str_or (a b : string) : string :=
  if PyStr.nonempty a then a else b.

Definition fetch_url_data (url : string) (do_head : bool) : io (world P) fetch_data :=
  start ← time_time;
  parsed ← lift (urlparse url);
  if negb (String.eqb (scheme parsed) "http" || String.eqb (scheme parsed) "https"
           || String.eqb (scheme parsed) "")
  then
    t ← time_time;
    mret {| f_url := url; f_normalized_url := url;
            f_error := Some "unsupported-scheme";
            f_head := Missing; f_get := Missing;
            f_duration := t - start |}
  else
    head_result ← (if do_head
                   then h ← head_request url FETCH_TIMEOUT; mret (Holds h)
                   else mret IsNone);
    get_result ← get_request url FETCH_TIMEOUT MAX_CONTENT_BYTES;
    t ← time_time;
    mret {| f_url := url;
            f_normalized_url :=
              str_or (final_url get_result)
                (str_or (match head_result with
                         | Holds h => h_final_url h
                         | _ => ""
                         end) url);
            f_error := None;
            f_head := head_result;
            f_get := Holds get_result;
            f_duration := t - start |}.

End WithWorld.

End Fetcher.

(** ** The parse tree of BeautifulSoup

    [BeautifulSoup(html, "html.parser")] is a collaborator; the code only
    walks the tree it returns.  A tag carries its name, its attribute dict
    and its children; text is a [NavigableString]; a [Comment] stands for
    the string kinds that [get_text] leaves out. *)

#[warning="-register-all"]
Inductive node : Type :=
| Tag (name : string) (attrs : gmap string string) (children : list node)
| NavigableString (s : string)
| Comment (s : string).

Class HtmlLib : Type := {
  BeautifulSoup : list N -> node
}.

Module Soup.

(** All nodes below [n], in document order. *)
Fixpoint descendants (n : node) : list node :=
  match n with
  | Tag _ _ children => flat_map (fun c => c :: descendants c) children
  | _ => []
  end.

Definition is_tag_named (names : list string) (n : node) : bool :=
  match n with
  | Tag name _ _ => existsb (String.eqb name) names
  | _ => false
  end.

(** [n.find_all(name)] *)
Definition find_all (name : string) (n : node) : list node :=
  List.filter (is_tag_named [name]) (descendants n).

(** [tag.get(key)] *)
Definition get (key : string) (n : node) : option string :=
  match n with
  | Tag _ attrs _ => attrs !! key
  | _ => None
  end.

(** [tag.get(key, dflt)] *)
Definition get_default (key dflt : string) (n : node) : string :=
  default dflt (get key n).

(** Truthiness of [tag.get(key)]. *)
Definition get_truthy (key : string) (n : node) : option string :=
  match get key n with
  | Some v => if PyStr.nonempty v then Some v else None
  | None => None
  end.

(** [tag.string]: the only child when it is a string, or the [.string] of
    the only child. *)
Fixpoint tag_string (n : node) : option string :=
  match n with
  | Tag _ _ [c] => tag_string c
  | Tag _ _ _ => None
  | NavigableString s => Some s
  | Comment s => Some s
  end.

(** [tag.decompose()] for every tag named in [names]: the subtrees are
    taken out of the tree. *)
Fixpoint remove_tags (names : list string) (n : node) : node :=
  match n with
  | Tag name attrs children =>
      Tag name attrs
        ((fix go (l : list node) : list node :=
            match l with
            | [] => []
            | c :: r =>
                if is_tag_named names c then go r
                else remove_tags names c :: go r
            end) children)
  | _ => n
  end.

(** The strings [get_text(strip=True)] collects: every [NavigableString]
    below [n], stripped, the empty ones dropped. *)
Definition stripped_strings (n : node) : list string :=
  flat_map (fun d =>
              match d with
              | NavigableString s =>
                  let s := PyStr.strip s in
                  if PyStr.nonempty s then [s] else []
              | _ => []
              end) (descendants n).

Fixpoint join (sep : string) (l : list string) : string :=
  match l with
  | [] => ""
  | [s] => s
  | s :: r => s ++ sep ++ join sep r
  end.

(** [n.get_text(separator=sep, strip=True)] *)
Definition get_text (sep : string) (n : node) : string :=
  join sep (stripped_strings n).

End Soup.

(** ** app/html_parser.py *)

Module HtmlParser.
Import Soup.

Record input_descriptor : Type := {
  i_type : string;
  i_name : string;
  i_placeholder : option string
}.

Record form : Type := {
  method : string;
  action : string;
  inputs : list input_descriptor;
  has_password : bool
}.

(** The dict [extract_html_features] returns.  The fallback dict built in
    [main.py] has no "meta_keywords" key; reading it with [.get] gives
    [None] all the same. *)
Record extracted : Type := {
  title : option string;
  meta_description : option string;
  meta_keywords : option string;
  links : list string;
  forms : list form;
  scripts : list string;
  images : list string;
  iframes : list string;
  clean_text : string
}.

(** One turn of the loop over the meta tags; the state is
    [(meta_desc, meta_keywords)]. *)
Definition meta_step (st : option string * option string) (tag : node)
  : option string * option string :=
  if bool_decide (get "name" tag = Some "description")
  then (get "content" tag, snd st)
  else if bool_decide (get "name" tag = Some "keywords")
  then (fst st, get "content" tag)
  else st.

Definition meta_loop (tags : list node) : option string * option string :=
  fold_left meta_step tags (None, None).

(** One turn of the loop over the inputs of a form; the state is
    [(inputs, has_password)]. *)
Definition input_step (st : list input_descriptor * bool) (i : node)
  : list input_descriptor * bool :=
  let t := PyStr.lower (default "text" (get_truthy "type" i)) in
  let n := PyStr.lower (get_default "name" "" i) in
  ((fst st ++ [{| i_type := t; i_name := n; i_placeholder := get "placeholder" i |}])%list,
   if (String.eqb t "password" || PyStr.contains "password" n)%bool
   then true else snd st).

Definition form_of (f : node) : form :=
  let '(inputs, has_password) :=
    fold_left input_step (find_all "input" f) ([], false) in
  {| method := PyStr.upper (get_default "method" "GET" f);
     action := get_default "action" "" f;
     inputs := inputs;
     has_password := has_password |}.

Definition srcs (name : string) (soup : node) : list string :=
  omap (get_truthy "src") (find_all name soup).

Definition extract_soup (soup : node) : extracted :=
  let title :=
    match find_all "title" soup with
    | t :: _ =>
        match tag_string t with
        | Some s => if PyStr.nonempty s then Some (PyStr.strip s) else None
        | None => None
        end
    | [] => None
    end in
  let '(meta_desc, meta_keywords) := meta_loop (find_all "meta" soup) in
  let links := omap (get "href") (find_all "a" soup) in
  let forms := map form_of (find_all "form" soup) in
  let scripts := srcs "script" soup in
  let images := srcs "img" soup in
  let iframes := srcs "iframe" soup in
  let soup := remove_tags ["script"; "style"] soup in
  let clean_text := get_text " " soup in
  {| title := title;
     meta_description := meta_desc;
     meta_keywords := meta_keywords;
     links := links;
     forms := forms;
     scripts := scripts;
     images := images;
     iframes := iframes;
     clean_text := PyStr.take 2000 clean_text |}.

Definition extract_html_features `{HtmlLib} (html : list N) : extracted :=
  extract_soup (BeautifulSoup html).

End HtmlParser.

(** ** Python numbers: true division, [round], number formatting *)

Module PyNum.

Definition of_nat (n : nat) : float := PrimFloat.of_uint63 (Uint63.of_Z (Z.of_nat n)).

(** [a / b] on two ints that are lengths: the correctly rounded quotient,
    or [ZeroDivisionError]. *)
Definition truediv (a b : nat) : pyresult float :=
  if Nat.eqb b 0 then Raise ZeroDivisionError
  else Ok (PrimFloat.div (of_nat a) (of_nat b)).

(** A finite non-negative float as [m * 2^e] with [m] an integer. *)
Definition mantissa_exponent (x : float) : Z * Z :=
  let '(m, e) := PrimFloat.frshiftexp x in
  (Uint63.to_Z (PrimFloat.normfr_mantissa m),
   Uint63.to_Z e - Z.of_nat 2101 - 53).

(** [100 * x] rounded to an integer, ties to even, from the exact value
    of [x]: the digits both [round(x, 2)] and the [.2f] format start from. *)
Definition hundredths (x : float) : Z :=
  let '(m, e) := mantissa_exponent x in
  if 0 <=? e then 100 * m * 2 ^ e
  else
    let den := 2 ^ (- e) in
    let q := (100 * m) / den in
    let r := (100 * m) mod den in
    if 2 * r >? den then q + 1
    else if 2 * r =? den then (if Z.even q then q else q + 1)
    else q.

(** [round(x, 2)] for a finite [x >= 0] *)
Definition round2 (x : float) : float :=
  PrimFloat.div (PrimFloat.of_uint63 (Uint63.of_Z (hundredths x)))
                (PrimFloat.of_uint63 (Uint63.of_Z 100)).

Definition digit_char (d : Z) : ascii := ascii_of_nat (48 + Z.to_nat d).

Fixpoint digits_fuel (fuel : nat) (z : Z) (acc : string) : string :=
  match fuel with
  | O => acc
  | S f =>
      let acc := String (digit_char (z mod 10)) acc in
      if z / 10 =? 0 then acc else digits_fuel f (z / 10) acc
  end.

(** [str(z)] for an int *)
Definition fmt_int (z : Z) : string :=
  if z <? 0
  then String "-" (digits_fuel (S (Z.to_nat (Z.log2 (- z)))) (- z) "")
  else digits_fuel (S (Z.to_nat (Z.log2 z))) z "".

(** [f"{x:.2f}"] for a finite [x >= 0] *)
Definition fmt_2f (x : float) : string :=
  let h := hundredths x in
  fmt_int (h / 100) ++ "."
    ++ String (digit_char ((h / 10) mod 10)) (String (digit_char (h mod 10)) "").

End PyNum.

(** ** app/risk_engine.py *)

(** The VirusTotal dict, as far as it is read: a key that is missing, [0]
    or [None] reads as [0] through [vt.get(k, 0) or ...]. *)
Record vt_report : Type := {
  malicious_count : Z;
  malicious : Z;
  suspicious_count : Z;
  suspicious : Z
}.

(** The Safe Browsing dict, as far as it is read: the truthiness of its
    "matches" and "threats" entries. *)
Record gsb_report : Type := {
  matches : bool;
  threats : bool
}.

Module RiskEngine.
Import PyStr Regex Fetcher HtmlParser.

Definition SUSPICIOUS_TLDS : list string :=
  [".xyz"; ".top"; ".click"; ".ml"; ".cf"; ".ga"; ".bid"; ".pw"].

Definition SUSPICIOUS_KEYWORDS : list string :=
  ["login"; "verify"; "account"; "bank"; "secure"; "update"; "signin"; "password";
   "confirm"; "ssn"; "social"; "credential"; "change-password"; "otp"; "one-time"].

(** [\d{1,3}] *)
Definition digits_1_3 : re := Cat digit (Cat (opt digit) (opt digit)).

(** [^\d{1,3}(\.\d{1,3}){3}$] *)
Definition IP_REGEX : re :=
  let group := Cat (chr ".") digits_1_3 in
  Cat digits_1_3 (Cat group (Cat group (Cat group dollar))).

Definition is_ip_host (hostname : string) : bool :=
  if negb (nonempty hostname) then false
  else re_match IP_REGEX hostname.

Definition tld_is_suspicious (hostname : string) : bool :=
  if (negb (nonempty hostname) || negb (contains "." hostname))%bool then false
  else
    let lower := lower hostname in
    existsb (fun tld => endswith lower tld) SUSPICIOUS_TLDS.

(** [a or b] on ints. *)
Definition int_or (a b : Z) : Z := if a =? 0 then b else a.

(** The score is a float in the source that only ever holds integers, and
    it is carried here as the integer it holds.  With engine counts that are
    not negative every term is capped ([min(50, ...)], [min(20, ...)]), all
    values stay between 0 and a few hundred, and float arithmetic on them is
    exact.  A negative count is not capped: [min(50, malicious * 20)] is
    then the product itself.  The integer follows Python while the products
    stay below 2^53 in size; beyond that Python rounds the sum, and raises
    [OverflowError] once the product does not fit a float.  The statements
    that range over all reputation inputs therefore ask for counts that are
    not negative. *)
Definition combine_vt_gsb_score (vt : option vt_report) (gsb : option gsb_report) : Z :=
  let score := 0 in
  let score :=
    match vt with
    | Some vt =>
        let malicious := int_or (malicious_count vt) (int_or (malicious vt) 0) in
        let suspicious := int_or (suspicious_count vt) (int_or (suspicious vt) 0) in
        let score := score + Z.min 50 (malicious * 20) in
        score + Z.min 20 (suspicious * 5)
    | None => score
    end in
  let score :=
    match gsb with
    | Some gsb =>
        if matches gsb then score + 60
        else if threats gsb then score + 60
        else score
    | None => score
    end in
  Z.min 100 score.

(** The float literal [0.6]. *)
Definition RATIO_THRESHOLD : float := 0x1.3333333333333p-1%float.

Definition count_forms (forms : list form) : nat := length forms.
Definition count_iframes (iframes : list string) : nat := length iframes.

Definition suspicious_keyword_matches (text : string) : nat :=
  if negb (nonempty text) then 0%nat
  else
    let low := lower text in
    length (List.filter (fun kw => contains kw low) SUSPICIOUS_KEYWORDS).

Definition external_script_ratio (scripts : list string) (domain : string)
  : pyresult float :=
  match scripts with
  | [] => Ok 0%float
  | _ =>
      let external :=
        length (List.filter
                  (fun s => (nonempty s && negb (startswith s "/")
                             && negb (contains domain s))%bool) scripts) in
      PyNum.truediv external (length scripts)
  end.

Section WithUrlLib.
Context `{UrlLib}.

Definition external_links_ratio (links : list string) (domain : string)
  : pyresult float :=
  match links with
  | [] => Ok 0%float
  | _ =>
      let external :=
        length (List.filter
                  (fun l =>
                     match urlparse l with
                     | Ok parsed =>
                         let host := default "" (hostname parsed) in
                         (nonempty host && negb (contains domain host))%bool
                     | Raise _ => false         (* except Exception: continue *)
                     end) links) in
      PyNum.truediv external (length links)
  end.

(** The "components" dict of the report. *)
Record components : Type := {
  c_api_penalty : Z;
  c_redirect_count : nat;
  c_forms_count : nat;
  c_ext_script_ratio : float;
  c_iframe_count : nat;
  c_ext_link_ratio : float;
  c_kw_matches : nat;
  c_filesize : nat;
  c_scheme : string
}.

Inductive verdict : Type := SAFE | SUSPICIOUS | DANGEROUS.

Record report : Type := {
  r_score : Z;
  r_verdict : verdict;
  r_components : components;
  r_explanations : list string
}.

(** [d.get(k, {}).get(field, dflt)] on an entry of the fetch dict. *)
Definition entry_get {A B : Type} (e : entry A) (field : A -> B) (dflt : B)
  : pyresult B :=
  match e with
  | Missing => Ok dflt
  | IsNone => Raise AttributeError
  | Holds a => Ok (field a)
  end.

(** The running state of the function: [(score, explanations)]. *)
Definition add (st : Z * list string) (penalty : Z) : Z * list string :=
  (fst st + penalty, snd st).

Definition explain (st : Z * list string) (msg : string) : Z * list string :=
  (fst st, (snd st ++ [msg])%list).

(** The shape most checks have:
    [if c: score += penalty; explanations.append(msg)]. *)
Definition charge (c : bool) (penalty : Z) (msg : string) (st : Z * list string)
  : Z * list string :=
  if c then explain (add st penalty) msg else st.

(** [if redirect_count >= 3: ... elif redirect_count == 2: score += 6] *)
Definition charge_redirects (redirect_count : nat) (st : Z * list string)
  : Z * list string :=
  if (3 <=? redirect_count)%nat
  then explain (add st 12)
         ("Redirect chain length " ++ PyNum.fmt_int (Z.of_nat redirect_count)
          ++ " (suspicious)")
  else if (redirect_count =? 2)%nat then add st 6
  else st.

Definition verdict_of (raw_score : Z) : verdict :=
  if raw_score >=? 65 then DANGEROUS
  else if raw_score >=? 30 then SUSPICIOUS
  else SAFE.

Definition compute_heuristic_score (fetch : fetch_data) (extracted : extracted)
    (normalized_url : string) (vt : option vt_report) (gsb : option gsb_report)
  : pyresult report :=
  let st := (0, []) in
  parsed ← urlparse normalized_url;
  let hostname := default "" (hostname parsed) in
  let domain := hostname in
  (* 1) External API signals *)
  let api_penalty := combine_vt_gsb_score vt gsb in
  let st := if api_penalty >? 0
            then explain st ("External threat services flagged: penalty "
                             ++ PyNum.fmt_int api_penalty)
            else st in
  let st := add st api_penalty in
  (* 2) Redirects *)
  head_redirects ← entry_get (f_head fetch) h_redirects [];
  get_redirects ← entry_get (f_get fetch) redirects [];
  let redirect_count := Nat.max (length head_redirects) (length get_redirects) in
  let st := charge_redirects redirect_count st in
  (* 3) Host checks *)
  let st := charge (is_ip_host hostname) 15
              "URL uses numeric IP address (suspicious)" st in
  let st := charge (tld_is_suspicious hostname) 8
              ("Suspicious TLD (" ++ last_field "." hostname ++ ")") st in
  (* 4) Forms *)
  let forms_count := count_forms (forms extracted) in
  let st := charge (0 <? forms_count)%nat (Z.min 20 (Z.of_nat forms_count * 6))
              ("Found " ++ PyNum.fmt_int (Z.of_nat forms_count)
               ++ " form(s) (could request credentials)") st in
  (* 5) External scripts and iframes *)
  let scripts := scripts extracted in
  let iframes := iframes extracted in
  ext_script_ratio ← external_script_ratio scripts domain;
  let st := charge (PrimFloat.ltb RATIO_THRESHOLD ext_script_ratio) 10
              ("High external script ratio: " ++ PyNum.fmt_2f ext_script_ratio) st in
  let iframe_count := count_iframes iframes in
  let st := charge (0 <? iframe_count)%nat (Z.min 12 (Z.of_nat iframe_count * 6))
              ("Found " ++ PyNum.fmt_int (Z.of_nat iframe_count) ++ " iframe(s)") st in
  (* 6) External links ratio *)
  let links := links extracted in
  ext_link_ratio ← external_links_ratio links domain;
  let st := charge (PrimFloat.ltb RATIO_THRESHOLD ext_link_ratio) 8
              ("High external links ratio: " ++ PyNum.fmt_2f ext_link_ratio) st in
  (* 7) Suspicious keywords *)
  let text := clean_text extracted in
  let kw_matches := suspicious_keyword_matches text in
  let st := charge (0 <? kw_matches)%nat (Z.min 15 (Z.of_nat kw_matches * 3))
              ("Suspicious keywords found: " ++ PyNum.fmt_int (Z.of_nat kw_matches))
              st in
  (* 8) HTTP vs HTTPS *)
  let st := charge (String.eqb (scheme parsed) "http") 4 "Using HTTP (not HTTPS)" st in
  (* 9) File size *)
  filesize ← entry_get (f_get fetch) filesize 0%nat;
  let st := charge ((filesize <? 200)%nat && (0 <? forms_count)%nat) 8
              "Very small page with forms (phishing-like)" st in
  (* Cap the score *)
  let raw_score := Z.min 100 (fst st) in
  let verdict := verdict_of raw_score in
  Ok {| r_score := raw_score;
        r_verdict := verdict;
        r_components :=
          {| c_api_penalty := api_penalty;
             c_redirect_count := redirect_count;
             c_forms_count := forms_count;
             c_ext_script_ratio := PyNum.round2 ext_script_ratio;
             c_iframe_count := iframe_count;
             c_ext_link_ratio := PyNum.round2 ext_link_ratio;
             c_kw_matches := kw_matches;
             c_filesize := filesize;
             c_scheme := scheme parsed |};
        r_explanations := snd st |}.

End WithUrlLib.

End RiskEngine.

(** ** app/main.py: the [/scan] endpoint

    [main.py] repeats [_load], [_save], [cache_get] and [cache_set] of
    [cache.py] word for word after the endpoints; they are the functions of
    module [Cache]. *)

Module Main.
Import Fetcher HtmlParser RiskEngine.

Record summary : Type := {
  s_url : string;
  s_verdict : verdict;
  s_score : Z;
  s_title : option string;
  s_final_url : string;
  s_filesize : nat;
  s_explanations : list string
}.

Inductive scan_response : Type :=
| InvalidUrl (reason : string)             (* {"status": "invalid_url", ...} *)
| ScanOk (s : summary).                    (* {"status": "ok", ...} *)

(** The dict used when the GET failed. *)
Definition empty_extracted : extracted :=
  {| title := None; meta_description := None; meta_keywords := None;
     links := []; forms := []; scripts := []; images := []; iframes := [];
     clean_text := "" |}.

(** [d["get"]] on the fetch dict. *)
Definition subscript_get (fetch : fetch_data) : pyresult get_result :=
  match f_get fetch with
  | Missing => Raise KeyError
  | IsNone => Raise AttributeError         (* the [.get] that follows *)
  | Holds g => Ok g
  end.

Definition truthy (o : option string) : bool :=
  match o with
  | Some s => PyStr.nonempty s
  | None => false
  end.

(** The responses of the other endpoints. *)
Inductive validate_response : Type :=
| Valid (url : string)                     (* {"status": "valid", "url": ...} *)
| Invalid (reason : string).               (* {"status": "invalid", ...} *)

Inductive risk_response : Type :=
| RiskInvalid (reason : string)
| RiskOk (url : string) (fetch : fetch_data) (extracted : extracted) (risk : report).

Record fetch_info : Type := {
  fi_status_code : option Z;
  fi_final_url : string;
  fi_filesize : nat
}.

Inductive extract_response : Type :=
| ExtractInvalid (reason : string)
| ExtractError (reason details : string)   (* {"status": "error", ...} *)
| ExtractSuccess (url : string) (info : fetch_info) (extracted : extracted).

(** [raise HTTPException(status_code, detail)] is what the framework turns
    into the response; [FetchBody] is the fetch dict returned as it is. *)
Inductive fetch_response : Type :=
| HTTPException (status_code : Z) (detail : string)
| FetchBody (data : fetch_data).

(** [d["get"]] followed by a subscript. *)
Definition subscript (fetch : fetch_data) : pyresult get_result :=
  match f_get fetch with
  | Missing => Raise KeyError
  | IsNone => Raise (OtherError "TypeError")
  | Holds g => Ok g
  end.

Section WithWorld.
Context {P : Type} `{Environment} `{UrlLib} `{HtmlLib}.

Definition scan (url : string) : io (world P) scan_response :=
  (* 1) Validate *)
  v ← lift (UrlUtils.validate_and_normalize url);
  let '(ok, res) := v in
  if negb ok then mret (InvalidUrl res)
  else
    let normalized := res in
    (* 2) Fetch *)
    fetch_data ← fetch_url_data normalized true;
    (* 3) Extract *)
    get_error ← lift (entry_get (f_get fetch_data) error None);
    extracted ← (if truthy get_error then mret empty_extracted
                 else
                   g ← lift (subscript_get fetch_data);
                   let html := default [] (content g) in
                   mret (extract_html_features html));
    (* 4) Risk score *)
    risk ← lift (compute_heuristic_score fetch_data extracted normalized None None);
    (* 5) Build final summary *)
    g ← lift (subscript_get fetch_data);
    mret (ScanOk {| s_url := normalized;
                    s_verdict := r_verdict risk;
                    s_score := r_score risk;
                    s_title := title extracted;
                    s_final_url := final_url g;
                    s_filesize := filesize g;
                    s_explanations := firstn 3 (r_explanations risk) |}).

(** The [/risk] endpoint.  The dict it builds when the GET failed is the
    one of [/scan]: neither has a "meta_keywords" key, which the record
    shows as [None] and which nothing reads. *)
Definition risk (url : string) : io (world P) risk_response :=
  (* 1) Validate *)
  v ← lift (UrlUtils.validate_and_normalize url);
  let '(ok, res) := v in
  if negb ok then mret (RiskInvalid res)
  else
    let normalized := res in
    (* 2) Fetch + extract *)
    fetch_data ← fetch_url_data normalized true;
    get_error ← lift (entry_get (f_get fetch_data) error None);
    extracted ← (if truthy get_error then mret empty_extracted
                 else
                   g ← lift (subscript_get fetch_data);
                   mret (extract_html_features (default [] (content g))));
    (* 3) No external services are called *)
    let vt : option vt_report := None in
    let gsb : option gsb_report := None in
    (* 4) Compute heuristic score *)
    risk_report ← lift (compute_heuristic_score fetch_data extracted normalized vt gsb);
    (* 5) Return aggregated report *)
    mret (RiskOk normalized fetch_data extracted risk_report).

(** The [/extract] endpoint. *)
Definition extract (url : string) : io (world P) extract_response :=
  v ← lift (UrlUtils.validate_and_normalize url);
  let '(ok, res) := v in
  if negb ok then mret (ExtractInvalid res)
  else
    let clean_url := res in
    data ← fetch_url_data clean_url true;
    g ← lift (subscript data);
    if truthy (error g)
    then mret (ExtractError "Could not fetch site" (default "" (error g)))
    else
      html ← lift (match content g with
                   | Some html => Ok html
                   | None => Raise (OtherError "TypeError")   (* BeautifulSoup(None) *)
                   end);
      let extracted := extract_html_features html in
      mret (ExtractSuccess clean_url
              {| fi_status_code := status_code g;
                 fi_final_url := final_url g;
                 fi_filesize := filesize g |}
              extracted).

(** The [/fetch] endpoint. *)
Definition fetch (url : string) : io (world P) fetch_response :=
  v ← lift (UrlUtils.validate_and_normalize url);
  let '(ok, res) := v in
  if negb ok then mret (HTTPException 400 ("Invalid URL: " ++ res))
  else
    let normalized := res in
    data ← fetch_url_data normalized true;
    mret (FetchBody data).

(** The [/validate] endpoint. *)
Definition validate (url : string) : pyresult validate_response :=
  v ← UrlUtils.validate_and_normalize url;
  let '(ok, res) := (v : bool * string) in
  if ok then mret (Valid res) else mret (Invalid res).

End WithWorld.

End Main.

(** ** Reference instances of the remaining collaborators *)

Module Ref.

(** A scripted network: every request is logged, takes one second, and is
    answered by the next prepared reply; when the replies run out the
    client raises a [RequestError]. *)
Record script_env : Type := {
  clock : Z;
  sent : list (http_method * string);
  replies : list (pyresult Response)
}.

Definition script_send (m : http_method) (url : string) (e : script_env)
  : pyresult Response * script_env :=
  match replies e with
  | [] =>
      (Raise (RequestError "ConnectError"),
       {| clock := clock e + 1; sent := sent e ++ [(m, url)]; replies := [] |})
  | r :: rest =>
      (r, {| clock := clock e + 1; sent := sent e ++ [(m, url)]; replies := rest |})
  end.

#[global] Instance scripted : Environment := {
  env := script_env;
  now := clock;
  send := script_send
}.

(** The parse of a document without markup: one text node.  Code points
    from 256 on are shown as a question mark. *)
Definition char_of_code_point (n : N) : ascii :=
  if (n <? 256)%N then ascii_of_N n else "?"%char.

Definition plain_text_soup (html : list N) : node :=
  match html with
  | [] => Tag "[document]" ∅ []
  | _ => Tag "[document]" ∅
           [NavigableString (string_of_list_ascii (map char_of_code_point html))]
  end.

#[global] Instance plain_parser : HtmlLib := {
  BeautifulSoup := plain_text_soup
}.

(** A parser that knows the tree of one marked-up document, written down
    by hand as html.parser builds it. *)
Definition parser_for (html : list N) (soup : node) : HtmlLib :=
  {| BeautifulSoup := fun h => if bool_decide (h = html) then soup
                               else plain_text_soup h |}.

(** A stand-in for SHA-256: the text itself is its own fingerprint.  No
    statement below depends on which function the digest is. *)
#[global] Instance text_digest : Digest := {
  sha256_hexdigest := fun s => s
}.

(** Payloads that are one text: a Python [str] is written as a JSON string
    and read back as the same [str]. *)
#[global] Instance json_str : Json string string := {
  json_load := fun s => s;
  json_dump := Some;
  json_dump_load := fun _ => eq_refl
}.

(** The responses of [/scan] as payloads: dicts with string keys that hold
    strings, numbers, [None] and a list of strings, which JSON writes and
    reads back as they are. *)
#[global] Instance json_scan_response : Json Main.scan_response Main.scan_response := {
  json_load := fun r => r;
  json_dump := Some;
  json_dump_load := fun _ => eq_refl
}.

Definition page (url : string) (body : list Byte.byte) (text : list N) : Response :=
  {| resp_status_code := 200;
     resp_url := url;
     resp_history := [];
     resp_headers := ∅;
     resp_content := body;
     resp_text := text |}.

Definition ascii_bytes (s : string) : list Byte.byte :=
  map byte_of_ascii (list_ascii_of_string s).

Definition ascii_text (s : string) : list N :=
  map N_of_ascii (list_ascii_of_string s).

Definition text_page (url s : string) : Response :=
  page url (ascii_bytes s) (ascii_text s).

Definition fresh_world (P : Type) (t : Z) (rs : list (pyresult Response)) : world P :=
  {| w_env := {| clock := t; sent := []; replies := rs |};
     w_cache_file := None |}.

End Ref.

(** * Properties *)

(** ** Strings and patterns *)

Module PyStrFacts.
Import PyStr.

Lemma rstrip_cons c r :
  is_space c = false -> rstrip (String c r) = String c (rstrip r).
Proof.
  intros Hc. cbn [rstrip]. destruct (rstrip r); [rewrite Hc|]; reflexivity.
Qed.

Lemma rstrip_idem s : rstrip (rstrip s) = rstrip s.
Proof.
  induction s as [|c r IH]; [reflexivity|].
  cbn [rstrip]. destruct (rstrip r) as [|c' r'] eqn:E.
  - destruct (is_space c) eqn:Hc; [reflexivity|].
    cbn [rstrip]. rewrite Hc. reflexivity.
  - change (rstrip (String c (String c' r'))) with
      (match rstrip (String c' r') with
       | EmptyString => if is_space c then EmptyString else String c EmptyString
       | x => String c x
       end).
    rewrite IH. reflexivity.
Qed.

Lemma lstrip_head s :
  lstrip s = EmptyString \/ exists c r, lstrip s = String c r /\ is_space c = false.
Proof.
  induction s as [|c r IH]; [left; reflexivity|].
  cbn [lstrip]. destruct (is_space c) eqn:Hc; [exact IH|].
  right. exists c, r. split; [reflexivity | exact Hc].
Qed.

Lemma strip_idem s : strip (strip s) = strip s.
Proof.
  unfold strip. destruct (lstrip_head s) as [E | (c & r & E & Hc)]; rewrite E.
  - reflexivity.
  - rewrite (rstrip_cons _ _ Hc). cbn [lstrip]. rewrite Hc.
    rewrite (rstrip_cons _ _ Hc). f_equal. apply rstrip_idem.
Qed.

Lemma strip_cons c r :
  is_space c = false -> strip (String c r) = String c (rstrip r).
Proof.
  intros Hc. unfold strip. cbn [lstrip]. rewrite Hc. apply rstrip_cons, Hc.
Qed.

Lemma append_cons c (p x : string) : String c p ++ x = String c (p ++ x).
Proof. reflexivity. Qed.

Lemma append_assoc_str (p q x : string) : (p ++ q) ++ x = p ++ (q ++ x).
Proof.
  induction p as [|c p IH]; [reflexivity|].
  rewrite !append_cons, IH. reflexivity.
Qed.

Definition not_space (c : ascii) : bool := negb (is_space c).

Lemma rstrip_nonspace_prefix p x :
  all_chars not_space p = true -> rstrip (p ++ x) = p ++ rstrip x.
Proof.
  induction p as [|c p IH]; intros Hp; [reflexivity|].
  cbn [all_chars] in Hp. apply andb_prop in Hp as [Hc Hp].
  apply negb_true_iff in Hc.
  rewrite !append_cons, rstrip_cons by exact Hc. rewrite IH by exact Hp.
  reflexivity.
Qed.

Lemma strip_nonspace_prefix c p x :
  all_chars not_space (String c p) = true ->
  strip (String c p ++ x) = String c p ++ rstrip x.
Proof.
  intros Hp. unfold strip. rewrite append_cons. cbn [lstrip].
  pose proof Hp as Hp'. cbn [all_chars] in Hp'.
  apply andb_prop in Hp' as [Hc _]. apply negb_true_iff in Hc. rewrite Hc.
  rewrite <- append_cons. apply rstrip_nonspace_prefix, Hp.
Qed.

Lemma startswith_app s p :
  startswith s p = true -> exists r, s = p ++ r.
Proof.
  revert s. induction p as [|a p IH]; intros s Hs.
  - exists s. reflexivity.
  - destruct s as [|b s]; [discriminate|].
    cbn [startswith] in Hs. apply andb_prop in Hs as [Hab Hs].
    apply Ascii.eqb_eq in Hab. subst b.
    destruct (IH _ Hs) as [r ->]. exists r. reflexivity.
Qed.

End PyStrFacts.

Module RegexFacts.
Import Regex.

Lemma fullmatch_Void s : fullmatch Void s = false.
Proof. induction s; [reflexivity | assumption]. Qed.

(** The pattern left after a prefix has been read. *)
Fixpoint derivs (p : string) (r : re) : re :=
  match p with
  | EmptyString => r
  | String c p' => derivs p' (deriv c r)
  end.

Lemma fullmatch_app p s r : fullmatch r (p ++ s) = fullmatch (derivs p r) s.
Proof. revert r. induction p as [|c p IH]; intros r; [reflexivity | apply IH]. Qed.

End RegexFacts.

(** ** URL validation *)

Module UrlFacts.
Import PyStr PyStrFacts Regex RegexFacts UrlUtils.

Lemma normalize_url_prefix s :
  startswith (normalize_url s) "http://" = true
  \/ startswith (normalize_url s) "https://" = true.
Proof.
  unfold normalize_url.
  destruct (startswith (strip s) "http://") eqn:E1; [left; exact E1|].
  destruct (startswith (strip s) "https://") eqn:E2; [right; exact E2|].
  right. reflexivity.
Qed.

Lemma strip_fixed_https x : rstrip x = x -> strip ("https://" ++ x) = "https://" ++ x.
Proof.
  intros Hx.
  change ("https://" ++ x)
    with (String "h" (String "t" (String "t" (String "p" (String "s"
           (String ":" (String "/" (String "/" x)))))))).
  rewrite strip_cons by reflexivity.
  repeat (rewrite rstrip_cons by reflexivity). rewrite Hx. reflexivity.
Qed.

Lemma normalize_url_idem s : normalize_url (normalize_url s) = normalize_url s.
Proof.
  unfold normalize_url at 2 3.
  destruct (negb (startswith (strip s) "http://" || startswith (strip s) "https://"))
    eqn:E.
  - unfold normalize_url.
    rewrite strip_fixed_https by (unfold strip; apply rstrip_idem).
    reflexivity.
  - unfold normalize_url. rewrite strip_idem, E. reflexivity.
Qed.

Section WithUrlLib.
Context `{UrlLib}.

(** The checks made once the URL is normalized. *)
Lemma validate_unfold raw :
  validate_and_normalize raw
  = (let url := normalize_url raw in
     if negb (is_valid_url url) then Ok (false, "Invalid URL format")
     else
       parsed ← urlparse url;
       if negb (String.eqb (scheme parsed) "http" || String.eqb (scheme parsed) "https")
       then Ok (false, "URL uses unsafe scheme")
       else if negb (nonempty (extract_domain url))
            then Ok (false, "Could not extract domain")
            else Ok (true, url)).
Proof. reflexivity. Qed.

Lemma validate_accepts raw u :
  validate_and_normalize raw = Ok (true, u) ->
  u = normalize_url raw
  /\ is_valid_url u = true
  /\ exists parsed, urlparse u = Ok parsed
       /\ (scheme parsed = "http" \/ scheme parsed = "https").
Proof.
  rewrite validate_unfold. cbv zeta.
  destruct (is_valid_url (normalize_url raw)) eqn:Ev; cbn [negb]; [|discriminate].
  destruct (urlparse (normalize_url raw)) as [parsed|e] eqn:Ep;
    cbn [mbind pyresult_bind bind]; [|discriminate].
  destruct (String.eqb (scheme parsed) "http") eqn:E1;
    destruct (String.eqb (scheme parsed) "https") eqn:E2; cbn [orb negb];
    try discriminate;
    (destruct (nonempty (extract_domain (normalize_url raw))); cbn [negb];
     [|discriminate]);
    intros [= <-]; (split; [reflexivity|]); (split; [exact Ev|]);
    exists parsed; (split; [exact Ep|]).
  - left. apply String.eqb_eq, E1.
  - left. apply String.eqb_eq, E1.
  - right. apply String.eqb_eq, E2.
Qed.

End WithUrlLib.

End UrlFacts.

Module UrlTheorems.
Import PyStr PyStrFacts Regex RegexFacts UrlUtils UrlFacts.

(** C9. Normalization is idempotent: when [validate_and_normalize] accepts
    a raw URL and returns the normalized URL [u], validating [u] again
    succeeds and returns [u] unchanged. *)
Theorem validate_and_normalize_idempotent `{UrlLib} (raw u : string) :
  validate_and_normalize raw = Ok (true, u) ->
  validate_and_normalize u = Ok (true, u).
Proof.
  intros Hraw.
  destruct (validate_accepts raw u Hraw) as (Hu & _).
  rewrite validate_unfold in Hraw |- *. cbv zeta in Hraw |- *.
  rewrite Hu, normalize_url_idem, <- Hu. rewrite <- Hu in Hraw. exact Hraw.
Qed.

Lemma validate_and_normalize_idempotent_witness :
  validate_and_normalize (H := UrlRef.url_ref) "https://example.com"
  = Ok (true, "https://example.com").
Proof.
  apply (validate_and_normalize_idempotent (H := UrlRef.url_ref) " example.com ").
  vm_compute. reflexivity.
Defined.

(** Every accepted URL is the normalized input, starts with an explicit
    [http://] or [https://], and parses with scheme [http] or [https]. *)
Lemma accepted_scheme `{UrlLib} (raw u : string) :
  validate_and_normalize raw = Ok (true, u) ->
  (startswith u "http://" = true \/ startswith u "https://" = true)
  /\ exists parsed, urlparse u = Ok parsed
       /\ (scheme parsed = "http" \/ scheme parsed = "https").
Proof.
  intros Hraw. destruct (validate_accepts raw u Hraw) as (Hu & _ & Hp).
  split; [|exact Hp]. subst u. apply normalize_url_prefix.
Qed.

(** An input that opens with a word [p] free of white space, not starting
    with the letter h, gets [https://] put in front; when no string that
    starts with [https://p] can fit [URL_REGEX], the input is turned down
    as badly formed, whatever follows and whatever the URL library. *)
Lemma foreign_prefix_rejected `{UrlLib} (c : ascii) (p rest : string) :
  all_chars not_space (String c p) = true ->
  Ascii.eqb c "h" = false ->
  derivs ("https://" ++ String c p) URL_REGEX = Void ->
  validate_and_normalize (String c p ++ rest) = Ok (false, "Invalid URL format").
Proof.
  intros Hp Hc Hd. rewrite validate_unfold. cbv zeta.
  assert (Hn : normalize_url (String c p ++ rest)
               = ("https://" ++ String c p) ++ rstrip rest).
  { unfold normalize_url. rewrite strip_nonspace_prefix by exact Hp.
    rewrite append_cons. cbn [startswith].
    rewrite (Ascii.eqb_sym "h" c), Hc. reflexivity. }
  rewrite Hn. unfold is_valid_url, re_match.
  rewrite fullmatch_app, Hd, fullmatch_Void. reflexivity.
Qed.

Lemma foreign_scheme_invalid_format `{UrlLib} (sch rest : string) :
  In sch ["javascript:"; "data:"; "file:"] ->
  validate_and_normalize (sch ++ rest) = Ok (false, "Invalid URL format").
Proof.
  intros [<- | [<- | [<- | []]]];
    apply foreign_prefix_rejected; vm_compute; reflexivity.
Qed.

(** With the reference URL library, a URL that starts with [http://] or
    [https://] parses with that scheme, if it parses at all. *)
Lemma split_scheme_http (x : string) :
  UrlRef.split_scheme ("http:" ++ x) = ("http", x).
Proof. vm_compute. reflexivity. Qed.

Lemma split_scheme_https (x : string) :
  UrlRef.split_scheme ("https:" ++ x) = ("https", x).
Proof. vm_compute. reflexivity. Qed.

Lemma urlsplit_ref_prefix (sch r : string) :
  all_chars (fun c => negb (UrlRef.c0_or_space c) && UrlRef.safe_byte c)%bool
    sch = true ->
  sch <> "" ->
  (forall x, UrlRef.split_scheme (sch ++ ":" ++ x) = (sch, x)) ->
  match UrlRef.urlsplit_ref (sch ++ "://" ++ r) with
  | Ok parsed => scheme parsed = sch
  | Raise _ => True
  end.
Proof.
  intros Hall Hne Hsplit. unfold UrlRef.urlsplit_ref.
  assert (Hl : UrlRef.lstrip_c0 (sch ++ "://" ++ r) = sch ++ "://" ++ r).
  { destruct sch as [|c sch]; [congruence|].
    rewrite append_cons. cbn [UrlRef.lstrip_c0 all_chars] in Hall |- *.
    apply andb_prop in Hall as [Hc _]. apply andb_prop in Hc as [Hc _].
    apply negb_true_iff in Hc. rewrite Hc. reflexivity. }
  assert (Hf : forall y, filter_chars UrlRef.safe_byte (sch ++ "://" ++ y)
                         = sch ++ ":" ++ "//" ++ filter_chars UrlRef.safe_byte y).
  { intros y. clear Hl Hne Hsplit. induction sch as [|c sch IH]; [reflexivity|].
    cbn [all_chars] in Hall. apply andb_prop in Hall as [Hc Hall].
    apply andb_prop in Hc as [_ Hc].
    rewrite !append_cons. cbn [filter_chars]. rewrite Hc.
    f_equal. exact (IH Hall). }
  rewrite Hl, Hf, Hsplit.
  change (startswith ("//" ++ filter_chars UrlRef.safe_byte r) "//") with true.
  cbv iota.
  destruct (xorb _ _); [exact I | reflexivity].
Qed.

Lemma urlsplit_ref_http (r : string) :
  match UrlRef.urlsplit_ref ("http://" ++ r) with
  | Ok parsed => scheme parsed = "http"
  | Raise _ => True
  end.
Proof.
  apply (urlsplit_ref_prefix "http" r);
    [reflexivity | discriminate | apply split_scheme_http].
Qed.

Lemma urlsplit_ref_https (r : string) :
  match UrlRef.urlsplit_ref ("https://" ++ r) with
  | Ok parsed => scheme parsed = "https"
  | Raise _ => True
  end.
Proof.
  apply (urlsplit_ref_prefix "https" r);
    [reflexivity | discriminate | apply split_scheme_https].
Qed.

(** So the scheme guard of [validate_and_normalize] never fires: no input
    is turned down with "URL uses unsafe scheme". *)
Lemma unsafe_scheme_unreachable (raw : string) :
  validate_and_normalize (H := UrlRef.url_ref) raw
  <> Ok (false, "URL uses unsafe scheme").
Proof.
  rewrite validate_unfold. cbv zeta.
  destruct (negb (is_valid_url (normalize_url raw))); [discriminate|].
  cbn [urlparse UrlRef.url_ref].
  destruct (normalize_url_prefix raw) as [Hp | Hp];
    apply startswith_app in Hp as [r Hr]; rewrite Hr.
  - pose proof (urlsplit_ref_http r) as Hs.
    destruct (UrlRef.urlsplit_ref ("http://" ++ r)) as [parsed|e];
      cbn [mbind pyresult_bind bind]; [|discriminate].
    rewrite Hs. cbn.
    destruct (negb (nonempty _)); discriminate.
  - pose proof (urlsplit_ref_https r) as Hs.
    destruct (UrlRef.urlsplit_ref ("https://" ++ r)) as [parsed|e];
      cbn [mbind pyresult_bind bind]; [|discriminate].
    rewrite Hs. cbn.
    destruct (negb (nonempty _)); discriminate.
Qed.

(** C5. Inputs written with an unsafe scheme are turned down, but not with
    the reason the scheme guard holds ready: [normalize_url] has put
    [https://] in front before anything looks at the scheme, the shape check
    then fails, and the answer is "Invalid URL format" where the claim
    expects "URL uses unsafe scheme". *)
Theorem unsafe_scheme_inputs_get_invalid_format :
  validate_and_normalize (H := UrlRef.url_ref) "javascript:alert(1)"
    = Ok (false, "Invalid URL format")
  /\ validate_and_normalize (H := UrlRef.url_ref) "data:text/html,<h1>x</h1>"
    = Ok (false, "Invalid URL format")
  /\ validate_and_normalize (H := UrlRef.url_ref) "file:///etc/passwd"
    = Ok (false, "Invalid URL format").
Proof. repeat split; vm_compute; reflexivity. Qed.

End UrlTheorems.

(** ** The cache *)

(** Python values and what the [json] module makes of them: the reference
    instance of [Json].  Numbers are integers here, and the keys of a dict
    are strings. *)
Module JsonRef.

#[warning="-register-all"]
Inductive jsonval : Type :=
| JNull
| JBool (b : bool)
| JInt (n : Z)
| JStr (s : string)
| JArray (items : list jsonval)
| JObject (members : list (string * jsonval)).

#[warning="-register-all"]
Inductive pyval : Type :=
| PyNone
| PyBool (b : bool)
| PyInt (n : Z)
| PyStr (s : string)
| PyList (items : list pyval)
| PyTuple (items : list pyval)
| PyDict (members : list (string * pyval))
| PySet (items : list pyval).

(** [json.load]: arrays become lists, objects become dicts. *)
Fixpoint py_of_json (j : jsonval) : pyval :=
  match j with
  | JNull => PyNone
  | JBool b => PyBool b
  | JInt n => PyInt n
  | JStr s => PyStr s
  | JArray items => PyList (map py_of_json items)
  | JObject members => PyDict (map (fun '(k, v) => (k, py_of_json v)) members)
  end.

Fixpoint all_some {A : Type} (l : list (option A)) : option (list A) :=
  match l with
  | [] => Some []
  | x :: r => a ← x; rest ← all_some r; Some (a :: rest)
  end.

(** [json.dump]: lists and tuples alike become arrays; a set has no JSON
    form, wherever it sits in the value. *)
Fixpoint json_of_py (v : pyval) : option jsonval :=
  match v with
  | PyNone => Some JNull
  | PyBool b => Some (JBool b)
  | PyInt n => Some (JInt n)
  | PyStr s => Some (JStr s)
  | PyList items | PyTuple items => JArray <$> all_some (map json_of_py items)
  | PyDict members =>
      JObject <$> all_some (map (fun '(k, v) => pair k <$> json_of_py v) members)
  | PySet _ => None
  end.

Fixpoint jsonval_nested_ind (Q : jsonval -> Prop)
    (Hnull : Q JNull) (Hbool : forall b, Q (JBool b)) (Hint : forall n, Q (JInt n))
    (Hstr : forall s, Q (JStr s))
    (Harray : forall items, List.Forall Q items -> Q (JArray items))
    (Hobject : forall members,
        List.Forall (fun kv => Q kv.2) members -> Q (JObject members))
    (j : jsonval) : Q j :=
  let rec := jsonval_nested_ind Q Hnull Hbool Hint Hstr Harray Hobject in
  match j with
  | JNull => Hnull
  | JBool b => Hbool b
  | JInt n => Hint n
  | JStr s => Hstr s
  | JArray items =>
      Harray items
        ((fix go (l : list jsonval) : List.Forall Q l :=
            match l with
            | [] => @List.Forall_nil jsonval Q
            | x :: r => @List.Forall_cons jsonval Q x r (rec x) (go r)
            end) items)
  | JObject members =>
      Hobject members
        ((fix go (l : list (string * jsonval)) : List.Forall (fun kv => Q kv.2) l :=
            match l with
            | [] => @List.Forall_nil (string * jsonval) (fun kv => Q kv.2)
            | kv :: r =>
                @List.Forall_cons (string * jsonval) (fun kv => Q kv.2) kv r
                  (rec kv.2) (go r)
            end) members)
  end.

Lemma json_of_py_of_json (j : jsonval) : json_of_py (py_of_json j) = Some j.
Proof.
  induction j as [| b | n | s | items IH | members IH] using jsonval_nested_ind;
    try reflexivity.
  - cbn [py_of_json json_of_py].
    assert (Hl : all_some (map json_of_py (map py_of_json items)) = Some items).
    { induction IH as [|x r Hx _ IHr]; [reflexivity|].
      cbn [map all_some]. rewrite Hx, IHr. reflexivity. }
    rewrite Hl. reflexivity.
  - cbn [py_of_json json_of_py].
    assert (Hl : all_some
                   (map (fun '(k, v) => pair k <$> json_of_py v)
                      (map (fun '(k, v) => (k, py_of_json v)) members))
                 = Some members).
    { induction IH as [|[k x] r Hx _ IHr]; [reflexivity|].
      cbn [map all_some snd] in Hx |- *. rewrite Hx, IHr. reflexivity. }
    rewrite Hl. reflexivity.
Qed.

#[global] Instance python_json : Json jsonval pyval := {
  json_load := py_of_json;
  json_dump := json_of_py;
  json_dump_load := json_of_py_of_json
}.

End JsonRef.

Module CacheTheorems.
Import Cache.

Section WithPayload.
Context {J P : Type} `{Environment} `{Digest} `{!Json J P}.

(** The document in the file; empty when there is no file or no document. *)
Definition stored (w : world J) : gmap string (cache_entry J) :=
  match w_cache_file w with
  | Some (Document d) => d
  | _ => ∅
  end.

(** The file can be read: it is missing or holds a document. *)
Definition readable (w : world J) : Prop := w_cache_file w <> Some Truncated.

Lemma dump_load_entry (e : cache_entry J) : dump_entry (load_entry e) = Some e.
Proof.
  unfold dump_entry, load_entry. cbn [result ts]. rewrite json_dump_load.
  destruct e; reflexivity.
Qed.

(** What was read from a document is written back as that document. *)
Lemma dump_loaded (d : gmap string (cache_entry J)) :
  json_dump_dict (load_entry <$> d) = Some d.
Proof.
  unfold json_dump_dict. rewrite bool_decide_eq_true_2.
  - f_equal. apply map_eq. intros i. rewrite lookup_omap, lookup_fmap.
    destruct (d !! i) as [e|]; [|reflexivity]. cbn. apply dump_load_entry.
  - intros i e He. rewrite lookup_fmap in He.
    destruct (d !! i) as [e'|]; [|discriminate He].
    injection He as <-. rewrite dump_load_entry. eexists. reflexivity.
Qed.

Lemma dump_loaded_delete (key : string) (d : gmap string (cache_entry J)) :
  json_dump_dict (delete key (load_entry <$> d)) = Some (delete key d).
Proof. rewrite <- fmap_delete. apply dump_loaded. Qed.

Lemma dump_loaded_insert (key : string) (t : Z) (R : P)
    (d : gmap string (cache_entry J)) :
  json_dump_dict (<[key := {| ts := t; result := R |}]> (load_entry <$> d))
  = (j ← json_dump R; Some (<[key := {| ts := t; result := j |}]> d)).
Proof.
  unfold json_dump_dict. destruct (json_dump R) as [j|] eqn:Ej; cbn.
  - rewrite bool_decide_eq_true_2.
    + f_equal. apply map_eq. intros i. rewrite lookup_omap.
      destruct (decide (i = key)) as [-> | Hne].
      * rewrite !lookup_insert_eq. cbn. unfold dump_entry. cbn [result ts].
        rewrite Ej. reflexivity.
      * rewrite !lookup_insert_ne by congruence. rewrite lookup_fmap.
        destruct (d !! i) as [e|]; [|reflexivity]. cbn. apply dump_load_entry.
    + intros i e He.
      destruct (decide (i = key)) as [-> | Hne].
      * rewrite lookup_insert_eq in He. injection He as <-.
        unfold dump_entry. cbn [result ts]. rewrite Ej. eexists. reflexivity.
      * rewrite lookup_insert_ne, lookup_fmap in He by congruence.
        destruct (d !! i) as [e'|]; [|discriminate He].
        injection He as <-. rewrite dump_load_entry. eexists. reflexivity.
  - rewrite bool_decide_eq_false_2; [reflexivity|].
    intros Hall. specialize (Hall key _ (lookup_insert_eq _ _ _)).
    unfold dump_entry in Hall. cbn [result ts] in Hall. rewrite Ej in Hall.
    destruct Hall as [x Hx]. discriminate Hx.
Qed.

(** [_load] on a file that can be read. *)
Lemma load_readable (w : world J) :
  readable w -> _load w = (Ok (load_entry <$> stored w), w).
Proof.
  unfold readable, _load, stored. intros Hr.
  destruct (w_cache_file w) as [[d|]|]; [reflexivity | contradiction |].
  rewrite fmap_empty. reflexivity.
Qed.

Lemma load_truncated (w : world J) :
  w_cache_file w = Some Truncated -> _load w = (Raise ValueError, w).
Proof. unfold _load. intros ->. reflexivity. Qed.

(** [cache_set], case by case: the file cannot be read; the payload has a
    JSON form; the payload has none. *)
Lemma cache_set_spec (url : string) (R : P) (w : world J) :
  cache_set url R w
  = match w_cache_file w with
    | Some Truncated => (Raise ValueError, w)
    | _ =>
        match json_dump R with
        | Some j =>
            (Ok tt,
             {| w_env := w_env w;
                w_cache_file :=
                  Some (Document
                          (<[sha256_hexdigest url := {| ts := now (w_env w); result := j |}]>
                             (stored w))) |})
        | None =>
            (Raise (OtherError "TypeError"),
             {| w_env := w_env w; w_cache_file := Some Truncated |})
        end
    end.
Proof.
  unfold cache_set, mbind, io_bind.
  destruct (w_cache_file w) as [[d|]|] eqn:Ef.
  - rewrite load_readable by (unfold readable; rewrite Ef; discriminate).
    unfold time_time, _save. rewrite dump_loaded_insert.
    unfold stored. rewrite Ef. destruct (json_dump R); reflexivity.
  - rewrite load_truncated by exact Ef. reflexivity.
  - rewrite load_readable by (unfold readable; rewrite Ef; discriminate).
    unfold time_time, _save. rewrite dump_loaded_insert.
    unfold stored. rewrite Ef. destruct (json_dump R); reflexivity.
Qed.

Lemma cache_get_truncated (url : string) (w : world J) :
  w_cache_file w = Some Truncated ->
  cache_get (P := P) url w = (Raise ValueError, w).
Proof.
  intros Ef. unfold cache_get, mbind, io_bind. rewrite load_truncated by exact Ef.
  reflexivity.
Qed.

Lemma cache_get_unfold (url : string) (w : world J) :
  readable w ->
  cache_get (P := P) url w
  = match stored w !! sha256_hexdigest url with
    | None => (Ok None, w)
    | Some item =>
        if now (w_env w) - ts item >? TTL
        then (Ok None,
              {| w_env := w_env w;
                 w_cache_file :=
                   Some (Document (delete (sha256_hexdigest url) (stored w))) |})
        else (Ok (Some (json_load (result item))), w)
    end.
Proof.
  intros Hr. unfold cache_get, mbind, io_bind. rewrite load_readable by exact Hr.
  rewrite lookup_fmap.
  destruct (stored w !! sha256_hexdigest url) as [item|]; [|reflexivity].
  cbn [fmap option_fmap option_map load_entry ts result time_time].
  unfold time_time. cbn [ts].
  destruct (now (w_env w) - ts item >? TTL); [|reflexivity].
  unfold _save. rewrite dump_loaded_delete. reflexivity.
Qed.

Lemma cache_get_hit (url : string) (w : world J) (item : cache_entry J) :
  readable w ->
  stored w !! sha256_hexdigest url = Some item ->
  now (w_env w) - ts item <= TTL ->
  cache_get url w = (Ok (Some (json_load (P := P) (result item))), w).
Proof.
  intros Hr Hitem Hage. rewrite cache_get_unfold, Hitem by exact Hr.
  destruct (Z.gtb_spec (now (w_env w) - ts item) TTL) as [Hgt | _]; [lia|].
  reflexivity.
Qed.

Lemma cache_get_expired (url : string) (w : world J) (item : cache_entry J) :
  readable w ->
  stored w !! sha256_hexdigest url = Some item ->
  now (w_env w) - ts item > TTL ->
  cache_get (P := P) url w
  = (Ok None,
     {| w_env := w_env w;
        w_cache_file :=
          Some (Document (delete (sha256_hexdigest url) (stored w))) |}).
Proof.
  intros Hr Hitem Hage. rewrite cache_get_unfold, Hitem by exact Hr.
  destruct (Z.gtb_spec (now (w_env w) - ts item) TTL) as [_ | Hle]; [|lia].
  reflexivity.
Qed.

Lemma cache_get_miss (url : string) (w : world J) :
  readable w ->
  stored w !! sha256_hexdigest url = None ->
  cache_get (P := P) url w = (Ok None, w).
Proof. intros Hr Hnone. rewrite cache_get_unfold, Hnone by exact Hr. reflexivity. Qed.

(** C6. Cache round trip, for a payload that JSON keeps as it is (what
    [json.load] reads back from what [json.dump] wrote is the payload
    again).  Let [cache_set url R] return in world [w], and let [w'] be any
    later world whose cache file is the one that call left behind.  While
    the clock of [w'] is at most [TTL] = 12 hours past the time of the
    call, [cache_get url] returns [R] and changes nothing; once the clock
    is more than [TTL] past it, [cache_get url] returns nothing, writes the
    file back without the entry, and the entry is gone from the persisted
    store. *)
Theorem cache_round_trip (url : string) (R : P) (w w' : world J) :
  json_load <$> json_dump R = Some R ->
  (cache_set url R w).1 = Ok tt ->
  w_cache_file w' = w_cache_file (cache_set url R w).2 ->
  TTL = 43200
  /\ (now (w_env w') - now (w_env w) <= TTL ->
      cache_get url w' = (Ok (Some R), w'))
  /\ (now (w_env w') - now (w_env w) > TTL ->
      exists d,
        cache_get (P := P) url w'
        = (Ok None, {| w_env := w_env w'; w_cache_file := Some (Document d) |})
        /\ d = delete (sha256_hexdigest url) (stored w')
        /\ d !! sha256_hexdigest url = None).
Proof.
  intros Hkeeps Hset Hfile. rewrite cache_set_spec in Hset, Hfile.
  destruct (json_dump R) as [j|] eqn:Ej; [|discriminate Hkeeps].
  cbn in Hkeeps. injection Hkeeps as Hj.
  assert (Hfile' : w_cache_file w'
                   = Some (Document
                             (<[sha256_hexdigest url
                                := {| ts := now (w_env w); result := j |}]> (stored w)))).
  { destruct (w_cache_file w) as [[d|]|]; [exact Hfile | discriminate Hset | exact Hfile]. }
  assert (Hr : readable w') by (unfold readable; rewrite Hfile'; discriminate).
  assert (Hitem : stored w' !! sha256_hexdigest url
                  = Some {| ts := now (w_env w); result := j |}).
  { unfold stored at 1. rewrite Hfile'. apply lookup_insert_eq. }
  split; [reflexivity|]. split.
  - intros Hage. rewrite (cache_get_hit url w' _ Hr Hitem) by exact Hage.
    cbn [result]. rewrite Hj. reflexivity.
  - intros Hage. eexists. split; [|split; [reflexivity|]].
    + apply (cache_get_expired url w' _ Hr Hitem). exact Hage.
    + apply lookup_delete_eq.
Qed.

End WithPayload.

Definition demo_world : world string := Ref.fresh_world string 1000 [].

Definition later (dt : Z) (w : world string) : world string :=
  {| w_env := {| Ref.clock := Ref.clock (w_env w) + dt;
                 Ref.sent := Ref.sent (w_env w);
                 Ref.replies := Ref.replies (w_env w) |};
     w_cache_file := w_cache_file w |}.

(** A scan summary as a Python dict, and a store for such values. *)
Definition report : JsonRef.pyval :=
  JsonRef.PyDict
    [("status", JsonRef.PyStr "ok"); ("verdict", JsonRef.PyStr "SAFE");
     ("score", JsonRef.PyInt 3); ("title", JsonRef.PyNone);
     ("explanations", JsonRef.PyList [JsonRef.PyStr "Suspicious keywords found: 1"])].

Definition py_demo : world JsonRef.jsonval :=
  Ref.fresh_world JsonRef.jsonval 1000 [].

Definition py_later (dt : Z) (w : world JsonRef.jsonval) : world JsonRef.jsonval :=
  {| w_env := {| Ref.clock := Ref.clock (w_env w) + dt;
                 Ref.sent := Ref.sent (w_env w);
                 Ref.replies := Ref.replies (w_env w) |};
     w_cache_file := w_cache_file w |}.

Lemma cache_round_trip_witness :
  cache_get "example.com" (py_later 60 (cache_set "example.com" report py_demo).2)
    = (Ok (Some report), py_later 60 (cache_set "example.com" report py_demo).2)
  /\ exists d,
       cache_get (P := JsonRef.pyval) "example.com"
         (py_later 43201 (cache_set "example.com" report py_demo).2)
       = (Ok None, {| w_env := w_env (py_later 43201 py_demo);
                      w_cache_file := Some (Document d) |})
       /\ d !! "example.com" = None.
Proof.
  split.
  - apply (cache_round_trip "example.com" report py_demo
             (py_later 60 (cache_set "example.com" report py_demo).2));
      [reflexivity | reflexivity | reflexivity |].
    vm_compute. discriminate.
  - destruct (cache_round_trip "example.com" report py_demo
                (py_later 43201 (cache_set "example.com" report py_demo).2))
      as (_ & _ & Hexp); [reflexivity | reflexivity | reflexivity |].
    destruct Hexp as (d & Hget & _ & Hgone); [vm_compute; reflexivity|].
    exists d. split; [exact Hget | exact Hgone].
Defined.

(** What the condition on the payload is for: a tuple has a JSON form, but
    what comes back from the cache is a list. *)
Lemma tuple_comes_back_as_list :
  (cache_get "example.com"
     (cache_set "example.com" (JsonRef.PyTuple [JsonRef.PyInt 1; JsonRef.PyInt 2])
        py_demo).2).1
  = Ok (Some (JsonRef.PyList [JsonRef.PyInt 1; JsonRef.PyInt 2])).
Proof. vm_compute. reflexivity. Qed.

End CacheTheorems.

(** ** HTML features *)

Module HtmlTheorems.
Import Soup HtmlParser.

Definition named (key : string) (tag : node) : bool :=
  bool_decide (get "name" tag = Some key).

(** The content attribute of the last tag of [tags] whose name attribute
    is [key]. *)
Definition last_named_content (key : string) (tags : list node) : option string :=
  last (List.filter (named key) tags) ≫= get "content".

(** The reading of the specification: the content attribute of the first
    meta tag, in document order, whose name attribute is [key]. *)
Definition spec_first_meta_content (key : string) (soup : node) : option string :=
  head (List.filter (named key) (find_all "meta" soup)) ≫= get "content".

Lemma meta_loop_snoc (tags : list node) (t : node) :
  meta_loop (tags ++ [t]) = meta_step (meta_loop tags) t.
Proof. unfold meta_loop. rewrite fold_left_app. reflexivity. Qed.

Lemma last_named_snoc (key : string) (tags : list node) (t : node) :
  last_named_content key (tags ++ [t])
  = if named key t then get "content" t else last_named_content key tags.
Proof.
  unfold last_named_content. rewrite List.filter_app. cbn [List.filter].
  destruct (named key t).
  - rewrite last_snoc. reflexivity.
  - rewrite app_nil_r. reflexivity.
Qed.

Lemma meta_loop_last (tags : list node) :
  meta_loop tags
  = (last_named_content "description" tags, last_named_content "keywords" tags).
Proof.
  induction tags as [|t tags IH] using rev_ind; [reflexivity|].
  rewrite meta_loop_snoc, IH, !last_named_snoc.
  unfold meta_step, named. cbn [fst snd].
  destruct (bool_decide (get "name" t = Some "description")) eqn:Ed.
  - apply bool_decide_eq_true in Ed.
    rewrite (bool_decide_eq_false_2 (get "name" t = Some "keywords"))
      by (rewrite Ed; discriminate).
    reflexivity.
  - destruct (bool_decide (get "name" t = Some "keywords")); reflexivity.
Qed.

Lemma extract_soup_meta (soup : node) :
  (meta_description (extract_soup soup), meta_keywords (extract_soup soup))
  = meta_loop (find_all "meta" soup).
Proof.
  unfold extract_soup. destruct (meta_loop (find_all "meta" soup)). reflexivity.
Qed.

(** C7, as the code has it.  For every HTML document, the reported meta
    description (respectively meta keywords) is the content attribute of
    the LAST meta tag in document order whose name attribute equals
    "description" (respectively "keywords"), compared as authored; it is
    absent when there is no such tag or that tag has no content. *)
Theorem meta_description_is_last_match `{HtmlLib} (html : list N) :
  let metas := find_all "meta" (BeautifulSoup html) in
  meta_description (extract_html_features html)
    = last_named_content "description" metas
  /\ meta_keywords (extract_html_features html)
    = last_named_content "keywords" metas.
Proof.
  cbv zeta. unfold extract_html_features.
  pose proof (extract_soup_meta (BeautifulSoup html)) as E.
  rewrite meta_loop_last in E. injection E as E1 E2. split; assumption.
Qed.

(** The name is compared exactly: a tag whose name attribute differs in
    case is passed over. *)
Lemma meta_step_case_sensitive (st : option string * option string) (content : string) :
  meta_step st (Tag "meta" {[ "name" := "Description"; "content" := content ]} [])
  = st.
Proof. destruct st. vm_compute. reflexivity. Qed.

Definition meta_tag (name content : string) : node :=
  Tag "meta" {[ "name" := name; "content" := content ]} [].

(** A document with two description tags, and its parse. *)
Definition two_descriptions_html : list N :=
  Ref.ascii_text
    "<meta name=description content=first><meta name=description content=second>".

Definition two_descriptions : node :=
  Tag "[document]" ∅
    [meta_tag "description" "first"; meta_tag "description" "second"].

(** C7, as stated, fails: with two description tags the code reports the
    second, the first-match reading gives the first. *)
Lemma meta_description_not_first_match :
  let H := Ref.parser_for two_descriptions_html two_descriptions in
  meta_description (extract_html_features two_descriptions_html) = Some "second"
  /\ spec_first_meta_content "description" (BeautifulSoup two_descriptions_html)
     = Some "first"
  /\ meta_description (extract_html_features two_descriptions_html)
     <> spec_first_meta_content "description" (BeautifulSoup two_descriptions_html).
Proof.
  cbv zeta.
  assert (E1 : meta_description
                 (extract_html_features
                    (H := Ref.parser_for two_descriptions_html two_descriptions)
                    two_descriptions_html) = Some "second")
    by (vm_compute; reflexivity).
  assert (E2 : spec_first_meta_content "description"
                 (BeautifulSoup
                    (HtmlLib := Ref.parser_for two_descriptions_html two_descriptions)
                    two_descriptions_html) = Some "first")
    by (vm_compute; reflexivity).
  split; [exact E1|]. split; [exact E2|].
  rewrite E1, E2. discriminate.
Qed.

End HtmlTheorems.

(** ** The scoring engine *)

Module RiskFacts.
Import Fetcher HtmlParser RiskEngine.

Lemma fst_charge c p m st : fst (charge c p m st) = fst st + (if c then p else 0).
Proof. unfold charge, explain, add. destruct c; cbn [fst]; lia. Qed.

Lemma snd_charge c p m st :
  snd (charge c p m st) = (snd st ++ (if c then [m] else []))%list.
Proof.
  unfold charge, explain, add. destruct c; cbn [snd]; [reflexivity|].
  rewrite app_nil_r. reflexivity.
Qed.

Lemma charge_nonneg c p m st : 0 <= p -> 0 <= fst st -> 0 <= fst (charge c p m st).
Proof. intros Hp Hst. rewrite fst_charge. destruct c; lia. Qed.

Lemma charge_redirects_nonneg n st : 0 <= fst st -> 0 <= fst (charge_redirects n st).
Proof.
  intros Hst. unfold charge_redirects, explain, add.
  destruct (3 <=? n)%nat; [cbn [fst]; lia|].
  destruct (n =? 2)%nat; cbn [fst]; lia.
Qed.

Lemma truediv_returns (a b : nat) : b <> 0%nat -> exists r, PyNum.truediv a b = Ok r.
Proof.
  intros Hb. unfold PyNum.truediv.
  destruct (Nat.eqb_spec b 0) as [E | _]; [contradiction|]. eexists. reflexivity.
Qed.

Lemma external_script_ratio_returns (scripts : list string) (domain : string) :
  exists r, external_script_ratio scripts domain = Ok r.
Proof.
  destruct scripts as [|s scripts]; [exists 0%float; reflexivity|].
  unfold external_script_ratio. apply truediv_returns. discriminate.
Qed.

Lemma external_links_ratio_returns `{UrlLib} (links : list string) (domain : string) :
  exists r, external_links_ratio links domain = Ok r.
Proof.
  destruct links as [|l links]; [exists 0%float; reflexivity|].
  unfold external_links_ratio. apply truediv_returns. discriminate.
Qed.

Lemma combine_at_most_100 vt gsb : combine_vt_gsb_score vt gsb <= 100.
Proof. unfold combine_vt_gsb_score. destruct vt, gsb; lia. Qed.

Definition counts_nonneg (vt : option vt_report) : Prop :=
  match vt with
  | Some v => 0 <= malicious_count v /\ 0 <= malicious v
              /\ 0 <= suspicious_count v /\ 0 <= suspicious v
  | None => True
  end.

Lemma int_or_nonneg a b : 0 <= a -> 0 <= b -> 0 <= int_or a b.
Proof. unfold int_or. destruct (a =? 0); lia. Qed.

Lemma combine_nonneg vt gsb : counts_nonneg vt -> 0 <= combine_vt_gsb_score vt gsb.
Proof.
  intros Hvt. unfold combine_vt_gsb_score.
  destruct vt as [v|]; cbn [counts_nonneg] in Hvt.
  - destruct Hvt as (H1 & H2 & H3 & H4).
    pose proof (int_or_nonneg _ _ H1 (int_or_nonneg _ _ H2 (Z.le_refl 0))).
    pose proof (int_or_nonneg _ _ H3 (int_or_nonneg _ _ H4 (Z.le_refl 0))).
    destruct gsb as [g|]; [destruct (matches g), (threats g)|]; lia.
  - destruct gsb as [g|]; [destruct (matches g), (threats g)|]; lia.
Qed.

End RiskFacts.

Module RiskTheorems.
Import Fetcher HtmlParser RiskEngine RiskFacts.

(** Splits on every call that may raise in a hypothesis about a result. *)
Ltac run_binds H :=
  repeat match type of H with
         | context [mbind _ ?m] =>
             destruct m eqn:?; cbn [mbind pyresult_bind bind] in H;
             try discriminate H
         end.

(** C8. [external_script_ratio] and [external_links_ratio] return exactly
    [0.0] on an empty list, and on every input they return a value: the
    division is only reached with a non-empty list, so it never raises
    [ZeroDivisionError]. *)
Theorem ratios_are_safe `{UrlLib} :
  (forall domain, external_script_ratio [] domain = Ok 0%float)
  /\ (forall domain, external_links_ratio [] domain = Ok 0%float)
  /\ (forall scripts domain, exists r, external_script_ratio scripts domain = Ok r)
  /\ (forall links domain, exists r, external_links_ratio links domain = Ok r).
Proof.
  split; [reflexivity|]. split; [reflexivity|]. split.
  - apply external_script_ratio_returns.
  - apply external_links_ratio_returns.
Qed.

Section WithUrlLib.
Context `{UrlLib}.

(** When the function returns: the score is at most 100, the verdict is
    read off the score by the thresholds 65 and 30, and the score is not
    negative provided the engine counts of the reputation input are not. *)
Lemma score_range_and_verdict fetch extracted url vt gsb r :
  compute_heuristic_score fetch extracted url vt gsb = Ok r ->
  r_score r <= 100
  /\ (65 <= r_score r -> r_verdict r = DANGEROUS)
  /\ (30 <= r_score r < 65 -> r_verdict r = SUSPICIOUS)
  /\ (r_score r < 30 -> r_verdict r = SAFE)
  /\ (counts_nonneg vt -> 0 <= r_score r).
Proof.
  intros Hr. unfold compute_heuristic_score in Hr. run_binds Hr.
  injection Hr as <-. cbn [r_score r_verdict].
  split; [lia|].
  match goal with |- context [verdict_of ?x] => set (raw := x) end.
  unfold verdict_of.
  split; [|split; [|split]].
  - intros Hs. destruct (Z.geb_spec raw 65); [reflexivity | lia].
  - intros Hs. destruct (Z.geb_spec raw 65); [lia|].
    destruct (Z.geb_spec raw 30); [reflexivity | lia].
  - intros Hs. destruct (Z.geb_spec raw 65); [lia|].
    destruct (Z.geb_spec raw 30); [lia | reflexivity].
  - intros Hvt. subst raw. apply Z.min_glb; [lia|].
    repeat (apply charge_nonneg; [lia|]).
    apply charge_redirects_nonneg. unfold add. cbn [fst].
    pose proof (combine_nonneg vt gsb Hvt).
    destruct (combine_vt_gsb_score vt gsb >? 0); cbn [fst explain]; lia.
Qed.

(** The function returns whenever the URL parses, neither entry of the
    fetch dict holds [None] and the engine counts are not negative. *)
Lemma compute_returns fetch extracted url vt gsb parsed :
  urlparse url = Ok parsed ->
  f_head fetch <> IsNone ->
  f_get fetch <> IsNone ->
  counts_nonneg vt ->
  exists r, compute_heuristic_score fetch extracted url vt gsb = Ok r.
Proof.
  intros Hp Hh Hg _. unfold compute_heuristic_score. rewrite Hp.
  cbn [mbind pyresult_bind bind].
  destruct (f_head fetch) as [| |h]; [|contradiction|];
    destruct (f_get fetch) as [| |g]; try contradiction;
    cbn [entry_get mbind pyresult_bind bind].
  all: destruct (external_script_ratio_returns (scripts extracted)
                   (default "" (hostname parsed))) as [sr ->];
    destruct (external_links_ratio_returns (links extracted)
                (default "" (hostname parsed))) as [lr ->];
    cbn [mbind pyresult_bind bind]; eexists; reflexivity.
Qed.


(** *** The checks as a table

    One row per check, in the order the function makes them: whether the
    row fires, what it adds to the score, and the explanation it appends,
    if any.  The reputation row always adds its penalty and explains it
    when positive; the row for exactly two redirects adds 6 and has no
    explanation; every other row that fires appends exactly one. *)

Record row : Type := {
  fires : bool;
  penalty : Z;
  message : option string
}.

Definition table (api : Z) (redirect_count : nat) (hostname sch : string)
    (forms_count : nat) (script_ratio : float) (iframe_count : nat)
    (link_ratio : float) (kw_matches filesize : nat) : list row :=
  [ {| fires := true; penalty := api;
       message := if api >? 0
                  then Some ("External threat services flagged: penalty "
                             ++ PyNum.fmt_int api)
                  else None |};
    {| fires := (3 <=? redirect_count)%nat; penalty := 12;
       message := Some ("Redirect chain length "
                        ++ PyNum.fmt_int (Z.of_nat redirect_count)
                        ++ " (suspicious)") |};
    {| fires := (redirect_count =? 2)%nat; penalty := 6; message := None |};
    {| fires := is_ip_host hostname; penalty := 15;
       message := Some "URL uses numeric IP address (suspicious)" |};
    {| fires := tld_is_suspicious hostname; penalty := 8;
       message := Some ("Suspicious TLD (" ++ PyStr.last_field "." hostname ++ ")") |};
    {| fires := (0 <? forms_count)%nat;
       penalty := Z.min 20 (Z.of_nat forms_count * 6);
       message := Some ("Found " ++ PyNum.fmt_int (Z.of_nat forms_count)
                        ++ " form(s) (could request credentials)") |};
    {| fires := PrimFloat.ltb RATIO_THRESHOLD script_ratio; penalty := 10;
       message := Some ("High external script ratio: "
                        ++ PyNum.fmt_2f script_ratio) |};
    {| fires := (0 <? iframe_count)%nat;
       penalty := Z.min 12 (Z.of_nat iframe_count * 6);
       message := Some ("Found " ++ PyNum.fmt_int (Z.of_nat iframe_count)
                        ++ " iframe(s)") |};
    {| fires := PrimFloat.ltb RATIO_THRESHOLD link_ratio; penalty := 8;
       message := Some ("High external links ratio: " ++ PyNum.fmt_2f link_ratio) |};
    {| fires := (0 <? kw_matches)%nat;
       penalty := Z.min 15 (Z.of_nat kw_matches * 3);
       message := Some ("Suspicious keywords found: "
                        ++ PyNum.fmt_int (Z.of_nat kw_matches)) |};
    {| fires := String.eqb sch "http"; penalty := 4;
       message := Some "Using HTTP (not HTTPS)" |};
    {| fires := ((filesize <? 200)%nat && (0 <? forms_count)%nat)%bool; penalty := 8;
       message := Some "Very small page with forms (phishing-like)" |} ].

Fixpoint total (rows : list row) : Z :=
  match rows with
  | [] => 0
  | r :: rest => (if fires r then penalty r else 0) + total rest
  end.

Fixpoint notes (rows : list row) : list string :=
  match rows with
  | [] => []
  | r :: rest =>
      ((if fires r then option_list (message r) else []) ++ notes rest)%list
  end.

Lemma compute_follows_table fetch extracted url vt gsb r :
  compute_heuristic_score fetch extracted url vt gsb = Ok r ->
  counts_nonneg vt ->
  exists parsed head_redirects get_redirects script_ratio link_ratio filesize,
    urlparse url = Ok parsed
    /\ entry_get (f_head fetch) h_redirects [] = Ok head_redirects
    /\ entry_get (f_get fetch) redirects [] = Ok get_redirects
    /\ external_script_ratio (scripts extracted) (default "" (hostname parsed))
       = Ok script_ratio
    /\ external_links_ratio (links extracted) (default "" (hostname parsed))
       = Ok link_ratio
    /\ entry_get (f_get fetch) Fetcher.filesize 0%nat = Ok filesize
    /\ let rows :=
         table (combine_vt_gsb_score vt gsb)
           (Nat.max (length head_redirects) (length get_redirects))
           (default "" (hostname parsed)) (scheme parsed)
           (count_forms (forms extracted)) script_ratio
           (count_iframes (iframes extracted)) link_ratio
           (suspicious_keyword_matches (clean_text extracted)) filesize in
       r_score r = Z.min 100 (total rows) /\ r_explanations r = notes rows.
Proof.
  intros Hr _. unfold compute_heuristic_score in Hr. run_binds Hr.
  injection Hr as <-.
  match goal with
  | Hp : urlparse url = Ok ?p, Hh : entry_get (f_head fetch) _ _ = Ok ?hr,
    Hg : entry_get (f_get fetch) redirects _ = Ok ?gr,
    Hs : external_script_ratio _ _ = Ok ?sr,
    Hl : external_links_ratio _ _ = Ok ?lr,
    Hf : entry_get (f_get fetch) Fetcher.filesize _ = Ok ?fs |- _ =>
      exists p, hr, gr, sr, lr, fs;
      do 6 (split; [first [assumption | reflexivity]|])
  end.
  cbv zeta. cbn [r_score r_explanations]. split.
  - f_equal. rewrite !fst_charge. unfold table, total. cbn [fires penalty].
    unfold charge_redirects, add, explain. cbn [fst].
    match goal with |- context [Nat.max ?a ?b] => generalize (Nat.max a b) end.
    intros n.
    destruct (Nat.leb_spec 3 n); destruct (Nat.eqb_spec n 2);
      cbn [fst]; try lia;
      destruct (combine_vt_gsb_score vt gsb >? 0); cbn [fst]; lia.
  - rewrite !snd_charge. unfold table, notes.
    cbn [fires message option_list option_rect].
    unfold charge_redirects, add, explain. cbn [snd fst].
    match goal with |- context [Nat.max ?a ?b] => generalize (Nat.max a b) end.
    intros n.
    destruct (Nat.leb_spec 3 n); destruct (Nat.eqb_spec n 2); try lia;
      destruct (combine_vt_gsb_score vt gsb >? 0);
      cbn [snd app option_list option_rect]; rewrite <- ?app_assoc;
      cbn [app]; rewrite ?app_nil_r; reflexivity.
Qed.

(** Two feature dicts that differ at most in the credential flags and the
    input descriptors of their forms: every other field is equal, and the
    forms match one to one on method and action. *)
Definition same_but_credentials (e1 e2 : extracted) : Prop :=
  title e1 = title e2
  /\ meta_description e1 = meta_description e2
  /\ meta_keywords e1 = meta_keywords e2
  /\ links e1 = links e2
  /\ scripts e1 = scripts e2
  /\ images e1 = images e2
  /\ iframes e1 = iframes e2
  /\ clean_text e1 = clean_text e2
  /\ Forall2 (fun f1 f2 => method f1 = method f2 /\ action f1 = action f2)
       (forms e1) (forms e2).

(** C10. The credential flag of a form never reaches the risk report: on
    two feature dicts that differ only in the [has_password] flags and the
    input descriptors of their forms, [compute_heuristic_score] gives the
    same outcome, that is the same score, verdict, components and
    explanations. *)
Theorem credential_flag_is_ignored (fetch : fetch_data) (e1 e2 : extracted)
    (url : string) (vt : option vt_report) (gsb : option gsb_report) :
  same_but_credentials e1 e2 ->
  compute_heuristic_score fetch e1 url vt gsb
  = compute_heuristic_score fetch e2 url vt gsb.
Proof.
  intros (_ & _ & _ & Hl & Hs & _ & Hi & Ht & Hf).
  apply Forall2_length in Hf.
  unfold compute_heuristic_score, count_forms.
  rewrite Hl, Hs, Hi, Ht, Hf. reflexivity.
Qed.

End WithUrlLib.

(** Concrete inputs. *)

Definition fetched (url : string) (head_redirects get_redirects : list string)
    (size : nat) : fetch_data :=
  {| f_url := url; f_normalized_url := url; f_error := None;
     f_head := Holds {| h_status_code := Some 200; h_final_url := url;
                        h_redirects := head_redirects; h_headers := ∅;
                        h_error := None |};
     f_get := Holds {| status_code := Some 200; final_url := url;
                       redirects := get_redirects; headers := ∅;
                       content := Some []; filesize := size; error := None |};
     f_duration := 1 |}.

Definition login_form (flag : bool) : form :=
  {| method := "POST"; action := "/login";
     inputs := if flag
               then [{| i_type := "password"; i_name := "pw"; i_placeholder := None |}]
               else [];
     has_password := flag |}.

Definition page_with_form (flag : bool) : extracted :=
  {| title := Some "Sign in"; meta_description := None; meta_keywords := None;
     links := []; forms := [login_form flag]; scripts := []; images := [];
     iframes := []; clean_text := "Welcome" |}.

Lemma credential_flag_is_ignored_witness :
  compute_heuristic_score (H := UrlRef.url_ref)
    (fetched "https://example.com" [] [] 5000) (page_with_form true)
    "https://example.com" None None
  = compute_heuristic_score (H := UrlRef.url_ref)
      (fetched "https://example.com" [] [] 5000) (page_with_form false)
      "https://example.com" None None.
Proof.
  apply (credential_flag_is_ignored (H := UrlRef.url_ref)).
  unfold same_but_credentials. cbn.
  repeat (split; [reflexivity|]).
  constructor; [split; reflexivity | constructor].
Defined.

(** A VirusTotal dict: three engines call the URL malicious, one suspicious. *)
Definition three_engines : vt_report :=
  {| malicious_count := 3; malicious := 0; suspicious_count := 1; suspicious := 0 |}.


Definition one_negative_count : vt_report :=
  {| malicious_count := -1; malicious := 0; suspicious_count := 0; suspicious := 0 |}.

(** The condition on the engine counts cannot be dropped: the function caps
    the score with [min(100.0, score)] alone, so a count of -1, which no
    engine reports, makes the reputation penalty [min(50, -20) = -20] and
    the score negative. *)
Lemma negative_count_gives_negative_score :
  exists r,
    compute_heuristic_score (H := UrlRef.url_ref)
      (fetched "https://example.com" [] [] 5000) Main.empty_extracted
      "https://example.com" (Some one_negative_count) None = Ok r
    /\ r_score r = -20
    /\ r_verdict r = SAFE
    /\ r_explanations r = []
    /\ ~ (0 <= r_score r <= 100).
Proof.
  eexists. split; [vm_compute; reflexivity|].
  cbn [r_score r_verdict r_explanations].
  repeat split; try reflexivity. lia.
Qed.

Definition two_hops : list string :=
  ["http://example.com/"; "https://example.com/"].

(** C3. A redirect chain of exactly two is penalised without a word: on a
    page where nothing else fires the score is 6 and the list of
    explanations is empty, while the claim asks for one explanation per
    triggered penalty.  The sibling branch for three or more redirects does
    append its explanation. *)
Theorem two_redirects_penalised_without_explanation :
  (exists r,
     compute_heuristic_score (H := UrlRef.url_ref)
       (fetched "https://www.example.com/" two_hops two_hops 5000)
       Main.empty_extracted "https://www.example.com/" None None = Ok r
     /\ r_score r = 6 /\ r_explanations r = [])
  /\ (exists r,
       compute_heuristic_score (H := UrlRef.url_ref)
         (fetched "https://www.example.com/"
            ("http://example.org/" :: two_hops) [] 5000)
         Main.empty_extracted "https://www.example.com/" None None = Ok r
       /\ r_score r = 12
       /\ r_explanations r = ["Redirect chain length 3 (suspicious)"]).
Proof.
  split; (eexists; split; [vm_compute; reflexivity|]); split; reflexivity.
Qed.

End RiskTheorems.

(** ** Fetching *)

Module Utf8Facts.
Import Utf8.

(** What a decoding run meets, byte group by byte group: a code point, or
    an error. *)
Definition ignored (marks : list (option N)) : list N := omap id marks.
Definition replaced (marks : list (option N)) : list N :=
  map (default REPLACEMENT) marks.

Definition agree (bs : list Byte.byte) : Prop :=
  exists marks : list (option N),
    utf8_decode Ignore bs = Ok (ignored marks)
    /\ utf8_decode Replace bs = Ok (replaced marks).

Lemma agree_nil : agree [].
Proof. exists []. split; reflexivity. Qed.

Lemma agree_char (bs rest : list Byte.byte) (n : N) :
  (forall h, utf8_decode h bs = cons n <$> utf8_decode h rest) ->
  agree rest -> agree bs.
Proof.
  intros Hd (marks & Hi & Hr). exists (Some n :: marks).
  rewrite !Hd, Hi, Hr. split; reflexivity.
Qed.

Lemma agree_error (bs rest : list Byte.byte) :
  (forall h, utf8_decode h bs = on_error h (utf8_decode h rest)) ->
  agree rest -> agree bs.
Proof.
  intros Hd (marks & Hi & Hr). exists (None :: marks).
  rewrite !Hd, Hi, Hr. split; reflexivity.
Qed.

Lemma agree_error_end (bs : list Byte.byte) :
  (forall h, utf8_decode h bs = on_error h (Ok [])) -> agree bs.
Proof.
  intros Hd. exists [None]. rewrite !Hd. split; reflexivity.
Qed.

(** One step of the decoder, whatever the error mode: it yields a code
    point or an error and goes on with a strictly shorter rest, or it ends
    with an error on a sequence cut short. *)
Lemma decode_step (b0 : Byte.byte) (r0 : list Byte.byte) :
  (exists n rest, (length rest < length (b0 :: r0))%nat
     /\ forall h, utf8_decode h (b0 :: r0) = cons n <$> utf8_decode h rest)
  \/ (exists rest, (length rest < length (b0 :: r0))%nat
      /\ forall h, utf8_decode h (b0 :: r0) = on_error h (utf8_decode h rest))
  \/ (forall h, utf8_decode h (b0 :: r0) = on_error h (Ok [])).
Proof.
  cbn [utf8_decode].
  repeat (match goal with
          | |- context [if ?c then _ else _] => destruct c
          | |- context [match ?l with [] => _ | _ :: _ => _ end] => destruct l
          end);
    first
      [ left; do 2 eexists; split; [|intros h; reflexivity]; cbn [length]; lia
      | right; left; eexists; split; [|intros h; reflexivity]; cbn [length]; lia
      | right; right; intros h; reflexivity ].
Qed.

Lemma agree_bounded (n : nat) : forall bs, (length bs <= n)%nat -> agree bs.
Proof.
  induction n as [|n IH]; intros bs Hlen.
  - destruct bs; [apply agree_nil | cbn in Hlen; lia].
  - destruct bs as [|b0 r0]; [apply agree_nil|].
    destruct (decode_step b0 r0)
      as [(c & rest & Hrest & Hd) | [(rest & Hrest & Hd) | Hd]].
    + apply (agree_char _ rest c Hd). apply IH. lia.
    + apply (agree_error _ rest Hd). apply IH. lia.
    + apply agree_error_end, Hd.
Qed.

(** Decoding with [errors="ignore"] and with [errors="replace"] meet the
    same code points and the same errors; the first drops each error, the
    second puts U+FFFD in its place. *)
Lemma ignore_drops_what_replace_marks (bs : list Byte.byte) : agree bs.
Proof. apply (agree_bounded (length bs)). lia. Qed.

(** Decoding with [errors="ignore"] never raises. *)
Lemma decode_ignore_total (bs : list Byte.byte) :
  utf8_decode Ignore bs = Ok (decode_ignore bs).
Proof.
  destruct (ignore_drops_what_replace_marks bs) as (marks & Hi & _).
  unfold decode_ignore. rewrite Hi. reflexivity.
Qed.

End Utf8Facts.

Module FetcherTheorems.
Import Fetcher Utf8 Utf8Facts.

Lemma slice_to_prefix (cap : Z) (body : list Byte.byte) :
  0 <= cap -> slice_to cap body = firstn (Z.to_nat cap) body.
Proof.
  intros Hcap. unfold slice_to.
  destruct (Z.ltb_spec cap 0); [lia | reflexivity].
Qed.

Section WithWorld.
Context {P : Type} `{Environment}.

Lemma get_request_unfold (url : string) (timeout max_bytes : Z) (w : world P) :
  get_request url timeout max_bytes w
  = (let '(r, e') := send GET url (w_env w) in
     let w' := {| w_env := e'; w_cache_file := w_cache_file w |} in
     match r with
     | Ok resp =>
         (Ok {| status_code := Some (resp_status_code resp);
                final_url := resp_url resp;
                redirects := resp_history resp;
                headers := resp_headers resp;
                content :=
                  if Z.of_nat (length (resp_content resp)) >? max_bytes
                  then Some (decode_ignore (slice_to max_bytes (resp_content resp)))
                  else Some (resp_text resp);
                filesize := length (resp_content resp);
                error := None |}, w')
     | Raise e =>
         (Ok {| status_code := None; final_url := url; redirects := [];
                headers := ∅; content := None; filesize := 0;
                error := Some (get_error_text e) |}, w')
     end).
Proof.
  unfold get_request, client_request, mbind, io_bind, mret, io_ret.
  destruct (send GET url (w_env w)) as [[resp|e] e']; reflexivity.
Qed.

(** C4, as the code has it.  For every GET response, the reported filesize
    is the byte length of the whole body.  When that length exceeds the cap,
    the content is the UTF-8 decoding, with [errors="ignore"], of the byte
    prefix up to the cap: the decoding cannot fail, and it yields what
    decoding with replacement yields once every replaced error is DROPPED
    (no U+FFFD is put in).  A body at or under the cap is handed on as the
    text the transport decoded, in full. *)
Theorem get_request_truncates_and_drops (url : string) (timeout cap : Z)
    (w : world P) (resp : Response) :
  (send GET url (w_env w)).1 = Ok resp ->
  let body := resp_content resp in
  exists g,
    (get_request url timeout cap w).1 = Ok g
    /\ filesize g = length body
    /\ (Z.of_nat (length body) > cap ->
        exists marks,
          content g = Some (ignored marks)
          /\ utf8_decode Ignore (slice_to cap body) = Ok (ignored marks)
          /\ utf8_decode Replace (slice_to cap body) = Ok (replaced marks)
          /\ (0 <= cap -> slice_to cap body = firstn (Z.to_nat cap) body))
    /\ (Z.of_nat (length body) <= cap -> content g = Some (resp_text resp)).
Proof.
  intros Hsend body. rewrite get_request_unfold.
  destruct (send GET url (w_env w)) as [r e']. cbn [fst] in Hsend. subst r.
  cbn [fst]. eexists. split; [reflexivity|]. cbn [filesize content].
  split; [reflexivity|]. fold body. split.
  - intros Hbig.
    destruct (Z.gtb_spec (Z.of_nat (length body)) cap) as [_ | Hle]; [|lia].
    destruct (ignore_drops_what_replace_marks (slice_to cap body))
      as (marks & Hi & Hr).
    exists marks. unfold decode_ignore. rewrite Hi.
    split; [reflexivity|]. split; [reflexivity|]. split; [exact Hr|].
    apply slice_to_prefix.
  - intros Hsmall.
    destruct (Z.gtb_spec (Z.of_nat (length body)) cap) as [Hgt | _]; [lia|].
    reflexivity.
Qed.

End WithWorld.

(** The reading of the specification: the retained prefix decoded with
    invalid byte sequences replaced. *)
Definition spec_truncated_content (cap : Z) (body : list Byte.byte)
  : pyresult (list N) :=
  utf8_decode Replace (slice_to cap body).

(** The four bytes [a], [0xFF], [b], [c]. *)
Definition body_with_bad_byte : list Byte.byte :=
  [Byte.x61; Byte.xff; Byte.x62; Byte.x63].

Definition bad_byte_world : world string :=
  Ref.fresh_world string 0
    [Ok (Ref.page "https://example.com" body_with_bad_byte [97; 65533; 98; 99]%N)].

Lemma get_request_truncates_and_drops_witness :
  exists g,
    (get_request "https://example.com" FETCH_TIMEOUT 3 bad_byte_world).1 = Ok g
    /\ filesize g = 4%nat
    /\ content g = Some [97; 98]%N.
Proof.
  destruct (get_request_truncates_and_drops "https://example.com" FETCH_TIMEOUT 3
              bad_byte_world
              (Ref.page "https://example.com" body_with_bad_byte
                 [97; 65533; 98; 99]%N) eq_refl)
    as (g & Hg & Hsize & Hbig & _).
  exists g. split; [exact Hg|]. split; [exact Hsize|].
  destruct Hbig as (marks & Hc & Hi & _); [vm_compute; reflexivity|].
  rewrite Hc. f_equal.
  assert (E : Ok (ignored marks) = Ok [97; 98]%N)
    by (rewrite <- Hi; vm_compute; reflexivity).
  injection E as E. exact E.
Defined.

(** C4, as stated, fails: with the cap at three bytes the body above is
    over the cap, the invalid byte 0xFF lies in the retained prefix, and
    the content comes out without it; decoding with replacement would have
    put U+FFFD there. *)
Lemma truncated_content_not_replaced :
  exists g,
    (get_request "https://example.com" FETCH_TIMEOUT 3 bad_byte_world).1 = Ok g
    /\ filesize g = 4%nat
    /\ content g = Some [97; 98]%N
    /\ spec_truncated_content 3 body_with_bad_byte = Ok [97; 65533; 98]%N
    /\ Ok <$> content g <> Some (spec_truncated_content 3 body_with_bad_byte).
Proof.
  eexists. split; [vm_compute; reflexivity|].
  cbn [filesize content]. split; [reflexivity|]. split; [reflexivity|].
  split; [vm_compute; reflexivity|].
  vm_compute. discriminate.
Qed.

(** The same at every cap, the default of 1,000,000 bytes included: a body
    of [cap - 1] letters, the byte 0xFF and one more letter is one byte over
    the cap; its content comes out as the letters alone, one code point
    short of the decoding with replacement. *)
Definition padded_body (k : nat) : list Byte.byte :=
  (repeat Byte.x61 k ++ [Byte.xff; Byte.x62])%list.

Lemma decode_letters (h : errors) (k : nat) (rest : list Byte.byte) :
  utf8_decode h (repeat Byte.x61 k ++ rest)%list
  = app (repeat 97%N k) <$> utf8_decode h rest.
Proof.
  induction k as [|k IH]; cbn [repeat app].
  - destruct (utf8_decode h rest); reflexivity.
  - change (utf8_decode h (Byte.x61 :: repeat Byte.x61 k ++ rest))
      with (cons 97%N <$> utf8_decode h (repeat Byte.x61 k ++ rest)).
    rewrite IH. destruct (utf8_decode h rest); reflexivity.
Qed.

Lemma padded_prefix (k : nat) :
  slice_to (Z.of_nat (S k)) (padded_body k) = (repeat Byte.x61 k ++ [Byte.xff])%list.
Proof.
  rewrite slice_to_prefix by lia. rewrite Nat2Z.id. unfold padded_body.
  rewrite firstn_app, repeat_length.
  rewrite firstn_all2 by (rewrite repeat_length; lia).
  replace (S k - k)%nat with 1%nat by lia. reflexivity.
Qed.

Lemma drops_at_every_cap (k : nat) (text : list N) :
  let cap := Z.of_nat (S k) in
  let w := Ref.fresh_world string 0
             [Ok (Ref.page "https://example.com" (padded_body k) text)] in
  exists g,
    (get_request "https://example.com" FETCH_TIMEOUT cap w).1 = Ok g
    /\ filesize g = S (S k)
    /\ content g = Some (repeat 97%N k)
    /\ spec_truncated_content cap (padded_body k)
       = Ok (repeat 97%N k ++ [65533%N])%list.
Proof.
  cbv zeta. rewrite get_request_unfold.
  cbn [send Ref.scripted Ref.script_send Ref.replies Ref.fresh_world w_env fst].
  eexists. split; [reflexivity|]. cbn [filesize content Ref.page resp_content].
  assert (Hlen : length (padded_body k) = S (S k)).
  { unfold padded_body. rewrite length_app, repeat_length. cbn [length]. lia. }
  rewrite Hlen. split; [reflexivity|].
  destruct (Z.gtb_spec (Z.of_nat (S (S k))) (Z.of_nat (S k))) as [_ | Hle]; [|lia].
  unfold spec_truncated_content. rewrite padded_prefix. split.
  - f_equal.
    pose proof (decode_ignore_total (repeat Byte.x61 k ++ [Byte.xff])%list) as E.
    rewrite decode_letters in E.
    change (utf8_decode Ignore [Byte.xff]) with (Ok (@nil N)) in E.
    cbn [fmap pyresult_fmap] in E. rewrite app_nil_r in E.
    injection E as E. symmetry. exact E.
  - rewrite decode_letters. reflexivity.
Qed.

End FetcherTheorems.

(** ** The scan pipeline and the cache *)

Module MainTheorems.
Import Fetcher HtmlParser RiskEngine Main.

Section WithWorld.
Context {P : Type} `{Environment} `{UrlLib} `{HtmlLib}.

Definition with_file (file : option (cache_file P)) (w : world P)
  : world P :=
  {| w_env := w_env w; w_cache_file := file |}.

(** A computation that neither reads nor writes the cache file: run with
    any other file in place, it gives the same result, makes the same
    changes to the environment, and leaves that file as it found it. *)
Definition cache_blind {A : Type} (m : io (world P) A) : Prop :=
  forall file w, m (with_file file w) = ((m w).1, with_file file (m w).2).

Lemma with_file_same (w : world P) : with_file (w_cache_file w) w = w.
Proof. destruct w. reflexivity. Qed.

Lemma cache_blind_keeps_file {A : Type} (m : io (world P) A) (w : world P) :
  cache_blind m -> w_cache_file (m w).2 = w_cache_file w.
Proof.
  intros Hm. specialize (Hm (w_cache_file w) w). rewrite with_file_same in Hm.
  rewrite Hm at 1. reflexivity.
Qed.

Lemma blind_ret {A : Type} (a : A) : cache_blind (mret a).
Proof. intros file w. reflexivity. Qed.

Lemma blind_lift {A : Type} (r : pyresult A) : cache_blind (lift r).
Proof. intros file w. reflexivity. Qed.

Lemma blind_time : cache_blind (time_time (P := P)).
Proof. intros file w. reflexivity. Qed.

Lemma blind_request (m : http_method) (url : string) :
  cache_blind (client_request (P := P) m url).
Proof.
  intros file w. unfold client_request. cbn [with_file w_env w_cache_file].
  destruct (send m url (w_env w)). reflexivity.
Qed.

Lemma blind_bind {A B : Type} (m : io (world P) A) (k : A -> io (world P) B) :
  cache_blind m -> (forall a, cache_blind (k a)) -> cache_blind (m ≫= k).
Proof.
  intros Hm Hk file w. unfold mbind, io_bind. rewrite Hm.
  destruct (m w) as [[a|e] w']; cbn [fst snd]; [apply Hk | reflexivity].
Qed.

Lemma blind_if {A : Type} (c : bool) (m1 m2 : io (world P) A) :
  cache_blind m1 -> cache_blind m2 -> cache_blind (if c then m1 else m2).
Proof. destruct c; auto. Qed.

Ltac blind_step :=
  first
    [ apply blind_bind; [|intros ?]
    | apply blind_if
    | apply blind_ret | apply blind_lift | apply blind_time | apply blind_request
    | match goal with
      | |- cache_blind (match ?x with _ => _ end) => destruct x
      end ].

Lemma blind_head_request (url : string) (timeout : Z) :
  cache_blind (head_request (P := P) url timeout).
Proof. unfold head_request. repeat blind_step. Qed.

Lemma blind_get_request (url : string) (timeout max_bytes : Z) :
  cache_blind (get_request (P := P) url timeout max_bytes).
Proof. unfold get_request. repeat blind_step. Qed.

Lemma blind_fetch_url_data (url : string) (do_head : bool) :
  cache_blind (fetch_url_data (P := P) url do_head).
Proof.
  unfold fetch_url_data.
  repeat first [apply blind_head_request | apply blind_get_request | blind_step].
Qed.

Lemma blind_scan (url : string) : cache_blind (scan (P := P) url).
Proof.
  unfold scan. repeat first [apply blind_fetch_url_data | blind_step].
Qed.

(** A computation that leaves the world as it is. *)
Definition silent {A : Type} (m : io (world P) A) : Prop :=
  forall w, (m w).2 = w.

Lemma silent_ret {A : Type} (a : A) : silent (mret a).
Proof. intros w. reflexivity. Qed.

Lemma silent_lift {A : Type} (r : pyresult A) : silent (lift r).
Proof. intros w. reflexivity. Qed.

Lemma silent_bind {A B : Type} (m : io (world P) A) (k : A -> io (world P) B) :
  silent m -> (forall a, silent (k a)) -> silent (m ≫= k).
Proof.
  intros Hm Hk w. unfold mbind, io_bind. specialize (Hm w).
  destruct (m w) as [[a|e] w']; cbn [snd] in Hm |- *; subst w';
    [apply Hk | reflexivity].
Qed.

Lemma silent_if {A : Type} (c : bool) (m1 m2 : io (world P) A) :
  silent m1 -> silent m2 -> silent (if c then m1 else m2).
Proof. destruct c; auto. Qed.

Lemma bind_then_silent {A B : Type} (m : io (world P) A) (k : A -> io (world P) B)
    (w : world P) :
  (forall a, silent (k a)) -> ((m ≫= k) w).2 = (m w).2.
Proof.
  intros Hk. unfold mbind, io_bind.
  destruct (m w) as [[a|e] w']; cbn [snd]; [apply Hk | reflexivity].
Qed.

(** The world after [fetch_url_data] on a URL with scheme http or https:
    one HEAD and one GET have gone out, in this order. *)
Lemma fetch_sends_head_and_get (u : string) (w : world P) (parsed : ParseResult) :
  urlparse u = Ok parsed ->
  scheme parsed = "http" \/ scheme parsed = "https" ->
  (fetch_url_data u true w).2
  = {| w_env := (send GET u (send HEAD u (w_env w)).2).2;
       w_cache_file := w_cache_file w |}.
Proof.
  intros Hp Hs.
  unfold fetch_url_data, head_request, get_request, client_request, time_time,
    lift, mbind, io_bind, mret, io_ret.
  rewrite Hp.
  assert (Hc : negb ((scheme parsed =? "http")%string
                     || (scheme parsed =? "https")%string
                     || (scheme parsed =? "")%string) = false)
    by (destruct Hs as [-> | ->]; reflexivity).
  rewrite Hc. cbn [w_env w_cache_file].
  destruct (send HEAD u (w_env w)) as [[r1|e1] env1]; cbn [snd w_env w_cache_file];
    destruct (send GET u env1) as [[r2|e2] env2]; reflexivity.
Qed.

(** On a URL the validator accepts, [scan] sends a HEAD and a GET for the
    normalized URL, whatever is in the cache file. *)
Lemma scan_fetches (url u : string) (w : world P) :
  UrlUtils.validate_and_normalize url = Ok (true, u) ->
  (scan url w).2
  = {| w_env := (send GET u (send HEAD u (w_env w)).2).2;
       w_cache_file := w_cache_file w |}.
Proof.
  intros Hv.
  destruct (UrlFacts.validate_accepts url u Hv) as (_ & _ & parsed & Hp & Hs).
  unfold scan. rewrite Hv.
  unfold mbind at 1. unfold io_bind at 1. unfold lift at 1.
  cbv beta iota. cbn [negb].
  rewrite bind_then_silent.
  - apply (fetch_sends_head_and_get u w parsed Hp Hs).
  - intros fd.
    repeat first
      [ apply silent_bind; [|intros ?]
      | apply silent_if | apply silent_ret | apply silent_lift ].
Qed.

(** [scan] makes no cache lookup and no cache store: run with any other
    cache file in place it returns the same response and changes the
    environment in the same way, it leaves the file as it found it, and for
    every URL the validator accepts it sends its own HEAD and GET, on every
    call. *)
Lemma scan_runs_without_cache (url : string) (w : world P) :
  (forall file, scan url (with_file file w)
                = ((scan url w).1, with_file file (scan url w).2))
  /\ w_cache_file (scan url w).2 = w_cache_file w
  /\ (forall u, UrlUtils.validate_and_normalize url = Ok (true, u) ->
       w_env (scan url w).2 = (send GET u (send HEAD u (w_env w)).2).2).
Proof.
  split; [|split].
  - intros file. apply blind_scan.
  - apply cache_blind_keeps_file, blind_scan.
  - intros u Hv. rewrite (scan_fetches url u w Hv). reflexivity.
Qed.

End WithWorld.

(** A run against the scripted network: the page reads "Please login" at
    the first scan and "Hello" at the second. *)
Definition site : string := "https://example.com".

Definition script : list (pyresult Response) :=
  [ Ok (Ref.text_page site ""); Ok (Ref.text_page site "Please login");
    Ok (Ref.text_page site ""); Ok (Ref.text_page site "Hello") ].

Definition w0 : world scan_response := Ref.fresh_world scan_response 1000 script.

Definition first_scan : pyresult scan_response * world scan_response :=
  scan "example.com" w0.

Definition second_scan : pyresult scan_response * world scan_response :=
  scan "example.com" first_scan.2.

Definition summary_of (verdict : verdict) (score : Z) (size : nat)
    (explanations : list string) : scan_response :=
  ScanOk {| s_url := site; s_verdict := verdict; s_score := score;
            s_title := None; s_final_url := site; s_filesize := size;
            s_explanations := explanations |}.

(** C2. [scan] never consults the cache, although the cache functions are
    there (in [cache.py], and again in [main.py] itself below the
    endpoints): nothing calls them.  After a first scan nothing has been
    stored: the cache file still does not exist and a lookup of the URL
    finds nothing.  The second scan of the same URL, four seconds later and
    far inside the TTL, sends HEAD and GET again and returns what it scored
    from the new page, not the first result.  And a result that [cache_set]
    has stored for the URL beforehand is not returned either: the scan
    fetches and scores all the same. *)
Theorem scan_never_uses_cache :
  first_scan.1 = Ok (summary_of SAFE 3 12 ["Suspicious keywords found: 1"])
  /\ w_cache_file first_scan.2 = None
  /\ (Cache.cache_get (P := scan_response) "example.com" first_scan.2).1 = Ok None
  /\ (Cache.cache_get (P := scan_response) site first_scan.2).1 = Ok None
  /\ now (w_env second_scan.2) - now (w_env w0) = 4
  /\ Ref.sent (w_env second_scan.2)
     = [(HEAD, site); (GET, site); (HEAD, site); (GET, site)]
  /\ second_scan.1 = Ok (summary_of SAFE 0 5 [])
  /\ second_scan.1 <> first_scan.1
  /\ (Cache.cache_get site
        (Cache.cache_set site (summary_of DANGEROUS 80 10 []) w0).2).1
     = Ok (Some (summary_of DANGEROUS 80 10 []))
  /\ (scan "example.com"
        (Cache.cache_set site (summary_of DANGEROUS 80 10 []) w0).2).1
     = first_scan.1.
Proof.
  repeat split; try (vm_compute; reflexivity).
  vm_compute. discriminate.
Qed.

End MainTheorems.

(** ** Worked examples *)

Module Examples.
Import UrlUtils UrlRef Utf8 Fetcher HtmlParser RiskEngine RiskTheorems.

Example normalize_bare : normalize_url "  example.com " = "https://example.com".
Proof. reflexivity. Qed.

Example validate_bare :
  validate_and_normalize "example.com" = Ok (true, "https://example.com").
Proof. vm_compute. reflexivity. Qed.

Example validate_path :
  validate_and_normalize "http://203.0.113.5.nip.io:8080/login?x=1"
  = Ok (true, "http://203.0.113.5.nip.io:8080/login?x=1").
Proof. vm_compute. reflexivity. Qed.

Example validate_no_tld :
  validate_and_normalize "localhost" = Ok (false, "Invalid URL format").
Proof. vm_compute. reflexivity. Qed.

Example validate_host_named_javascript :
  validate_and_normalize "javascript.com:80/x"
  = Ok (true, "https://javascript.com:80/x").
Proof. vm_compute. reflexivity. Qed.

Example parse_example :
  urlparse "HTTP://User@Sub.Example.COM:80/a?b#c"
  = Ok {| scheme := "http"; hostname := Some "sub.example.com" |}.
Proof. vm_compute. reflexivity. Qed.

Example extract_example :
  extract_domain "https://sub.example.com/x" = "example.com".
Proof. vm_compute. reflexivity. Qed.

Example decode_ascii :
  utf8_decode Strict [Byte.x68; Byte.x69] = Ok [104; 105]%N.
Proof. reflexivity. Qed.

Example decode_e_acute : utf8_decode Strict [Byte.xc3; Byte.xa9] = Ok [233%N].
Proof. reflexivity. Qed.

Example decode_euro :
  utf8_decode Strict [Byte.xe2; Byte.x82; Byte.xac] = Ok [8364%N].
Proof. reflexivity. Qed.

Example decode_bad_strict :
  utf8_decode Strict [Byte.x61; Byte.xff; Byte.x62] = Raise ValueError.
Proof. reflexivity. Qed.

Example decode_bad_ignore :
  utf8_decode Ignore [Byte.x61; Byte.xff; Byte.x62] = Ok [97; 98]%N.
Proof. reflexivity. Qed.

Example decode_bad_replace :
  utf8_decode Replace [Byte.x61; Byte.xff; Byte.x62] = Ok [97; 65533; 98]%N.
Proof. reflexivity. Qed.

(** A character cut in two by the cap is dropped as well. *)
Example decode_cut_ignore :
  utf8_decode Ignore (slice_to 4 [Byte.x61; Byte.x62; Byte.xe2; Byte.x82; Byte.xac])
  = Ok [97; 98]%N.
Proof. reflexivity. Qed.

Example ratio_two_of_three :
  external_script_ratio
    ["https://cdn.example.net/a.js"; "/local.js"; "https://ads.example.org/b.js"]
    "example.com"
  = PyNum.truediv 2 3.
Proof. vm_compute. reflexivity. Qed.

Example ratio_format :
  PyNum.fmt_2f <$> PyNum.truediv 2 3 = Ok "0.67"
  /\ PyNum.fmt_2f <$> PyNum.truediv 5 8 = Ok "0.62".
Proof. split; vm_compute; reflexivity. Qed.

(** Three of five is not above the threshold. *)
Example ratio_three_of_five :
  PrimFloat.ltb RATIO_THRESHOLD <$> PyNum.truediv 3 5 = Ok false.
Proof. vm_compute. reflexivity. Qed.

(** The login page served from a bare IP address over http, 150 bytes, one
    form: 15 + 6 + 4 + 8 = 33, SUSPICIOUS. *)
Example ip_login_page :
  exists r,
    compute_heuristic_score
      (fetched "http://203.0.113.5/login" [] [] 150) (page_with_form true)
      "http://203.0.113.5/login" None None = Ok r
    /\ r_score r = 33
    /\ r_verdict r = SUSPICIOUS
    /\ r_explanations r
       = [ "URL uses numeric IP address (suspicious)";
           "Found 1 form(s) (could request credentials)";
           "Using HTTP (not HTTPS)";
           "Very small page with forms (phishing-like)" ].
Proof.
  eexists. split; [vm_compute; reflexivity|]. repeat split; reflexivity.
Qed.

(** Five redirects to a .xyz host, no forms: 12 + 8 = 20, SAFE. *)
Example long_chain_to_xyz :
  exists r,
    compute_heuristic_score
      (fetched "https://promo.xyz/" []
         ["http://a.example/"; "http://b.example/"; "http://c.example/";
          "http://d.example/"; "http://e.example/"] 5000)
      Main.empty_extracted "https://promo.xyz/" None None = Ok r
    /\ r_score r = 20
    /\ r_verdict r = SAFE
    /\ r_explanations r
       = ["Redirect chain length 5 (suspicious)"; "Suspicious TLD (xyz)"].
Proof.
  eexists. split; [vm_compute; reflexivity|]. repeat split; reflexivity.
Qed.

(** Reputation signals are capped one by one and then together. *)
Example reputation_cap :
  combine_vt_gsb_score
    (Some {| malicious_count := 7; malicious := 0;
             suspicious_count := 9; suspicious := 0 |})
    (Some {| matches := true; threats := false |}) = 100.
Proof. reflexivity. Qed.

(** A fetch dict built with [do_head=False] holds [None] under "head"; the
    function then raises. *)
Example head_none_raises :
  compute_heuristic_score
    {| f_url := "https://example.com"; f_normalized_url := "https://example.com";
       f_error := None; f_head := IsNone;
       f_get := f_get (fetched "https://example.com" [] [] 5000);
       f_duration := 1 |}
    Main.empty_extracted "https://example.com" None None
  = Raise AttributeError.
Proof. vm_compute. reflexivity. Qed.

End Examples.

(** * Further properties of the code *)

(** ** URL normalization and validation *)

Module UrlCoverage.
Import PyStr PyStrFacts UrlUtils UrlFacts.

(** X1. [normalize_url] yields a canonical text: it starts with an explicit
    [http://] or [https://], it has no white space at either end, it only
    depends on the input with its surrounding white space removed, and
    normalizing it again changes nothing. *)
Theorem normalize_url_canonical (s : string) :
  (startswith (normalize_url s) "http://" = true
   \/ startswith (normalize_url s) "https://" = true)
  /\ strip (normalize_url s) = normalize_url s
  /\ normalize_url (strip s) = normalize_url s
  /\ normalize_url (normalize_url s) = normalize_url s.
Proof.
  split; [apply normalize_url_prefix|]. split; [|split].
  - unfold normalize_url.
    destruct (negb (startswith (strip s) "http://" || startswith (strip s) "https://")).
    + apply strip_fixed_https. unfold strip. apply rstrip_idem.
    + apply strip_idem.
  - unfold normalize_url. rewrite strip_idem. reflexivity.
  - apply normalize_url_idem.
Qed.

Lemma nonempty_with_dot (a b : string) : nonempty (a ++ "." ++ b) = true.
Proof. destruct a; reflexivity. Qed.

(** X2. The domain check of [validate_and_normalize] can never fail: the
    text it tests is the domain, a dot and the suffix glued together, which
    is never empty, so no input is answered "Could not extract domain",
    whatever tldextract returns. *)
Theorem domain_check_never_fails `{UrlLib} (raw : string) :
  nonempty (extract_domain (normalize_url raw)) = true
  /\ validate_and_normalize raw <> Ok (false, "Could not extract domain").
Proof.
  assert (Hd : nonempty (extract_domain (normalize_url raw)) = true)
    by apply nonempty_with_dot.
  split; [exact Hd|].
  rewrite validate_unfold. cbv zeta. rewrite Hd.
  destruct (negb (is_valid_url (normalize_url raw))); [discriminate|].
  destruct (urlparse (normalize_url raw)) as [parsed|e];
    cbn [mbind pyresult_bind bind negb]; [|discriminate].
  destruct (negb _); discriminate.
Qed.

(** A URL library reads the scheme off the prefix when a URL that starts
    with [http://] (or [https://]), if it parses at all, parses with scheme
    [http] (or [https]). *)
Definition reads_scheme_off_prefix `{UrlLib} : Prop :=
  forall r parsed,
    (urlparse ("http://" ++ r) = Ok parsed -> scheme parsed = "http")
    /\ (urlparse ("https://" ++ r) = Ok parsed -> scheme parsed = "https").

(** X3. With any URL library that reads the scheme off the prefix, the
    scheme guard of [validate_and_normalize] is dead code, and so is the
    domain check: the function either raises (the URL library raised),
    accepts and returns the normalized URL, or answers
    "Invalid URL format".  No input at all is answered
    "URL uses unsafe scheme", because [normalize_url] has put an http or
    https prefix on every URL before the guard looks at it. *)
Theorem scheme_guard_never_fires `{UrlLib} (raw : string) :
  reads_scheme_off_prefix ->
  (exists e, validate_and_normalize raw = Raise e)
  \/ validate_and_normalize raw = Ok (true, normalize_url raw)
  \/ validate_and_normalize raw = Ok (false, "Invalid URL format").
Proof.
  intros Hlib. rewrite validate_unfold. cbv zeta.
  replace (nonempty (extract_domain (normalize_url raw))) with true
    by (symmetry; apply nonempty_with_dot).
  destruct (negb (is_valid_url (normalize_url raw))); [auto|].
  destruct (urlparse (normalize_url raw)) as [parsed|e] eqn:Ep;
    cbn [mbind pyresult_bind bind]; [|left; exists e; reflexivity].
  assert (Hs : scheme parsed = "http" \/ scheme parsed = "https").
  { destruct (normalize_url_prefix raw) as [Hp | Hp];
      apply startswith_app in Hp as [r Hr]; rewrite Hr in Ep;
      destruct (Hlib r parsed) as [H1 H2]; auto. }
  right. left. destruct Hs as [-> | ->]; reflexivity.
Qed.

Lemma url_ref_reads_scheme : reads_scheme_off_prefix (H := UrlRef.url_ref).
Proof.
  intros r parsed. split; intros Hp.
  - pose proof (UrlTheorems.urlsplit_ref_http r) as Hs.
    cbn [urlparse UrlRef.url_ref] in Hp. rewrite Hp in Hs. exact Hs.
  - pose proof (UrlTheorems.urlsplit_ref_https r) as Hs.
    cbn [urlparse UrlRef.url_ref] in Hp. rewrite Hp in Hs. exact Hs.
Qed.

Lemma scheme_guard_never_fires_witness :
  (exists e, validate_and_normalize "ftp://example.com/file" = Raise e)
  \/ validate_and_normalize "ftp://example.com/file"
     = Ok (true, normalize_url "ftp://example.com/file")
  \/ validate_and_normalize "ftp://example.com/file"
     = Ok (false, "Invalid URL format").
Proof.
  apply (scheme_guard_never_fires (H := UrlRef.url_ref)).
  exact url_ref_reads_scheme.
Defined.

(** The groups of [URL_REGEX] after the domain group, and what is left of
    the pattern once the scheme group is behind ([after_scheme]) and once
    at least one character of the domain has been read ([in_domain]). *)
Definition tld_tail : Regex.re := Regex.Cat Regex.letter (Regex.plus Regex.letter).

Definition port_path : Regex.re :=
  let up := URL_REGEX in
  match up with
  | Regex.Cat _ (Regex.Cat _ (Regex.Cat _ r)) => r
  | _ => Regex.Void
  end.

Definition after_domain : Regex.re :=
  Regex.Cat (Regex.Cat (Regex.chr ".") tld_tail) port_path.

Definition after_scheme : Regex.re :=
  Regex.Cat (Regex.plus (Regex.Cls domain_char)) after_domain.

Definition in_domain : Regex.re :=
  Regex.Cat (Regex.Star (Regex.Cls domain_char)) after_domain.

Lemma after_scheme_https : RegexFacts.derivs "https://" URL_REGEX = after_scheme.
Proof. reflexivity. Qed.

Lemma step_without_dot (D : ascii -> bool) (t r : Regex.re) (c : ascii) :
  Ascii.eqb "." c = false ->
  let rest := Regex.Cat (Regex.Cat (Regex.chr ".") t) r in
  Regex.deriv c (Regex.Cat (Regex.plus (Regex.Cls D)) rest)
    = (if D c then Regex.Cat (Regex.Star (Regex.Cls D)) rest else Regex.Void)
  /\ Regex.deriv c (Regex.Cat (Regex.Star (Regex.Cls D)) rest)
    = (if D c then Regex.Cat (Regex.Star (Regex.Cls D)) rest else Regex.Void).
Proof.
  intros Hdot rest. subst rest.
  cbn [Regex.deriv Regex.nullable Regex.plus Regex.chr andb].
  rewrite Hdot. destruct (D c); split; reflexivity.
Qed.

Lemma fullmatch_dotless (w x : string) (start : Regex.re) :
  start = after_scheme \/ start = in_domain \/ start = Regex.Void ->
  all_chars (fun c => negb (Ascii.eqb "." c)) w = true ->
  Regex.fullmatch start (w ++ ":" ++ x) = false.
Proof.
  revert start. induction w as [|c w IH]; intros start Hstart Hw.
  - destruct Hstart as [-> | [-> | ->]]; cbn;
      apply RegexFacts.fullmatch_Void.
  - cbn [all_chars] in Hw. apply andb_prop in Hw as [Hc Hw].
    apply negb_true_iff in Hc.
    rewrite append_cons. cbn [Regex.fullmatch]. apply IH; [|exact Hw].
    destruct (step_without_dot domain_char tld_tail port_path c Hc) as [H1 H2].
    cbv zeta in H1, H2. fold after_domain in H1, H2.
    fold after_scheme in H1. fold in_domain in H1, H2.
    destruct Hstart as [-> | [-> | ->]].
    + rewrite H1. destruct (domain_char c); auto.
    + rewrite H2. destruct (domain_char c); auto.
    + right. right. reflexivity.
Qed.

Definition no_colon (c : ascii) : bool := negb (Ascii.eqb ":" c).

Lemma same_word_before_colon (a p x q : string) :
  all_chars no_colon a = true ->
  all_chars no_colon p = true ->
  startswith (a ++ ":" ++ x) (p ++ ":" ++ q) = true ->
  a = p.
Proof.
  revert p. induction a as [|c a IH]; intros p Ha Hp Hs.
  - destruct p as [|d p]; [reflexivity|].
    cbn [all_chars] in Hp. apply andb_prop in Hp as [Hd _].
    rewrite !append_cons in Hs.
    change ("" ++ ":" ++ x) with (String ":" x) in Hs.
    cbn [startswith] in Hs. apply andb_prop in Hs as [Hs _].
    apply Ascii.eqb_eq in Hs. subst d. discriminate Hd.
  - cbn [all_chars] in Ha. apply andb_prop in Ha as [Hc Ha].
    destruct p as [|d p].
    + rewrite append_cons in Hs.
      change ("" ++ ":" ++ q) with (String ":" q) in Hs.
      cbn [startswith] in Hs. apply andb_prop in Hs as [Hs _].
      apply Ascii.eqb_eq in Hs. subst c. discriminate Hc.
    + cbn [all_chars] in Hp. apply andb_prop in Hp as [_ Hp].
      rewrite !append_cons in Hs. cbn [startswith] in Hs.
      apply andb_prop in Hs as [Hcd Hs]. apply Ascii.eqb_eq in Hcd. subst d.
      f_equal. apply (IH p Ha Hp Hs).
Qed.

(** A word that can stand before the colon of a scheme-like input: not
    empty, free of white space, dots and colons. *)
Definition scheme_like (word : string) : bool :=
  (nonempty word
   && all_chars (fun c => not_space c && negb (Ascii.eqb "." c) && no_colon c) word)%bool.

Lemma scheme_like_parts (word : string) :
  scheme_like word = true ->
  word <> ""
  /\ all_chars not_space word = true
  /\ all_chars (fun c => negb (Ascii.eqb "." c)) word = true
  /\ all_chars no_colon word = true.
Proof.
  unfold scheme_like. intros H. apply andb_prop in H as [Hne Hall].
  split; [destruct word; [discriminate | discriminate]|].
  induction word as [|c w IH]; [repeat split|].
  cbn [all_chars] in Hall |- *. apply andb_prop in Hall as [Hc Hall].
  apply andb_prop in Hc as [Hc H3]. apply andb_prop in Hc as [H1 H2].
  destruct w as [|c' w'].
  - rewrite H1, H2, H3. repeat split.
  - destruct (IH eq_refl Hall) as (I1 & I2 & I3).
    rewrite H1, H2, H3, I1, I2, I3. repeat split.
Qed.

(** X4. Every scheme-like input other than http and https is turned down as
    badly formed: for a word before the first colon that has no dot (as in
    javascript:, data:, file:, ftp:, mailto:), [normalize_url] puts
    [https://] in front and [URL_REGEX] cannot match, whatever follows the
    colon and whatever the URL library.  The answer is always
    "Invalid URL format". *)
Theorem scheme_like_input_is_invalid_format `{UrlLib} (word rest : string) :
  scheme_like word = true ->
  word <> "http" ->
  word <> "https" ->
  validate_and_normalize (word ++ ":" ++ rest) = Ok (false, "Invalid URL format").
Proof.
  intros Hw Hhttp Hhttps.
  destruct (scheme_like_parts word Hw) as (Hne & Hsp & Hdot & Hcol).
  rewrite validate_unfold. cbv zeta.
  assert (Hstrip : strip (word ++ ":" ++ rest) = word ++ ":" ++ rstrip rest).
  { destruct word as [|c w]; [congruence|].
    rewrite strip_nonspace_prefix by exact Hsp.
    change (":" ++ rest) with (String ":" rest).
    rewrite rstrip_cons by reflexivity. reflexivity. }
  assert (Hn : normalize_url (word ++ ":" ++ rest)
               = "https://" ++ (word ++ ":" ++ rstrip rest)).
  { unfold normalize_url. rewrite Hstrip.
    destruct (startswith (word ++ ":" ++ rstrip rest) "http://") eqn:E1.
    { exfalso. apply Hhttp.
      apply (same_word_before_colon word "http" (rstrip rest) "//" Hcol eq_refl E1). }
    destruct (startswith (word ++ ":" ++ rstrip rest) "https://") eqn:E2.
    { exfalso. apply Hhttps.
      apply (same_word_before_colon word "https" (rstrip rest) "//" Hcol eq_refl E2). }
    reflexivity. }
  rewrite Hn. unfold is_valid_url, Regex.re_match.
  rewrite RegexFacts.fullmatch_app, after_scheme_https.
  rewrite fullmatch_dotless by (auto; exact Hdot). reflexivity.
Qed.

Lemma scheme_like_input_is_invalid_format_witness :
  validate_and_normalize (H := UrlRef.url_ref) ("mailto" ++ ":" ++ "admin@example.com")
  = Ok (false, "Invalid URL format").
Proof.
  apply (scheme_like_input_is_invalid_format (H := UrlRef.url_ref));
    [reflexivity | discriminate | discriminate].
Defined.

(** The pattern left once the domain group has just read a dot: the domain
    may go on, or the dot opens the TLD. *)
Definition after_dot : Regex.re :=
  Regex.Alt in_domain (Regex.Cat tld_tail port_path).

Lemma after_scheme_http : RegexFacts.derivs "http://" URL_REGEX = after_scheme.
Proof. reflexivity. Qed.

Lemma step_without_letter (D : ascii -> bool) (r1 r2 : Regex.re) (c : ascii) :
  is_alpha c = false ->
  let port := Regex.Cat r1 r2 in
  let tl := Regex.Cat Regex.letter (Regex.plus Regex.letter) in
  let rest := Regex.Cat (Regex.Cat (Regex.chr ".") tl) port in
  let dom := Regex.Cat (Regex.Star (Regex.Cls D)) rest in
  let next := match D c, Ascii.eqb "." c with
              | true, true => Regex.Alt dom (Regex.Cat tl port)
              | true, false => dom
              | false, true => Regex.Cat tl port
              | false, false => Regex.Void
              end in
  Regex.deriv c (Regex.Cat (Regex.plus (Regex.Cls D)) rest)
    = (if D c then dom else Regex.Void)
  /\ Regex.deriv c dom = next
  /\ Regex.deriv c (Regex.Alt dom (Regex.Cat tl port)) = next.
Proof.
  intros Hc port tl rest dom next. subst next dom rest tl port.
  cbn [Regex.deriv Regex.nullable Regex.plus Regex.chr Regex.letter andb orb].
  rewrite Hc. destruct (D c), (Ascii.eqb "." c); repeat split; reflexivity.
Qed.

(** A host without letters: digits, dots and hyphens only, as every IPv4
    literal is. *)
Definition letterless (host : string) : bool :=
  all_chars (fun c => domain_char c && negb (is_alpha c))%bool host.

(** What follows the host: nothing, or a character that cannot belong to
    the domain group (a slash, a colon, a question mark, ...). *)
Definition ends_host (rest : string) : bool :=
  match rest with
  | EmptyString => true
  | String c _ => negb (domain_char c)
  end.

Lemma dot_is_domain_char (c : ascii) :
  Ascii.eqb "." c = true -> domain_char c = true.
Proof. intros Hc. apply Ascii.eqb_eq in Hc. subst c. reflexivity. Qed.

Lemma step_in_host (c : ascii) (start : Regex.re) :
  is_alpha c = false ->
  start = after_scheme \/ start = in_domain \/ start = after_dot
  \/ start = Regex.Void ->
  (domain_char c = true ->
   Regex.deriv c start = in_domain \/ Regex.deriv c start = after_dot
   \/ Regex.deriv c start = Regex.Void)
  /\ (domain_char c = false -> Regex.deriv c start = Regex.Void).
Proof.
  intros Hc Hstart.
  assert (Hp : exists r1 r2, port_path = Regex.Cat r1 r2)
    by (do 2 eexists; reflexivity).
  destruct Hp as (r1 & r2 & Hp).
  destruct (step_without_letter domain_char r1 r2 c Hc) as (H1 & H2 & H3).
  cbv zeta in H1, H2, H3. rewrite <- Hp in H1, H2, H3.
  fold tld_tail in H1, H2, H3. fold after_domain in H1, H2, H3.
  fold after_scheme in H1. fold in_domain in H1, H2, H3.
  fold after_dot in H1, H2, H3.
  pose proof (dot_is_domain_char c) as Hdot.
  destruct Hstart as [-> | [-> | [-> | ->]]];
    [rewrite H1 | rewrite H2 | rewrite H3 | cbn [Regex.deriv]; auto];
    (destruct (domain_char c), (Ascii.eqb "." c); split; intros Hd; auto;
     try discriminate Hd; discriminate (Hdot eq_refl)).
Qed.

Lemma fullmatch_letterless (host rest : string) (start : Regex.re) :
  start = after_scheme \/ start = in_domain \/ start = after_dot
  \/ start = Regex.Void ->
  letterless host = true ->
  ends_host rest = true ->
  Regex.fullmatch start (host ++ rest) = false.
Proof.
  unfold letterless. revert start.
  induction host as [|c host IH]; intros start Hstart Hh Hr.
  - change ("" ++ rest) with rest. destruct rest as [|c rest].
    + destruct Hstart as [-> | [-> | [-> | ->]]]; reflexivity.
    + cbn [ends_host] in Hr. apply negb_true_iff in Hr.
      assert (Hc : is_alpha c = false).
      { unfold domain_char in Hr. destruct (is_alpha c); [discriminate Hr | reflexivity]. }
      destruct (step_in_host c start Hc Hstart) as [_ Hv].
      cbn [Regex.fullmatch]. rewrite (Hv Hr). apply RegexFacts.fullmatch_Void.
  - cbn [all_chars] in Hh. apply andb_prop in Hh as [Hc Hh].
    apply andb_prop in Hc as [Hd Hc]. apply negb_true_iff in Hc.
    rewrite append_cons. cbn [Regex.fullmatch].
    destruct (step_in_host c start Hc Hstart) as [Hk _].
    apply IH; [|exact Hh|exact Hr].
    destruct (Hk Hd) as [-> | [-> | ->]]; auto.
Qed.

(** X25. A URL whose host has no letter is never accepted: when the
    normalized URL is [http://] or [https://], then a run of digits, dots
    and hyphens, then nothing or a character outside the domain group,
    [URL_REGEX] cannot match (its TLD group needs two letters), and the
    answer is "Invalid URL format" whatever the URL library.  In
    particular every URL on an IPv4 literal is turned down. *)
Theorem letterless_host_is_invalid_format `{UrlLib} (raw pre host rest : string) :
  normalize_url raw = pre ++ host ++ rest ->
  pre = "http://" \/ pre = "https://" ->
  letterless host = true ->
  ends_host rest = true ->
  validate_and_normalize raw = Ok (false, "Invalid URL format").
Proof.
  intros Hn Hpre Hh Hr.
  rewrite validate_unfold. cbv zeta. rewrite Hn.
  unfold is_valid_url, Regex.re_match. rewrite RegexFacts.fullmatch_app.
  assert (Hs : RegexFacts.derivs pre URL_REGEX = after_scheme)
    by (destruct Hpre as [-> | ->]; [apply after_scheme_http | apply after_scheme_https]).
  rewrite Hs, fullmatch_letterless by auto. reflexivity.
Qed.

Lemma letterless_host_is_invalid_format_witness :
  validate_and_normalize (H := UrlRef.url_ref) "203.0.113.5/login"
  = Ok (false, "Invalid URL format").
Proof.
  apply (letterless_host_is_invalid_format (H := UrlRef.url_ref)
           "203.0.113.5/login" "https://" "203.0.113.5" "/login");
    [reflexivity | right; reflexivity | reflexivity | reflexivity].
Defined.

End UrlCoverage.

(** ** The cache beyond the round trip *)

Module CacheCoverage.
Import Cache CacheTheorems.

Section WithPayload.
Context {J P : Type} `{Environment} `{Digest} `{!Json J P}.

Lemma readable_cases (w : world J) :
  readable w \/ w_cache_file w = Some Truncated.
Proof.
  unfold readable. destruct (w_cache_file w) as [[d|]|];
    [left; discriminate | right; reflexivity | left; discriminate].
Qed.

(** X5. A lookup writes only to evict: [cache_get] never touches the clock
    or the network and leaves the cache file exactly as it is (it does not
    even create a missing file), except when the entry of the URL exists
    and is older than [TTL]; a URL with no entry is answered with nothing,
    and on a file that holds no JSON document the lookup raises and leaves
    the file alone. *)
Theorem lookup_writes_only_to_evict (url : string) (w : world J) :
  w_env (cache_get (P := P) url w).2 = w_env w
  /\ (readable w -> stored w !! sha256_hexdigest url = None ->
      cache_get (P := P) url w = (Ok None, w))
  /\ (w_cache_file w = None -> cache_get (P := P) url w = (Ok None, w))
  /\ (w_cache_file w = Some Truncated ->
      cache_get (P := P) url w = (Raise ValueError, w))
  /\ ((cache_get (P := P) url w).2 <> w ->
      exists item, stored w !! sha256_hexdigest url = Some item
                   /\ now (w_env w) - ts item > TTL
                   /\ (cache_get (P := P) url w).1 = Ok None).
Proof.
  destruct (readable_cases w) as [Hr | Ht].
  - rewrite (cache_get_unfold url w Hr).
    assert (Hnt : w_cache_file w <> Some Truncated) by exact Hr.
    destruct (stored w !! sha256_hexdigest url) as [item|] eqn:E.
    + destruct (Z.gtb_spec (now (w_env w) - ts item) TTL) as [Hgt | Hle];
        cbn [fst snd w_env].
      * split; [reflexivity|]. split; [discriminate|]. split.
        -- intros Hnone. unfold stored in E. rewrite Hnone in E.
           rewrite lookup_empty in E. discriminate.
        -- split; [contradiction|].
           intros _. exists item. split; [reflexivity|]. split; [lia | reflexivity].
      * split; [reflexivity|]. split; [discriminate|]. split.
        -- intros Hnone. unfold stored in E. rewrite Hnone in E.
           rewrite lookup_empty in E. discriminate.
        -- split; [contradiction|]. intros Hne. contradiction.
    + cbn [fst snd]. split; [reflexivity|]. split; [reflexivity|].
      split; [reflexivity|]. split; [contradiction|]. intros Hne. contradiction.
  - rewrite (cache_get_truncated url w Ht). cbn [fst snd].
    split; [reflexivity|]. split; [intros Hr; contradiction|].
    split; [rewrite Ht; discriminate|]. split; [reflexivity|].
    intros Hne. contradiction.
Qed.

End WithPayload.

Lemma lookup_writes_only_to_evict_witness :
  cache_get (P := string) "never-stored.example" demo_world = (Ok None, demo_world).
Proof.
  apply (lookup_writes_only_to_evict (P := string) "never-stored.example" demo_world).
  reflexivity.
Defined.

Section Frames.
Context {J P : Type} `{Environment} `{Digest} `{!Json J P}.

(** A store that went through. *)
Lemma set_stored (url : string) (R : P) (j : J) (w : world J) :
  readable w -> json_dump R = Some j ->
  cache_set url R w
  = (Ok tt,
     {| w_env := w_env w;
        w_cache_file :=
          Some (Document
                  (<[sha256_hexdigest url := {| ts := now (w_env w); result := j |}]>
                     (stored w))) |}).
Proof.
  intros Hr Ej. rewrite cache_set_spec, Ej. unfold readable in Hr.
  destruct (w_cache_file w) as [[d|]|]; [reflexivity | contradiction | reflexivity].
Qed.

(** A store of a payload without a JSON form. *)
Lemma set_rejected (url : string) (R : P) (w : world J) :
  readable w -> json_dump R = None ->
  cache_set url R w
  = (Raise (OtherError "TypeError"),
     {| w_env := w_env w; w_cache_file := Some Truncated |}).
Proof.
  intros Hr Ej. rewrite cache_set_spec, Ej. unfold readable in Hr.
  destruct (w_cache_file w) as [[d|]|]; [reflexivity | contradiction | reflexivity].
Qed.

(** A store on a file that cannot be read. *)
Lemma set_truncated (url : string) (R : P) (w : world J) :
  w_cache_file w = Some Truncated -> cache_set url R w = (Raise ValueError, w).
Proof. intros Ht. rewrite cache_set_spec, Ht. reflexivity. Qed.

(** X6. Storing a result for one URL does not change what a lookup of a URL
    with a different fingerprint returns, as long as the result has a JSON
    form.  A result that [json.dump] rejects costs the whole cache: the
    store raises [TypeError] with the file already emptied, and from then
    on every lookup raises, for the other URLs too. *)
Theorem store_keeps_other_urls (url other : string) (R : P) (w : world J) :
  sha256_hexdigest url <> sha256_hexdigest other ->
  (is_Some (json_dump R) ->
   (cache_get (P := P) other (cache_set url R w).2).1
   = (cache_get (P := P) other w).1)
  /\ (readable w -> json_dump R = None ->
      (cache_set url R w).1 = Raise (OtherError "TypeError")
      /\ (cache_get (P := P) other (cache_set url R w).2).1 = Raise ValueError).
Proof.
  intros Hne. split.
  - intros [j Ej]. destruct (readable_cases w) as [Hr | Ht].
    + rewrite (set_stored url R j w Hr Ej). cbn [snd].
      rewrite !cache_get_unfold by (first [exact Hr | unfold readable; discriminate]).
      unfold stored at 1. cbn [w_cache_file w_env].
      rewrite lookup_insert_ne by exact Hne.
      destruct (stored w !! sha256_hexdigest other) as [item|]; [|reflexivity].
      destruct (now (w_env w) - ts item >? TTL); reflexivity.
    + rewrite (set_truncated url R w Ht). reflexivity.
  - intros Hr Ej. rewrite (set_rejected url R w Hr Ej). cbn [fst snd].
    split; [reflexivity|]. rewrite cache_get_truncated by reflexivity. reflexivity.
Qed.

(** X7. Storing twice keeps one entry, the later one: after
    [cache_set url R1] and then [cache_set url R2], both with a JSON form,
    the file is the file a single [cache_set url R2] would have written at
    that time, and a lookup right away returns what [json.load] reads back
    from the JSON form of [R2] (a list where [R2] was a tuple). *)
Theorem store_overwrites (url : string) (R1 R2 : P) (j2 : J) (w : world J) :
  readable w ->
  is_Some (json_dump R1) ->
  json_dump R2 = Some j2 ->
  let w2 := (cache_set url R2 (cache_set url R1 w).2).2 in
  w2 = (cache_set url R2 w).2
  /\ cache_get url w2 = (Ok (Some (json_load j2)), w2).
Proof.
  intros Hr [j1 E1] E2. cbv zeta.
  assert (E : (cache_set url R2 (cache_set url R1 w).2).2 = (cache_set url R2 w).2).
  { rewrite (set_stored url R1 j1 w Hr E1). cbn [snd].
    rewrite (set_stored url R2 j2 _) by (first [exact E2 | unfold readable; discriminate]).
    rewrite (set_stored url R2 j2 w Hr E2). cbn [snd w_env].
    unfold stored at 1. cbn [w_cache_file]. rewrite insert_insert_eq. reflexivity. }
  split; [exact E|]. rewrite E, (set_stored url R2 j2 w Hr E2). cbn [snd].
  apply (cache_get_hit url _ {| ts := now (w_env w); result := j2 |}).
  - unfold readable. discriminate.
  - unfold stored. cbn [w_cache_file]. apply lookup_insert_eq.
  - cbn [ts w_env]. unfold TTL. lia.
Qed.

(** X8. A lookup never disturbs other entries: whether [cache_get url]
    returns, misses or evicts, every entry filed under another fingerprint
    stays in the store as it was, expired or not, and a lookup of such a URL
    returns what it would have returned before. *)
Theorem lookup_keeps_other_urls (url other : string) (w : world J) :
  sha256_hexdigest url <> sha256_hexdigest other ->
  stored (cache_get (P := P) url w).2 !! sha256_hexdigest other
    = stored w !! sha256_hexdigest other
  /\ (cache_get (P := P) other (cache_get (P := P) url w).2).1
     = (cache_get (P := P) other w).1.
Proof.
  intros Hne. destruct (readable_cases w) as [Hr | Ht].
  - assert (Hr' : readable (cache_get (P := P) url w).2).
    { rewrite (cache_get_unfold url w Hr).
      destruct (stored w !! sha256_hexdigest url) as [item|]; [|exact Hr].
      destruct (now (w_env w) - ts item >? TTL); [|exact Hr].
      unfold readable. discriminate. }
    assert (Hs : stored (cache_get (P := P) url w).2 !! sha256_hexdigest other
                 = stored w !! sha256_hexdigest other).
    { rewrite (cache_get_unfold url w Hr).
      destruct (stored w !! sha256_hexdigest url) as [item|]; [|reflexivity].
      destruct (now (w_env w) - ts item >? TTL); [|reflexivity].
      cbn [snd]. unfold stored at 1. cbn [w_cache_file].
      apply lookup_delete_ne, Hne. }
    split; [exact Hs|].
    rewrite (cache_get_unfold other _ Hr'), Hs.
    rewrite (cache_get_unfold other w Hr).
    assert (He : w_env (cache_get (P := P) url w).2 = w_env w).
    { rewrite (cache_get_unfold url w Hr).
      destruct (stored w !! sha256_hexdigest url) as [item|]; [|reflexivity].
      destruct (now (w_env w) - ts item >? TTL); reflexivity. }
    rewrite He.
    destruct (stored w !! sha256_hexdigest other) as [item|]; [|reflexivity].
    destruct (now (w_env w) - ts item >? TTL); reflexivity.
  - rewrite (cache_get_truncated url w Ht). cbn [snd]. split; reflexivity.
Qed.

End Frames.

(** A cache of Python values that holds one entry, for [b.example]. *)
Definition py_world : world JsonRef.jsonval :=
  (cache_set "b.example" (JsonRef.PyStr "kept")
     (Ref.fresh_world JsonRef.jsonval 1000 [])).2.

Lemma store_keeps_other_urls_witness :
  (cache_get (P := JsonRef.pyval) "b.example"
     (cache_set "a.example" (JsonRef.PyTuple [JsonRef.PyInt 1]) py_world).2).1
  = Ok (Some (JsonRef.PyStr "kept"))
  /\ (cache_set "a.example" (JsonRef.PySet [JsonRef.PyInt 1]) py_world).1
     = Raise (OtherError "TypeError")
  /\ (cache_get (P := JsonRef.pyval) "b.example"
        (cache_set "a.example" (JsonRef.PySet [JsonRef.PyInt 1]) py_world).2).1
     = Raise ValueError.
Proof.
  split.
  - destruct (store_keeps_other_urls "a.example" "b.example"
                (JsonRef.PyTuple [JsonRef.PyInt 1]) py_world) as [Hkeep _];
      [discriminate|].
    rewrite Hkeep by (eexists; reflexivity). reflexivity.
  - destruct (store_keeps_other_urls "a.example" "b.example"
                (JsonRef.PySet [JsonRef.PyInt 1]) py_world) as [_ Hlost];
      [discriminate|].
    apply Hlost; [vm_compute; discriminate | reflexivity].
Defined.

Lemma store_overwrites_witness :
  cache_get "a.example"
    (cache_set "a.example"
       (JsonRef.PyTuple [JsonRef.PyInt 1; JsonRef.PyInt 2])
       (cache_set "a.example" (JsonRef.PyStr "old") py_world).2).2
  = (Ok (Some (JsonRef.PyList [JsonRef.PyInt 1; JsonRef.PyInt 2])),
     (cache_set "a.example"
        (JsonRef.PyTuple [JsonRef.PyInt 1; JsonRef.PyInt 2])
        (cache_set "a.example" (JsonRef.PyStr "old") py_world).2).2).
Proof.
  destruct (store_overwrites "a.example" (JsonRef.PyStr "old")
              (JsonRef.PyTuple [JsonRef.PyInt 1; JsonRef.PyInt 2])
              (JsonRef.JArray [JsonRef.JInt 1; JsonRef.JInt 2]) py_world)
    as [_ Hget];
    [vm_compute; discriminate | eexists; reflexivity | reflexivity |].
  exact Hget.
Defined.

Lemma lookup_keeps_other_urls_witness :
  (cache_get (P := string) "b.example"
     (cache_get (P := string) "a.example"
        (later 50000 (cache_set "a.example" "x" demo_world).2)).2).1
  = (cache_get (P := string) "b.example"
       (later 50000 (cache_set "a.example" "x" demo_world).2)).1.
Proof.
  apply (lookup_keeps_other_urls (P := string) "a.example" "b.example"
           (later 50000 (cache_set "a.example" "x" demo_world).2)).
  discriminate.
Defined.

End CacheCoverage.

(** ** Fetching beyond truncation *)

Module FetcherCoverage.
Import Fetcher Utf8 Utf8Facts FetcherTheorems.

(** Induction along the steps of the decoder. *)
Lemma decode_ind (Q : list Byte.byte -> Prop) :
  Q [] ->
  (forall bs rest n,
      (forall h, utf8_decode h bs = cons n <$> utf8_decode h rest) ->
      (length rest < length bs)%nat -> Q rest -> Q bs) ->
  (forall bs rest,
      (forall h, utf8_decode h bs = on_error h (utf8_decode h rest)) ->
      (length rest < length bs)%nat -> Q rest -> Q bs) ->
  (forall bs, (forall h, utf8_decode h bs = on_error h (Ok [])) -> Q bs) ->
  forall bs, Q bs.
Proof.
  intros Hnil Hchar Herr Hend bs.
  remember (length bs) as n eqn:Hn.
  revert bs Hn. induction n as [n IH] using lt_wf_ind. intros bs Hn.
  destruct bs as [|b0 r0]; [exact Hnil|].
  destruct (decode_step b0 r0)
    as [(c & rest & Hrest & Hd) | [(rest & Hrest & Hd) | Hd]].
  - apply (Hchar _ rest c Hd Hrest). apply (IH (length rest)); [lia | reflexivity].
  - apply (Herr _ rest Hd Hrest). apply (IH (length rest)); [lia | reflexivity].
  - apply Hend, Hd.
Qed.

(** Decoding with [errors="ignore"] yields at most one code point per byte. *)
Lemma decode_ignore_length (bs : list Byte.byte) :
  (length (decode_ignore bs) <= length bs)%nat.
Proof.
  induction bs as [| bs rest n Hd Hlen IH | bs rest Hd Hlen IH | bs Hd] using decode_ind.
  - cbn. lia.
  - pose proof (decode_ignore_total bs) as E. rewrite Hd in E.
    rewrite decode_ignore_total in E. cbn [fmap pyresult_fmap] in E.
    injection E as E. rewrite <- E. cbn [length]. lia.
  - pose proof (decode_ignore_total bs) as E. rewrite Hd in E.
    cbn [on_error] in E. rewrite decode_ignore_total in E.
    injection E as E. rewrite <- E. lia.
  - pose proof (decode_ignore_total bs) as E. rewrite Hd in E.
    cbn [on_error] in E. injection E as E. rewrite <- E. cbn. lia.
Qed.

(** Bytes that are valid UTF-8 decode to the same text in every mode. *)
Lemma strict_then_ignore (bs : list Byte.byte) (t : list N) :
  utf8_decode Strict bs = Ok t -> decode_ignore bs = t.
Proof.
  revert t.
  induction bs as [| bs rest n Hd Hlen IH | bs rest Hd Hlen IH | bs Hd] using decode_ind;
    intros t Ht.
  - cbn in Ht. injection Ht as <-. reflexivity.
  - rewrite Hd in Ht.
    destruct (utf8_decode Strict rest) as [t'|e] eqn:Er; [|discriminate].
    cbn [fmap pyresult_fmap] in Ht. injection Ht as <-.
    pose proof (decode_ignore_total bs) as E. rewrite Hd in E.
    rewrite decode_ignore_total, (IH t' eq_refl) in E.
    cbn [fmap pyresult_fmap] in E. injection E as E. symmetry. exact E.
  - rewrite Hd in Ht. discriminate.
  - rewrite Hd in Ht. discriminate.
Qed.

Section WithWorld.
Context {P : Type} `{Environment} `{UrlLib}.

Lemma head_request_unfold (url : string) (timeout : Z) (w : world P) :
  head_request url timeout w
  = (let '(r, e') := send HEAD url (w_env w) in
     let w' := {| w_env := e'; w_cache_file := w_cache_file w |} in
     match r with
     | Ok resp =>
         (Ok {| h_status_code := Some (resp_status_code resp);
                h_final_url := resp_url resp;
                h_redirects := resp_history resp;
                h_headers := resp_headers resp;
                h_error := None |}, w')
     | Raise e =>
         (Ok {| h_status_code := None; h_final_url := url; h_redirects := [];
                h_headers := ∅; h_error := Some (head_error_text e) |}, w')
     end).
Proof.
  unfold head_request, client_request, mbind, io_bind, mret, io_ret.
  destruct (send HEAD url (w_env w)) as [[resp|e] e']; reflexivity.
Qed.

Lemma error_texts_truthy (e : exn) :
  Main.truthy (Some (head_error_text e)) = true
  /\ Main.truthy (Some (get_error_text e)) = true.
Proof. destruct e; split; reflexivity. Qed.

Lemma head_request_outcome (url : string) (timeout : Z) (w : world P) :
  exists h,
    (head_request url timeout w).1 = Ok h
    /\ (Main.truthy (h_error h) = true <-> exists e, (send HEAD url (w_env w)).1 = Raise e)
    /\ (Main.truthy (h_error h) = true ->
        h_status_code h = None /\ h_final_url h = url /\ h_redirects h = []).
Proof.
  rewrite head_request_unfold.
  destruct (send HEAD url (w_env w)) as [[resp|e] e1]; cbn [fst];
    eexists; (split; [reflexivity|]); cbn [h_error h_status_code h_final_url h_redirects].
  - split; [split|]; [discriminate | intros [e He]; discriminate He | discriminate].
  - destruct (error_texts_truthy e) as [T _]. split; [split|].
    + intros _. exists e. reflexivity.
    + intros _. exact T.
    + intros _. repeat split.
Qed.

Lemma get_request_outcome (url : string) (timeout cap : Z) (w : world P) :
  exists g,
    (get_request url timeout cap w).1 = Ok g
    /\ (Main.truthy (error g) = true <-> exists e, (send GET url (w_env w)).1 = Raise e)
    /\ (Main.truthy (error g) = true ->
        status_code g = None /\ final_url g = url /\ redirects g = []
        /\ content g = None /\ filesize g = 0%nat)
    /\ (Main.truthy (error g) = false -> error g = None /\ content g <> None).
Proof.
  rewrite get_request_unfold.
  destruct (send GET url (w_env w)) as [[resp|e] e1]; cbn [fst];
    eexists; (split; [reflexivity|]);
    cbn [error status_code final_url redirects content filesize].
  - split; [split|split]; [discriminate | intros [e He]; discriminate He | discriminate |].
    intros _. split; [reflexivity|]. destruct (_ >? _); discriminate.
  - destruct (error_texts_truthy e) as [_ T]. split; [split|split].
    + intros _. exists e. reflexivity.
    + intros _. exact T.
    + intros _. repeat split.
    + intros Hf. rewrite T in Hf. discriminate Hf.
Qed.

(** X9. The two request helpers never raise, whatever the transport does.
    When the client raises, the result carries a non-empty error text and
    the defaults (no status, the requested URL as final URL, no redirects,
    no content, size 0); when it answers, the error is [None] and the
    content is present.  So the truthiness test callers make on the error
    field holds exactly when the transport failed. *)
Theorem requests_never_raise (url : string) (timeout cap : Z) (w : world P) :
  exists h g,
    (head_request url timeout w).1 = Ok h
    /\ (get_request url timeout cap w).1 = Ok g
    /\ (Main.truthy (h_error h) = true <-> exists e, (send HEAD url (w_env w)).1 = Raise e)
    /\ (Main.truthy (error g) = true <-> exists e, (send GET url (w_env w)).1 = Raise e)
    /\ (Main.truthy (h_error h) = true ->
        h_status_code h = None /\ h_final_url h = url /\ h_redirects h = [])
    /\ (Main.truthy (error g) = true ->
        status_code g = None /\ final_url g = url /\ redirects g = []
        /\ content g = None /\ filesize g = 0%nat)
    /\ (Main.truthy (error g) = false -> error g = None /\ content g <> None).
Proof.
  destruct (head_request_outcome url timeout w) as (h & Hh & H1 & H2).
  destruct (get_request_outcome url timeout cap w) as (g & Hg & G1 & G2 & G3).
  exists h, g. repeat (split; [assumption|]). assumption.
Qed.

Definition supported (sch : string) : bool :=
  (String.eqb sch "http" || String.eqb sch "https" || String.eqb sch "")%bool.

(** X10. For a URL whose scheme is neither http nor https nor empty,
    [fetch_url_data] sends nothing: the world is left exactly as it was, and
    the dict returned has the error "unsupported-scheme", the URL itself as
    normalized URL, and no "head" or "get" entry at all. *)
Theorem unsupported_scheme_sends_nothing (url : string) (do_head : bool)
    (w : world P) (parsed : ParseResult) :
  urlparse url = Ok parsed ->
  supported (scheme parsed) = false ->
  exists fd,
    fetch_url_data url do_head w = (Ok fd, w)
    /\ f_error fd = Some "unsupported-scheme"
    /\ f_url fd = url /\ f_normalized_url fd = url
    /\ f_head fd = Missing /\ f_get fd = Missing.
Proof.
  intros Hp Hs. unfold supported in Hs.
  unfold fetch_url_data, time_time, lift, mbind, io_bind, mret, io_ret.
  rewrite Hp, Hs. cbn [negb].
  eexists. split; [reflexivity|].
  cbn [f_error f_url f_normalized_url f_head f_get].
  repeat split.
Qed.

(** [fetch_url_data] on a supported scheme, step by step. *)
Lemma fetch_supported (url : string) (do_head : bool) (w : world P)
    (parsed : ParseResult) :
  urlparse url = Ok parsed ->
  supported (scheme parsed) = true ->
  fetch_url_data url do_head w
  = (let hw := if do_head
               then (Holds <$> (head_request url FETCH_TIMEOUT w).1,
                     (head_request url FETCH_TIMEOUT w).2)
               else (Ok IsNone, w) in
     match hw.1 with
     | Raise e => (Raise e, hw.2)
     | Ok head_result =>
         let gw := get_request url FETCH_TIMEOUT MAX_CONTENT_BYTES hw.2 in
         match gw.1 with
         | Raise e => (Raise e, gw.2)
         | Ok get_result =>
             (Ok {| f_url := url;
                    f_normalized_url :=
                      str_or (final_url get_result)
                        (str_or (match head_result with
                                 | Holds h => h_final_url h
                                 | _ => ""
                                 end) url);
                    f_error := None;
                    f_head := head_result;
                    f_get := Holds get_result;
                    f_duration := now (w_env gw.2) - now (w_env w) |}, gw.2)
         end
     end).
Proof.
  intros Hp Hs. unfold supported in Hs.
  unfold fetch_url_data, time_time, lift, mbind, io_bind, mret, io_ret.
  rewrite Hp, Hs. cbn [negb]. cbv zeta.
  destruct do_head.
  - destruct (head_request url FETCH_TIMEOUT w) as [[h|e] w1]; cbn [fst snd fmap pyresult_fmap];
      [|reflexivity].
    destruct (get_request url FETCH_TIMEOUT MAX_CONTENT_BYTES w1) as [[g|e] w2];
      reflexivity.
  - cbn [fst snd].
    destruct (get_request url FETCH_TIMEOUT MAX_CONTENT_BYTES w) as [[g|e] w2];
      reflexivity.
Qed.

Lemma str_or_nonempty (a b : string) : a <> "" -> str_or a b = a.
Proof. intros Ha. unfold str_or. destruct a; [congruence | reflexivity]. Qed.

(** The environment once the HEAD request of [fetch_url_data] is over. *)
Definition after_head (url : string) (w : world P) : env :=
  (send HEAD url (w_env w)).2.

(** X11. When the GET fails, the final URL the HEAD request reached is
    thrown away: for a non-empty URL with a supported scheme whose GET
    raises, [fetch_url_data] reports the requested URL itself as
    "normalized_url", whatever the HEAD request returned. *)
Theorem failed_get_ignores_head_redirect (url : string) (w : world P)
    (parsed : ParseResult) (e : exn) :
  urlparse url = Ok parsed ->
  supported (scheme parsed) = true ->
  url <> "" ->
  (send GET url (after_head url w)).1 = Raise e ->
  exists fd h g,
    (fetch_url_data url true w).1 = Ok fd
    /\ f_head fd = Holds h /\ f_get fd = Holds g
    /\ error g = Some (get_error_text e)
    /\ f_normalized_url fd = url.
Proof.
  intros Hp Hs Hne Hget. unfold after_head in Hget.
  rewrite (fetch_supported url true w parsed Hp Hs). cbv zeta.
  rewrite head_request_unfold.
  destruct (send HEAD url (w_env w)) as [r1 e1]. cbn [snd] in Hget.
  destruct r1 as [hr|he]; cbn [fst snd fmap pyresult_fmap];
    rewrite get_request_unfold; cbn [w_env w_cache_file];
    destruct (send GET url e1) as [r2 e2]; cbn [fst] in Hget; subst r2;
    cbn [fst snd]; do 3 eexists; (split; [reflexivity|]);
    cbn [f_head f_get f_normalized_url final_url error];
    repeat split; apply str_or_nonempty, Hne.
Qed.

(** X12. With [do_head=False] no HEAD request goes out and the dict holds
    [None] under "head"; [compute_heuristic_score] cannot work on such a
    dict: it raises [AttributeError] for every feature dict, every URL that
    parses and every reputation input whose engine counts are not
    negative. *)
Theorem fetch_without_head_breaks_scoring (url : string) (w : world P)
    (parsed : ParseResult) :
  urlparse url = Ok parsed ->
  supported (scheme parsed) = true ->
  exists fd g,
    (fetch_url_data url false w).1 = Ok fd
    /\ w_env (fetch_url_data url false w).2 = (send GET url (w_env w)).2
    /\ f_head fd = IsNone /\ f_get fd = Holds g
    /\ forall extracted u vt gsb p,
         RiskFacts.counts_nonneg vt ->
         urlparse u = Ok p ->
         RiskEngine.compute_heuristic_score fd extracted u vt gsb
         = Raise AttributeError.
Proof.
  intros Hp Hs.
  rewrite (fetch_supported url false w parsed Hp Hs). cbv zeta. cbn [fst snd].
  rewrite get_request_unfold.
  destruct (send GET url (w_env w)) as [[resp|e] e2]; cbn [fst snd w_env];
    do 2 eexists; (split; [reflexivity|]); (split; [reflexivity|]);
    cbn [f_head f_get]; (split; [reflexivity|]); (split; [reflexivity|]);
    intros extracted u vt gsb p _ Hu;
    unfold RiskEngine.compute_heuristic_score; rewrite Hu; reflexivity.
Qed.

(** X13. Truncated content is bounded by the cap: for a body longer than a
    non-negative cap, the content [get_request] returns has at most [cap]
    code points, while the reported filesize stays the full body length. *)
Theorem truncated_content_is_bounded (url : string) (timeout cap : Z)
    (w : world P) (resp : Response) :
  (send GET url (w_env w)).1 = Ok resp ->
  0 <= cap ->
  Z.of_nat (length (resp_content resp)) > cap ->
  exists g t,
    (get_request url timeout cap w).1 = Ok g
    /\ content g = Some t
    /\ Z.of_nat (length t) <= cap
    /\ Z.of_nat (filesize g) > cap.
Proof.
  intros Hsend Hcap Hbig. rewrite get_request_unfold.
  destruct (send GET url (w_env w)) as [r e']. cbn [fst] in Hsend. subst r.
  cbn [fst]. do 2 eexists. split; [reflexivity|]. cbn [content filesize].
  destruct (Z.gtb_spec (Z.of_nat (length (resp_content resp))) cap) as [_ | Hle];
    [|lia].
  split; [reflexivity|]. split; [|exact Hbig].
  pose proof (decode_ignore_length (slice_to cap (resp_content resp))) as Hl.
  rewrite slice_to_prefix in Hl |- * by exact Hcap.
  rewrite length_firstn in Hl. lia.
Qed.

(** X14. Nothing is lost from a prefix that is valid UTF-8: when the bytes
    kept under the cap decode strictly to a text, that text is the content. *)
Theorem truncated_valid_prefix_is_kept (url : string) (timeout cap : Z)
    (w : world P) (resp : Response) (t : list N) :
  (send GET url (w_env w)).1 = Ok resp ->
  Z.of_nat (length (resp_content resp)) > cap ->
  utf8_decode Strict (slice_to cap (resp_content resp)) = Ok t ->
  exists g, (get_request url timeout cap w).1 = Ok g /\ content g = Some t.
Proof.
  intros Hsend Hbig Hvalid. rewrite get_request_unfold.
  destruct (send GET url (w_env w)) as [r e']. cbn [fst] in Hsend. subst r.
  cbn [fst]. eexists. split; [reflexivity|]. cbn [content].
  destruct (Z.gtb_spec (Z.of_nat (length (resp_content resp))) cap) as [_ | Hle];
    [|lia].
  rewrite (strict_then_ignore _ t Hvalid). reflexivity.
Qed.

End WithWorld.

Definition elsewhere : string := "https://landing.example/home".

(** A network that answers the HEAD request, redirected elsewhere, and
    then drops the GET. *)
Definition head_only_world : world string :=
  Ref.fresh_world string 0 [Ok (Ref.text_page elsewhere "")].

Definition plain_world (body : string) : world string :=
  Ref.fresh_world string 0 [Ok (Ref.text_page MainTheorems.site body)].

Lemma unsupported_scheme_sends_nothing_witness :
  exists fd,
    fetch_url_data "ftp://example.com/file" true head_only_world
      = (Ok fd, head_only_world)
    /\ f_error fd = Some "unsupported-scheme"
    /\ f_head fd = Missing /\ f_get fd = Missing.
Proof.
  destruct (unsupported_scheme_sends_nothing "ftp://example.com/file" true
              head_only_world {| scheme := "ftp"; hostname := Some "example.com" |})
    as (fd & Hfd & He & _ & _ & Hh & Hg);
    [vm_compute; reflexivity | reflexivity |].
  exists fd. repeat split; assumption.
Defined.

Lemma failed_get_ignores_head_redirect_witness :
  exists fd h,
    (fetch_url_data MainTheorems.site true head_only_world).1 = Ok fd
    /\ f_head fd = Holds h
    /\ f_normalized_url fd = MainTheorems.site.
Proof.
  destruct (failed_get_ignores_head_redirect MainTheorems.site head_only_world
              {| scheme := "https"; hostname := Some "example.com" |}
              (RequestError "ConnectError"))
    as (fd & h & g & Hfd & Hh & _ & _ & Hn);
    [vm_compute; reflexivity | reflexivity | discriminate | reflexivity |].
  exists fd, h. repeat split; assumption.
Defined.

Lemma fetch_without_head_breaks_scoring_witness :
  exists fd,
    (fetch_url_data MainTheorems.site false (plain_world "Hello")).1 = Ok fd
    /\ RiskEngine.compute_heuristic_score fd Main.empty_extracted
         MainTheorems.site (Some RiskTheorems.three_engines) None
       = Raise AttributeError.
Proof.
  destruct (fetch_without_head_breaks_scoring MainTheorems.site (plain_world "Hello")
              {| scheme := "https"; hostname := Some "example.com" |})
    as (fd & g & Hfd & _ & _ & _ & Hraise);
    [vm_compute; reflexivity | reflexivity |].
  exists fd. split; [exact Hfd|].
  apply (Hraise _ _ _ _ {| scheme := "https"; hostname := Some "example.com" |}).
  - cbn. lia.
  - vm_compute. reflexivity.
Defined.

Lemma truncated_content_is_bounded_witness :
  exists g t,
    (get_request MainTheorems.site FETCH_TIMEOUT 3 (plain_world "Hello")).1 = Ok g
    /\ content g = Some t
    /\ Z.of_nat (length t) <= 3.
Proof.
  destruct (truncated_content_is_bounded MainTheorems.site FETCH_TIMEOUT 3
              (plain_world "Hello") (Ref.text_page MainTheorems.site "Hello"))
    as (g & t & Hg & Hc & Hl & _);
    [reflexivity | lia | vm_compute; reflexivity |].
  exists g, t. repeat split; assumption.
Defined.

Lemma truncated_valid_prefix_is_kept_witness :
  exists g,
    (get_request MainTheorems.site FETCH_TIMEOUT 3 (plain_world "Hello")).1 = Ok g
    /\ content g = Some [72; 101; 108]%N.
Proof.
  apply (truncated_valid_prefix_is_kept MainTheorems.site FETCH_TIMEOUT 3
           (plain_world "Hello") (Ref.text_page MainTheorems.site "Hello"));
    [reflexivity | vm_compute; reflexivity | vm_compute; reflexivity].
Defined.

End FetcherCoverage.

(** ** HTML features beyond the meta tags *)

Module HtmlCoverage.
Import PyStr PyStrFacts Soup HtmlParser.

(** Induction over a parse tree, children included. *)
Fixpoint node_nested_ind (Q : node -> Prop)
    (Htag : forall name attrs children,
        Forall Q children -> Q (Tag name attrs children))
    (Hstr : forall s, Q (NavigableString s))
    (Hcom : forall s, Q (Comment s))
    (n : node) : Q n :=
  match n with
  | Tag name attrs children =>
      Htag name attrs children
        ((fix go (l : list node) : Forall Q l :=
            match l with
            | [] => @List.Forall_nil node Q
            | c :: r =>
                @List.Forall_cons node Q c r
                  (node_nested_ind Q Htag Hstr Hcom c) (go r)
            end) children)
  | NavigableString s => Hstr s
  | Comment s => Hcom s
  end.

Lemma take_length (n : nat) (s : string) : (String.length (take n s) <= n)%nat.
Proof.
  revert s. induction n as [|n IH]; intros s; [reflexivity|].
  destruct s as [|c s]; cbn; [lia|]. specialize (IH s). lia.
Qed.

Lemma take_all (n : nat) (s : string) : (String.length s <= n)%nat -> take n s = s.
Proof.
  revert s. induction n as [|n IH]; intros s Hs.
  - destruct s; [reflexivity | cbn in Hs; lia].
  - destruct s as [|c s]; [reflexivity|]. cbn in Hs |- *. rewrite IH by lia.
    reflexivity.
Qed.

Lemma take_prefix (n : nat) (s : string) : exists r, s = take n s ++ r.
Proof.
  revert s. induction n as [|n IH]; intros s.
  - exists s. destruct s; reflexivity.
  - destruct s as [|c s]; [exists ""; reflexivity|].
    destruct (IH s) as [r Hr]. exists r. cbn [take]. rewrite append_cons, <- Hr.
    reflexivity.
Qed.

(** The tree the text is taken from. *)
Definition cleaned (soup : node) : node := remove_tags ["script"; "style"] soup.

Lemma clean_text_unfold (soup : node) :
  clean_text (extract_soup soup) = take 2000 (get_text " " (cleaned soup)).
Proof.
  unfold extract_soup. destruct (meta_loop (find_all "meta" soup)). reflexivity.
Qed.

(** X15. The clean text is capped after assembly: it is at most 2000
    characters long, it is a prefix of the text of the document with its
    script and style elements removed, and it is that whole text when that
    text has no more than 2000 characters. *)
Theorem clean_text_is_capped `{HtmlLib} (html : list N) :
  let full := get_text " " (cleaned (BeautifulSoup html)) in
  let text := clean_text (extract_html_features html) in
  (String.length text <= 2000)%nat
  /\ (exists r, full = text ++ r)
  /\ ((String.length full <= 2000)%nat -> text = full).
Proof.
  cbv zeta. unfold extract_html_features. rewrite clean_text_unfold.
  split; [apply take_length|]. split; [apply take_prefix | apply take_all].
Qed.

(** The children [remove_tags] keeps, cleaned in turn. *)
Fixpoint keep_children (names : list string) (l : list node) : list node :=
  match l with
  | [] => []
  | c :: r =>
      if is_tag_named names c then keep_children names r
      else remove_tags names c :: keep_children names r
  end.

Lemma remove_tags_tag names name attrs children :
  remove_tags names (Tag name attrs children)
  = Tag name attrs (keep_children names children).
Proof.
  cbn [remove_tags]. f_equal.
  induction children as [|c r IH]; [reflexivity|].
  cbn [keep_children]. destruct (is_tag_named names c); [exact IH|].
  f_equal. exact IH.
Qed.

Lemma remove_tags_same_name names n :
  is_tag_named names (remove_tags names n) = is_tag_named names n.
Proof. destruct n; [rewrite remove_tags_tag|..]; reflexivity. Qed.

Definition unnamed (names : list string) (n : node) : Prop :=
  is_tag_named names n = false.

Lemma no_named_tag_left (names : list string) (n : node) :
  Forall (unnamed names) (descendants (remove_tags names n)).
Proof.
  induction n as [name attrs children IH | s | s] using node_nested_ind;
    [|constructor|constructor].
  rewrite remove_tags_tag. cbn [descendants].
  induction IH as [|c r Hc Hr IHr]; [constructor|].
  cbn [keep_children]. destruct (is_tag_named names c) eqn:E; [exact IHr|].
  cbn [flat_map]. constructor.
  - unfold unnamed. rewrite remove_tags_same_name. exact E.
  - apply Forall_app. split; [exact Hc | exact IHr].
Qed.

(** The stripped, non-empty text of one node, if it is a string. *)
Definition own_text (d : node) : list string :=
  match d with
  | NavigableString s =>
      let s := strip s in if nonempty s then [s] else []
  | _ => []
  end.

Lemma stripped_strings_tag name attrs children :
  stripped_strings (Tag name attrs children)
  = flat_map (fun c => (own_text c ++ stripped_strings c)%list) children.
Proof.
  unfold stripped_strings. cbn [descendants]. fold own_text.
  induction children as [|c r IH]; [reflexivity|].
  cbn [flat_map]. rewrite flat_map_app. cbn [flat_map]. rewrite IH. reflexivity.
Qed.

Lemma own_text_removed names c :
  is_tag_named names c = false -> own_text (remove_tags names c) = own_text c.
Proof. destruct c; reflexivity. Qed.

Lemma text_only_removed (names : list string) (n : node) :
  sublist (stripped_strings (remove_tags names n)) (stripped_strings n).
Proof.
  induction n as [name attrs children IH | s | s] using node_nested_ind;
    [|reflexivity|reflexivity].
  rewrite remove_tags_tag, !stripped_strings_tag.
  induction IH as [|c r Hc Hr IHr]; [constructor|].
  cbn [keep_children flat_map]. destruct (is_tag_named names c) eqn:E.
  - apply sublist_inserts_l. exact IHr.
  - cbn [flat_map]. rewrite (own_text_removed names c E).
    apply sublist_app; [|exact IHr].
    apply sublist_app; [reflexivity | exact Hc].
Qed.

(** X16. Script and style elements are taken out before the text is
    read: no tag named script or style is left anywhere in the cleaned tree,
    so no string below such a tag is read; and the strings that make up the
    clean text are strings of the original document in their original
    order, nothing added. *)
Theorem scripts_and_styles_are_removed (soup : node) :
  Forall (unnamed ["script"; "style"]) (descendants (cleaned soup))
  /\ sublist (stripped_strings (cleaned soup)) (stripped_strings soup)
  /\ clean_text (extract_soup soup)
     = take 2000 (join " " (stripped_strings (cleaned soup))).
Proof.
  split; [apply no_named_tag_left|]. split; [apply text_only_removed|].
  apply clean_text_unfold.
Qed.

(** What makes an input ask for a credential. *)
Definition asks_credential (i : input_descriptor) : bool :=
  (String.eqb (i_type i) "password" || contains "password" (i_name i))%bool.

Definition describe (i : node) : input_descriptor :=
  {| i_type := lower (default "text" (get_truthy "type" i));
     i_name := lower (get_default "name" "" i);
     i_placeholder := get "placeholder" i |}.

Lemma input_loop (nodes : list node) (acc : list input_descriptor) (flag : bool) :
  fold_left input_step nodes (acc, flag)
  = ((acc ++ map describe nodes)%list,
     (flag || existsb asks_credential (map describe nodes))%bool).
Proof.
  revert acc flag. induction nodes as [|i nodes IH]; intros acc flag.
  - cbn. rewrite app_nil_r, orb_false_r. reflexivity.
  - cbn [fold_left]. unfold input_step at 2. cbn [fst snd]. fold (describe i).
    rewrite IH. cbn [map existsb]. rewrite <- app_assoc. cbn [app].
    f_equal. unfold asks_credential at 2. cbn [describe i_type i_name].
    destruct ((lower (default "text" (get_truthy "type" i)) =? "password")%string
              || contains "password" (lower (get_default "name" "" i)))%bool;
      destruct flag; reflexivity.
Qed.

Lemma lower_char_idem (c : ascii) : lower_char (lower_char c) = lower_char c.
Proof. destruct c as [[] [] [] [] [] [] [] []]; vm_compute; reflexivity. Qed.

Lemma lower_idem (s : string) : lower (lower s) = lower s.
Proof.
  induction s as [|c s IH]; [reflexivity|].
  cbn [lower]. rewrite lower_char_idem, IH. reflexivity.
Qed.

Lemma lower_nonempty (s : string) : nonempty s = true -> lower s <> "".
Proof. destruct s; [discriminate | cbn; discriminate]. Qed.

(** X17. For every form reported, the inputs are the input elements below
    the form in document order, each with a lower-cased, non-empty type
    (text when none is given) and a lower-cased name, and the credential
    flag is set exactly when one of these inputs has type password or has
    "password" in its name. *)
Theorem forms_describe_their_inputs (soup : node) :
  forms (extract_soup soup) = map form_of (find_all "form" soup)
  /\ forall f, In f (find_all "form" soup) ->
       inputs (form_of f) = map describe (find_all "input" f)
       /\ has_password (form_of f) = existsb asks_credential (inputs (form_of f))
       /\ Forall (fun i => i_type i <> "" /\ lower (i_type i) = i_type i
                          /\ lower (i_name i) = i_name i)
            (inputs (form_of f)).
Proof.
  split.
  - unfold extract_soup. destruct (meta_loop (find_all "meta" soup)). reflexivity.
  - intros f _. unfold form_of. rewrite input_loop. cbn [app orb inputs has_password].
    split; [reflexivity|]. split; [reflexivity|].
    apply List.Forall_forall. intros i Hi. apply in_map_iff in Hi as (n & <- & _).
    cbn [describe i_type i_name]. split; [|split; apply lower_idem].
    apply lower_nonempty. unfold get_truthy.
    destruct (get "type" n) as [v|]; [|reflexivity].
    destruct (nonempty v) eqn:E; [exact E | reflexivity].
Qed.

Lemma srcs_nonempty (name : string) (soup : node) (s : string) :
  In s (srcs name soup) -> nonempty s = true.
Proof.
  unfold srcs. intros Hin. apply list_elem_of_In in Hin.
  apply list_elem_of_omap in Hin as (n & _ & Hn).
  unfold get_truthy in Hn. destruct (get "src" n) as [v|]; [|discriminate].
  destruct (nonempty v) eqn:E; [|discriminate]. injection Hn as <-. exact E.
Qed.

(** X18. The script, image and iframe lists never hold an empty source:
    an element whose src attribute is missing or empty is left out, so the
    counts the risk engine takes (iframes, scripts) are counts of elements
    with a real source. *)
Theorem sources_are_never_empty (soup : node) (s : string) :
  In s (scripts (extract_soup soup))
  \/ In s (images (extract_soup soup))
  \/ In s (iframes (extract_soup soup)) ->
  nonempty s = true.
Proof.
  unfold extract_soup. destruct (meta_loop (find_all "meta" soup)).
  cbn [scripts images iframes].
  intros [Hs | [Hs | Hs]]; eapply srcs_nonempty; exact Hs.
Qed.

(** A page with one script that has a source and one that has none. *)
Definition two_scripts : node :=
  Tag "[document]" ∅
    [ Tag "script" {[ "src" := "https://cdn.example.net/app.js" ]} [];
      Tag "script" ∅ [NavigableString "alert(1)"];
      Tag "p" ∅ [NavigableString " Hello "] ].

Lemma sources_are_never_empty_witness :
  scripts (extract_soup two_scripts) = ["https://cdn.example.net/app.js"]
  /\ nonempty "https://cdn.example.net/app.js" = true.
Proof.
  split; [vm_compute; reflexivity|].
  apply (sources_are_never_empty two_scripts). left.
  vm_compute. left. reflexivity.
Defined.

(** X19. The title is reported without surrounding white space, and it is
    absent when the document has no title element or when the first title
    element does not hold exactly one string. *)
Theorem title_is_stripped (soup : node) :
  (forall t, title (extract_soup soup) = Some t -> strip t = t)
  /\ (find_all "title" soup = [] -> title (extract_soup soup) = None)
  /\ (forall first rest, find_all "title" soup = first :: rest ->
       tag_string first = None -> title (extract_soup soup) = None).
Proof.
  unfold extract_soup. destruct (meta_loop (find_all "meta" soup)). cbn [title].
  split; [|split].
  - intros t. destruct (find_all "title" soup) as [|first rest]; [discriminate|].
    destruct (tag_string first) as [s|]; [|discriminate].
    destruct (nonempty s); [|discriminate].
    intros [= <-]. apply strip_idem.
  - intros ->. reflexivity.
  - intros first rest -> ->. reflexivity.
Qed.

End HtmlCoverage.

(** ** The checks of the scoring engine *)

Module RiskCoverage.
Import PyStr Regex RegexFacts Fetcher HtmlParser RiskEngine RiskFacts RiskTheorems.

(** The characters a pattern can read at all: those one of its classes
    accepts. *)
Fixpoint alphabet (r : re) (c : ascii) : bool :=
  match r with
  | Void | Eps => false
  | Cls p => p c
  | Cat r1 r2 | Alt r1 r2 => (alphabet r1 c || alphabet r2 c)%bool
  | Star r1 => alphabet r1 c
  end.

Lemma alphabet_cat r1 r2 c :
  alphabet (cat r1 r2) c = true -> (alphabet r1 c || alphabet r2 c)%bool = true.
Proof.
  destruct r1, r2; cbn [cat alphabet orb]; intros Hc;
    first [exact Hc | discriminate Hc | rewrite orb_false_r; exact Hc].
Qed.

Lemma alphabet_alt r1 r2 c :
  alphabet (alt r1 r2) c = true -> (alphabet r1 c || alphabet r2 c)%bool = true.
Proof.
  destruct r1, r2; cbn [alt alphabet orb]; intros Hc;
    first [exact Hc | discriminate Hc | rewrite orb_false_r; exact Hc].
Qed.

Lemma alphabet_deriv r d c : alphabet (deriv d r) c = true -> alphabet r c = true.
Proof.
  induction r as [| |p|r1 IH1 r2 IH2|r1 IH1 r2 IH2|r1 IH1]; cbn [deriv alphabet];
    intros Hc; try discriminate Hc.
  - destruct (p d); discriminate Hc.
  - destruct (nullable r1).
    + apply alphabet_alt in Hc. apply orb_prop in Hc as [Hc | Hc].
      * apply alphabet_cat in Hc. apply orb_prop in Hc as [Hc | Hc].
        -- rewrite (IH1 Hc). reflexivity.
        -- rewrite Hc. apply orb_true_r.
      * rewrite (IH2 Hc). apply orb_true_r.
    + apply alphabet_cat in Hc. apply orb_prop in Hc as [Hc | Hc].
      * rewrite (IH1 Hc). reflexivity.
      * rewrite Hc. apply orb_true_r.
  - apply alphabet_alt in Hc. apply orb_prop in Hc as [Hc | Hc].
    + rewrite (IH1 Hc). reflexivity.
    + rewrite (IH2 Hc). apply orb_true_r.
  - apply alphabet_cat in Hc. cbn [alphabet] in Hc.
    apply orb_prop in Hc as [Hc | Hc]; [exact (IH1 Hc) | exact Hc].
Qed.

Lemma deriv_outside r c : alphabet r c = false -> deriv c r = Void.
Proof.
  induction r as [| |p|r1 IH1 r2 IH2|r1 IH1 r2 IH2|r1 IH1]; cbn [deriv alphabet];
    intros Hc; try reflexivity.
  - rewrite Hc. reflexivity.
  - apply orb_false_elim in Hc as [H1 H2]. rewrite (IH1 H1), (IH2 H2).
    destruct (nullable r1); reflexivity.
  - apply orb_false_elim in Hc as [H1 H2]. rewrite (IH1 H1), (IH2 H2). reflexivity.
  - rewrite (IH1 Hc). reflexivity.
Qed.

Lemma all_chars_impl (p q : ascii -> bool) (s : string) :
  (forall c, p c = true -> q c = true) ->
  all_chars p s = true -> all_chars q s = true.
Proof.
  intros Hpq. induction s as [|c s IH]; [reflexivity|].
  cbn [all_chars]. intros Hs. apply andb_prop in Hs as [Hc Hs].
  rewrite (Hpq c Hc), (IH Hs). reflexivity.
Qed.

(** A text that a pattern matches is made of characters of its alphabet. *)
Lemma fullmatch_alphabet (s : string) (r : re) :
  fullmatch r s = true -> all_chars (alphabet r) s = true.
Proof.
  revert r. induction s as [|c s IH]; intros r Hm; [reflexivity|].
  cbn [fullmatch] in Hm. cbn [all_chars].
  destruct (alphabet r c) eqn:Hc.
  - cbn [andb]. apply (all_chars_impl (alphabet (deriv c r))); [|exact (IH _ Hm)].
    intros d. apply alphabet_deriv.
  - rewrite (deriv_outside r c Hc), fullmatch_Void in Hm. discriminate Hm.
Qed.

(** The characters of a dotted quad: digits and the dot, and the newline
    that [$] lets through at the very end. *)
Definition ip_char (c : ascii) : bool := alphabet IP_REGEX c.

Lemma lower_char_ip (c : ascii) : ip_char c = true -> lower_char c = c.
Proof.
  destruct c as [[] [] [] [] [] [] [] []]; vm_compute; intros Hc;
    first [reflexivity | discriminate Hc].
Qed.

Lemma lower_ip (s : string) : all_chars ip_char s = true -> lower s = s.
Proof.
  induction s as [|c s IH]; [reflexivity|].
  cbn [all_chars lower]. intros Hs. apply andb_prop in Hs as [Hc Hs].
  rewrite (lower_char_ip c Hc), (IH Hs). reflexivity.
Qed.

Lemma endswith_all_chars (p : ascii -> bool) (s t : string) :
  endswith s t = true -> all_chars p s = true -> all_chars p t = true.
Proof.
  induction s as [|c s IH]; cbn [endswith all_chars]; intros He Hs.
  - rewrite orb_false_r in He. apply String.eqb_eq in He. subst t. reflexivity.
  - apply orb_prop in He as [He | He].
    + apply String.eqb_eq in He. subst t. exact Hs.
    + apply andb_prop in Hs as [_ Hs]. exact (IH He Hs).
Qed.

(** X26. The two host checks exclude each other: a host name that
    [is_ip_host] takes for a numeric address is made of digits, dots and at
    most a final newline, so it ends in none of the suspicious TLDs and
    [tld_is_suspicious] answers no.  The penalties 15 and 8 are never added
    together. *)
Theorem ip_host_has_no_suspicious_tld (hostname : string) :
  is_ip_host hostname = true ->
  all_chars ip_char hostname = true /\ tld_is_suspicious hostname = false.
Proof.
  unfold is_ip_host, re_match. intros Hip.
  destruct (negb (nonempty hostname)); [discriminate Hip|].
  apply fullmatch_alphabet in Hip. fold ip_char in Hip.
  split; [exact Hip|].
  unfold tld_is_suspicious.
  destruct (negb (nonempty hostname) || negb (contains "." hostname))%bool;
    [reflexivity|].
  cbv zeta. rewrite (lower_ip hostname Hip).
  apply not_true_is_false. intros Hex.
  apply List.existsb_exists in Hex as (tld & Hin & He).
  pose proof (endswith_all_chars ip_char hostname tld He Hip) as Ht.
  unfold SUSPICIOUS_TLDS in Hin. cbn [In] in Hin.
  repeat (destruct Hin as [<- | Hin]; [vm_compute in Ht; discriminate Ht|]).
  exact Hin.
Qed.

Lemma ip_host_has_no_suspicious_tld_witness :
  all_chars ip_char "203.0.113.5" = true /\ tld_is_suspicious "203.0.113.5" = false.
Proof.
  apply (ip_host_has_no_suspicious_tld "203.0.113.5"). reflexivity.
Defined.

(** X27. The keyword count does not look at the case of the text, and it
    counts each of the fifteen keywords at most once however often it
    occurs: it is the same on the text and on its lower-cased form, never
    above 15, and 0 on the empty text. *)
Theorem keyword_count_ignores_case (text : string) :
  suspicious_keyword_matches (lower text) = suspicious_keyword_matches text
  /\ (suspicious_keyword_matches text <= 15)%nat
  /\ suspicious_keyword_matches "" = 0%nat.
Proof.
  split; [|split; [|reflexivity]].
  - unfold suspicious_keyword_matches. cbv zeta.
    rewrite HtmlCoverage.lower_idem. destruct text; reflexivity.
  - unfold suspicious_keyword_matches.
    destruct (negb (nonempty text)); [lia|]. cbv zeta.
    etransitivity; [apply List.filter_length_le | reflexivity].
Qed.

(** *** The table of checks *)

Lemma total_nonneg (rows : list row) :
  List.Forall (fun r => 0 <= penalty r) rows -> 0 <= total rows.
Proof.
  induction 1 as [|r rows Hr _ IH]; cbn [total]; [lia|].
  destruct (fires r); lia.
Qed.

(** Every row asks for a penalty that is not negative, and a positive one
    whenever it has something to say. *)
Definition fair (r : row) : Prop :=
  0 <= penalty r /\ (fires r = true -> message r <> None -> 0 < penalty r).

Lemma fair_nonneg (rows : list row) :
  List.Forall fair rows -> List.Forall (fun r => 0 <= penalty r) rows.
Proof. apply List.Forall_impl. intros r [Hr _]. exact Hr. Qed.

Lemma fair_total_zero (rows : list row) :
  List.Forall fair rows -> total rows = 0 -> notes rows = [].
Proof.
  induction 1 as [|r rows [Hp Hm] Hrows IH]; cbn [total notes]; [reflexivity|].
  intros Ht. pose proof (total_nonneg rows (fair_nonneg rows Hrows)) as Hn.
  destruct (fires r).
  - assert (Hm' : message r = None).
    { destruct (message r) as [m|]; [|reflexivity].
      assert (0 < penalty r) by (apply Hm; [reflexivity | discriminate]). lia. }
    rewrite Hm'. cbn [option_list app]. apply IH. lia.
  - cbn [app]. apply IH. lia.
Qed.

Lemma min_positive (cap n : nat) (k : Z) :
  (0 <? n)%nat = true -> 0 < k -> 0 < Z.of_nat cap ->
  0 < Z.min (Z.of_nat cap) (Z.of_nat n * k).
Proof. intros Hn Hk Hcap. apply Nat.ltb_lt in Hn. nia. Qed.

Lemma table_fair api n host sch f sr i lr k fs :
  0 <= api -> List.Forall fair (table api n host sch f sr i lr k fs).
Proof.
  intros Hapi. unfold table, fair.
  repeat (apply List.Forall_cons; [cbn [fires penalty message]|]);
    [| | | | | | | | | | | | apply List.Forall_nil].
  1: { split; [exact Hapi|]. intros _ Hm.
       destruct (Z.gtb_spec api 0); [lia | contradiction]. }
  all: split; [lia | intros Hf _; try lia].
  - pose proof (min_positive 20 f 6 Hf). lia.
  - pose proof (min_positive 12 i 6 Hf). lia.
  - pose proof (min_positive 15 k 3 Hf). lia.
Qed.

Lemma table_total api n host sch f sr i lr k fs :
  exists rest,
    total (table api n host sch f sr i lr k fs) = api + rest /\ 0 <= rest.
Proof.
  eexists. split; [unfold table; cbn [total fires penalty]; reflexivity|].
  match goal with |- 0 <= ?t => change t with (total (tl (table 0 n host sch f sr i lr k fs))) end.
  apply total_nonneg, fair_nonneg.
  pose proof (table_fair 0 n host sch f sr i lr k fs (Z.le_refl 0)) as Hf.
  inversion Hf; assumption.
Qed.

Lemma silent_table api n host sch f sr i lr k fs :
  0 <= api ->
  notes (table api n host sch f sr i lr k fs) = [] ->
  total (table api n host sch f sr i lr k fs) = 0
  \/ total (table api n host sch f sr i lr k fs) = 6.
Proof.
  intros Hapi. unfold table, notes, total, option_list.
  cbn [fires penalty message option_rect].
  destruct (Z.gtb_spec api 0) as [|Hle]; cbn [option_rect app]; [discriminate|].
  destruct (3 <=? n)%nat; cbn [app]; [discriminate|].
  destruct (n =? 2)%nat; cbn [app];
    repeat match goal with
           | |- context [if ?b then ?m :: nil else nil] =>
               destruct b; cbn [app]; [discriminate|]
           end;
    intros _; lia.
Qed.

Section WithUrlLib.
Context `{UrlLib}.

(** X28. With engine counts that are not negative the report keeps its
    promise: the score lies between 0 and 100 and the verdict is DANGEROUS
    from 65 on, SUSPICIOUS from 30 on, SAFE below. *)
Theorem score_stays_in_range (fetch : fetch_data) (extracted : extracted)
    (url : string) (vt : option vt_report) (gsb : option gsb_report) (r : report) :
  compute_heuristic_score fetch extracted url vt gsb = Ok r ->
  counts_nonneg vt ->
  0 <= r_score r <= 100
  /\ r_verdict r = (if 65 <=? r_score r then DANGEROUS
                    else if 30 <=? r_score r then SUSPICIOUS else SAFE).
Proof.
  intros Hr Hvt.
  destruct (score_range_and_verdict _ _ _ _ _ _ Hr) as (Hle & Hd & Hs & Hsafe & Hnn).
  specialize (Hnn Hvt). split; [lia|].
  destruct (Z.leb_spec 65 (r_score r)); [apply Hd; lia|].
  destruct (Z.leb_spec 30 (r_score r)); [apply Hs; lia | apply Hsafe; lia].
Qed.

(** X29. What a report without explanations can score: with engine counts
    that are not negative, a report whose list of explanations is empty has
    score 0 or 6 (6 being the penalty for exactly two redirects, the one
    check that adds points without a word), and a report with score 0 has
    no explanations. *)
Theorem unexplained_score_is_zero_or_six (fetch : fetch_data)
    (extracted : extracted) (url : string) (vt : option vt_report)
    (gsb : option gsb_report) (r : report) :
  compute_heuristic_score fetch extracted url vt gsb = Ok r ->
  counts_nonneg vt ->
  (r_explanations r = [] -> r_score r = 0 \/ r_score r = 6)
  /\ (r_score r = 0 -> r_explanations r = []).
Proof.
  intros Hr Hvt.
  destruct (compute_follows_table _ _ _ _ _ _ Hr Hvt)
    as (parsed & hr & gr & sr & lr & fs & _ & _ & _ & _ & _ & _ & Hrows).
  cbv zeta in Hrows. destruct Hrows as [Hscore Hexpl].
  pose proof (combine_nonneg vt gsb Hvt) as Hapi.
  rewrite Hscore, Hexpl. split.
  - intros Hn. destruct (silent_table _ _ _ _ _ _ _ _ _ _ Hapi Hn) as [-> | ->];
      [left | right]; reflexivity.
  - intros Hz. apply fair_total_zero; [apply table_fair; exact Hapi|].
    pose proof (total_nonneg _ (fair_nonneg _ (table_fair _
      (Nat.max (length hr) (length gr)) (default "" (hostname parsed))
      (scheme parsed) (count_forms (forms extracted)) sr
      (count_iframes (iframes extracted)) lr
      (suspicious_keyword_matches (clean_text extracted)) fs Hapi))).
    lia.
Qed.

(** X30. A Safe Browsing hit is never scored SAFE: when the Safe Browsing
    dict has matches or threats and the engine counts are not negative,
    the score is at least 60 and the verdict is SUSPICIOUS or DANGEROUS,
    whatever the page looks like. *)
Theorem safe_browsing_hit_is_never_safe (fetch : fetch_data)
    (extracted : extracted) (url : string) (vt : option vt_report)
    (g : gsb_report) (r : report) :
  compute_heuristic_score fetch extracted url vt (Some g) = Ok r ->
  counts_nonneg vt ->
  (matches g || threats g)%bool = true ->
  60 <= r_score r <= 100
  /\ (r_verdict r = SUSPICIOUS \/ r_verdict r = DANGEROUS).
Proof.
  intros Hr Hvt Hg.
  destruct (compute_follows_table _ _ _ _ _ _ Hr Hvt)
    as (parsed & hr & gr & sr & lr & fs & _ & _ & _ & _ & _ & _ & Hrows).
  cbv zeta in Hrows. destruct Hrows as [Hscore _].
  destruct (score_range_and_verdict _ _ _ _ _ _ Hr) as (Hle & Hd & Hs & _ & _).
  assert (Hapi : 60 <= combine_vt_gsb_score vt (Some g)).
  { pose proof (combine_nonneg vt None Hvt) as Hv.
    unfold combine_vt_gsb_score in Hv |- *.
    destruct vt as [v|]; destruct (matches g), (threats g);
      try discriminate Hg; lia. }
  match type of Hscore with
  | _ = Z.min 100 (total (table ?a ?n ?h ?s ?f ?x ?i ?y ?k ?z)) =>
      destruct (table_total a n h s f x i y k z) as (rest & Ht & Hrest)
  end.
  rewrite Ht in Hscore.
  assert (H60 : 60 <= r_score r) by lia.
  split; [lia|].
  destruct (Z.leb_spec 65 (r_score r)); [right; apply Hd; lia | left; apply Hs; lia].
Qed.

End WithUrlLib.

Definition hit : gsb_report := {| matches := true; threats := false |}.

Lemma score_stays_in_range_witness :
  exists r,
    compute_heuristic_score (H := UrlRef.url_ref)
      (fetched "https://example.com" [] [] 5000) (page_with_form true)
      "https://example.com" None None = Ok r
    /\ 0 <= r_score r <= 100.
Proof.
  eexists. split; [vm_compute; reflexivity|].
  eapply (score_stays_in_range (H := UrlRef.url_ref)
            (fetched "https://example.com" [] [] 5000) (page_with_form true)
            "https://example.com" None None);
    [vm_compute; reflexivity | exact I].
Defined.

Lemma unexplained_score_is_zero_or_six_witness :
  exists r,
    compute_heuristic_score (H := UrlRef.url_ref)
      (fetched "https://www.example.com/" two_hops two_hops 5000)
      Main.empty_extracted "https://www.example.com/" None None = Ok r
    /\ (r_score r = 0 \/ r_score r = 6).
Proof.
  eexists. split; [vm_compute; reflexivity|].
  eapply (unexplained_score_is_zero_or_six (H := UrlRef.url_ref)
            (fetched "https://www.example.com/" two_hops two_hops 5000)
            Main.empty_extracted "https://www.example.com/" None None);
    [vm_compute; reflexivity | exact I | reflexivity].
Defined.

Lemma safe_browsing_hit_is_never_safe_witness :
  exists r,
    compute_heuristic_score (H := UrlRef.url_ref)
      (fetched "https://example.com" [] [] 5000) Main.empty_extracted
      "https://example.com" None (Some hit) = Ok r
    /\ 60 <= r_score r <= 100.
Proof.
  eexists. split; [vm_compute; reflexivity|].
  eapply (safe_browsing_hit_is_never_safe (H := UrlRef.url_ref)
            (fetched "https://example.com" [] [] 5000) Main.empty_extracted
            "https://example.com" None hit);
    [vm_compute; reflexivity | exact I | reflexivity].
Defined.

End RiskCoverage.

(** ** The endpoints *)

Module PipelineCoverage.
Import Fetcher HtmlParser RiskEngine RiskFacts RiskTheorems Main
       FetcherTheorems FetcherCoverage MainTheorems.

Section WithLibs.
Context {P : Type} `{Environment} `{UrlLib} `{HtmlLib}.

(** X20. With engine counts that are not negative,
    [compute_heuristic_score] returns exactly when the URL parses and
    neither entry of the fetch dict holds [None]; otherwise it raises. *)
Theorem scoring_returns_exactly_when (fetch : fetch_data) (extracted : extracted)
    (url : string) (vt : option vt_report) (gsb : option gsb_report) :
  counts_nonneg vt ->
  (exists r, compute_heuristic_score fetch extracted url vt gsb = Ok r)
  <-> ((exists parsed, urlparse url = Ok parsed)
       /\ f_head fetch <> IsNone /\ f_get fetch <> IsNone).
Proof.
  intros Hvt. split.
  - intros [r Hr]. unfold compute_heuristic_score in Hr.
    destruct (urlparse url) as [parsed|e]; cbn [mbind pyresult_bind bind] in Hr;
      [|discriminate].
    split; [exists parsed; reflexivity|].
    destruct (f_head fetch); cbn [entry_get mbind pyresult_bind bind] in Hr;
      try discriminate;
      (destruct (f_get fetch); cbn [entry_get mbind pyresult_bind bind] in Hr;
       try discriminate; split; discriminate).
  - intros ([parsed Hp] & Hh & Hg).
    apply (compute_returns fetch extracted url vt gsb parsed Hp Hh Hg Hvt).
Qed.

(** Scoring a page that could not be fetched: the feature dict is the empty
    one, so only the reputation, redirect, host and scheme rows can fire. *)
Lemma empty_features_score (fetch : fetch_data) (url : string) (r : report) :
  compute_heuristic_score fetch empty_extracted url None None = Ok r ->
  0 <= r_score r <= 39 /\ (r_verdict r = SAFE \/ r_verdict r = SUSPICIOUS).
Proof.
  intros Hr.
  destruct (score_range_and_verdict _ _ _ _ _ _ Hr) as (_ & _ & Hsus & Hsafe & Hnn).
  destruct (compute_follows_table _ _ _ _ _ _ Hr I)
    as (parsed & hr & gr & sr & lr & fs & _ & _ & _ & Hsr & Hlr & _ & Hrows).
  cbv zeta in Hrows. destruct Hrows as [Hscore _].
  cbn in Hsr, Hlr. injection Hsr as <-. injection Hlr as <-.
  assert (Hle : r_score r <= 39).
  { rewrite Hscore. unfold table, total. cbn [fires penalty].
    change (combine_vt_gsb_score None None) with 0.
    change (count_forms (forms empty_extracted)) with 0%nat.
    change (count_iframes (iframes empty_extracted)) with 0%nat.
    change (suspicious_keyword_matches (clean_text empty_extracted)) with 0%nat.
    change (PrimFloat.ltb RATIO_THRESHOLD 0) with false.
    cbn [Nat.ltb Nat.leb andb].
    rewrite andb_false_r.
    match goal with |- context [Nat.max ?a ?b] => generalize (Nat.max a b) end.
    intros n.
    destruct n as [|[|[|n]]]; cbn [Nat.eqb];
      destruct (is_ip_host _); destruct (tld_is_suspicious _);
      destruct (String.eqb _ _); lia. }
  specialize (Hnn I). split; [lia|].
  destruct (Z.lt_ge_cases (r_score r) 30); [left; apply Hsafe; lia|].
  right. apply Hsus. lia.
Qed.

(** What [/scan] keeps of a [/risk] response. *)
Definition summarize (resp : risk_response) : pyresult scan_response :=
  match resp with
  | RiskInvalid reason => Ok (InvalidUrl reason)
  | RiskOk url fetch extracted risk =>
      g ← subscript_get fetch;
      Ok (ScanOk {| s_url := url;
                    s_verdict := r_verdict risk;
                    s_score := r_score risk;
                    s_title := title extracted;
                    s_final_url := final_url g;
                    s_filesize := filesize g;
                    s_explanations := firstn 3 (r_explanations risk) |})
  end.

(** X21. [/scan] is [/risk] cut down to a summary: on every URL and in
    every world the two endpoints send the same requests and fail alike, and
    the scan response carries the verdict, the score and the first three
    explanations of the risk report, the title of the extracted features and
    the final URL and size of the GET result. *)
Theorem scan_is_summary_of_risk (url : string) (w : world P) :
  scan url w = (resp ← risk url; lift (summarize resp)) w.
Proof.
  unfold scan, risk, summarize, lift, mbind, io_bind, mret, io_ret.
  destruct (UrlUtils.validate_and_normalize url) as [[ok res]|e]; [|reflexivity].
  destruct ok; cbn [negb]; [|reflexivity].
  destruct (fetch_url_data res true w) as [[fd|e] w']; [|reflexivity].
  destruct (entry_get (f_get fd) error None) as [ge|e]; [|reflexivity].
  destruct (truthy ge).
  - destruct (compute_heuristic_score fd empty_extracted res None None);
      [|reflexivity].
    unfold pyresult_bind, bind. destruct (subscript_get fd); reflexivity.
  - destruct (subscript_get fd) as [g|e] eqn:Es; [|reflexivity].
    destruct (compute_heuristic_score fd _ res None None); [|reflexivity].
    unfold pyresult_bind, bind. rewrite Es. reflexivity.
Qed.

(** X22. A URL the validator turns down costs no request: each of the
    endpoints [/scan], [/risk], [/extract] and [/fetch] answers with its own
    form of the rejection, carrying the validator's reason ([/fetch] as an
    HTTP 400), and leaves the world (network, clock, cache file)
    untouched. *)
Theorem rejected_url_sends_nothing (url reason : string) (w : world P) :
  UrlUtils.validate_and_normalize url = Ok (false, reason) ->
  scan url w = (Ok (InvalidUrl reason), w)
  /\ risk url w = (Ok (RiskInvalid reason), w)
  /\ extract url w = (Ok (ExtractInvalid reason), w)
  /\ fetch url w = (Ok (HTTPException 400 ("Invalid URL: " ++ reason)), w).
Proof.
  intros Hv. unfold scan, risk, extract, fetch, lift.
  unfold mbind at 1, io_bind at 1.
  repeat split; unfold mbind, io_bind, pyresult_bind, bind; rewrite Hv; reflexivity.
Qed.

(** The fetch dict for a URL the validator accepted. *)
Lemma fetch_accepted (url u : string) (w : world P) :
  UrlUtils.validate_and_normalize url = Ok (true, u) ->
  exists fd h g w',
    fetch_url_data u true w = (Ok fd, w')
    /\ f_head fd = Holds h /\ f_get fd = Holds g
    /\ h_redirects h = (match (send HEAD u (w_env w)).1 with
                        | Ok resp => resp_history resp
                        | Raise _ => []
                        end)
    /\ (forall e, (send GET u (send HEAD u (w_env w)).2).1 = Raise e ->
        Main.truthy (error g) = true /\ final_url g = u /\ filesize g = 0%nat
        /\ redirects g = []).
Proof.
  intros Hv.
  destruct (UrlFacts.validate_accepts url u Hv) as (_ & _ & parsed & Hp & Hs).
  assert (Hsup : supported (scheme parsed) = true)
    by (unfold supported; destruct Hs as [-> | ->]; reflexivity).
  rewrite (fetch_supported u true w parsed Hp Hsup). cbv zeta.
  rewrite head_request_unfold.
  destruct (send HEAD u (w_env w)) as [[hr|he] e1]; cbn [fst snd fmap pyresult_fmap];
    rewrite get_request_unfold; cbn [w_env w_cache_file];
    destruct (send GET u e1) as [[gr|ge] e2]; cbn [fst snd];
    do 4 eexists; (split; [reflexivity|]); cbn [f_head f_get];
    (split; [reflexivity|]); (split; [reflexivity|]);
    cbn [h_redirects error final_url filesize redirects];
    (split; [reflexivity|]); intros e He; try discriminate He;
    destruct (error_texts_truthy ge) as [_ T]; repeat split; exact T.
Qed.

(** [scan] once the fetch dict is there. *)
Lemma scan_after_fetch (url u : string) (w w' : world P) (fd : fetch_data)
    (g : get_result) :
  UrlUtils.validate_and_normalize url = Ok (true, u) ->
  fetch_url_data u true w = (Ok fd, w') ->
  f_get fd = Holds g ->
  scan url w
  = (let extracted := if truthy (error g) then empty_extracted
                      else extract_html_features (default [] (content g)) in
     match compute_heuristic_score fd extracted u None None with
     | Ok risk =>
         Ok (ScanOk {| s_url := u;
                       s_verdict := r_verdict risk;
                       s_score := r_score risk;
                       s_title := title extracted;
                       s_final_url := final_url g;
                       s_filesize := filesize g;
                       s_explanations := firstn 3 (r_explanations risk) |})
     | Raise e => Raise e
     end, w').
Proof.
  intros Hv Hf Hg.
  unfold scan, lift, mbind, io_bind, mret, io_ret. rewrite Hv. cbn [negb].
  rewrite Hf. unfold entry_get, subscript_get. rewrite Hg. cbv zeta.
  destruct (truthy (error g)).
  - destruct (compute_heuristic_score fd empty_extracted u None None); reflexivity.
  - destruct (compute_heuristic_score fd _ u None None); reflexivity.
Qed.

(** X23. [/scan] answers every accepted URL: whatever the network does
    (both requests may fail), it returns a summary for the normalized URL,
    with a score between 0 and 100, the verdict the thresholds 65 and 30
    give for that score, and at most three explanations. *)
Theorem scan_answers_every_accepted_url (url u : string) (w : world P) :
  UrlUtils.validate_and_normalize url = Ok (true, u) ->
  exists s,
    (scan url w).1 = Ok (ScanOk s)
    /\ s_url s = u
    /\ 0 <= s_score s <= 100
    /\ (65 <= s_score s -> s_verdict s = DANGEROUS)
    /\ (30 <= s_score s < 65 -> s_verdict s = SUSPICIOUS)
    /\ (s_score s < 30 -> s_verdict s = SAFE)
    /\ (length (s_explanations s) <= 3)%nat.
Proof.
  intros Hv.
  destruct (UrlFacts.validate_accepts url u Hv) as (_ & _ & parsed & Hp & _).
  destruct (fetch_accepted url u w Hv) as (fd & h & g & w' & Hf & Hh & Hg & _).
  rewrite (scan_after_fetch url u w w' fd g Hv Hf Hg). cbv zeta. cbn [fst].
  set (extracted := if truthy (error g) then empty_extracted
                    else extract_html_features (default [] (content g))).
  destruct (compute_returns fd extracted u None None parsed Hp) as [r Hr];
    [rewrite Hh; discriminate | rewrite Hg; discriminate | exact I |].
  rewrite Hr. eexists. split; [reflexivity|].
  cbn [s_url s_score s_verdict s_explanations].
  destruct (score_range_and_verdict _ _ _ _ _ _ Hr) as (Hle & Hd & Hsus & Hsafe & Hnn).
  specialize (Hnn I).
  split; [reflexivity|]. split; [lia|].
  split; [exact Hd|]. split; [exact Hsus|]. split; [exact Hsafe|].
  rewrite length_firstn. lia.
Qed.

(** X24. A page that cannot be fetched is never called DANGEROUS: when the
    GET of an accepted URL fails, [/scan] still answers, with no title, size
    0 and the normalized URL as final URL, and the score comes from the
    redirects of the HEAD request, the host and the scheme alone; it is at
    most 39, so the verdict is SAFE or SUSPICIOUS. *)
Theorem failed_fetch_is_never_dangerous (url u : string) (w : world P) (e : exn) :
  UrlUtils.validate_and_normalize url = Ok (true, u) ->
  (send GET u (send HEAD u (w_env w)).2).1 = Raise e ->
  exists s,
    (scan url w).1 = Ok (ScanOk s)
    /\ s_title s = None /\ s_final_url s = u /\ s_filesize s = 0%nat
    /\ 0 <= s_score s <= 39
    /\ (s_verdict s = SAFE \/ s_verdict s = SUSPICIOUS).
Proof.
  intros Hv Hget.
  destruct (UrlFacts.validate_accepts url u Hv) as (_ & _ & parsed & Hp & _).
  destruct (fetch_accepted url u w Hv) as (fd & h & g & w' & Hf & Hh & Hg & _ & Hfail).
  destruct (Hfail e Hget) as (Ht & Hu & Hsize & _).
  rewrite (scan_after_fetch url u w w' fd g Hv Hf Hg). cbv zeta. cbn [fst].
  rewrite Ht.
  destruct (compute_returns fd empty_extracted u None None parsed Hp) as [r Hr];
    [rewrite Hh; discriminate | rewrite Hg; discriminate | exact I |].
  rewrite Hr. eexists. split; [reflexivity|].
  cbn [s_title s_final_url s_filesize s_score s_verdict].
  destruct (empty_features_score fd u r Hr) as [Hscore Hverdict].
  repeat split; try assumption; lia.
Qed.

End WithLibs.

Lemma scoring_returns_exactly_when_witness :
  exists r,
    compute_heuristic_score (H := UrlRef.url_ref)
      (fetched "https://example.com" [] [] 5000) (page_with_form true)
      "https://example.com" (Some three_engines) None = Ok r.
Proof.
  apply (scoring_returns_exactly_when (H0 := UrlRef.url_ref)
           (fetched "https://example.com" [] [] 5000) (page_with_form true)
           "https://example.com" (Some three_engines) None).
  - cbn. lia.
  - split; [eexists; vm_compute; reflexivity|].
    split; discriminate.
Defined.

Lemma rejected_url_sends_nothing_witness :
  scan "javascript:alert(1)" head_only_world
    = (Ok (InvalidUrl "Invalid URL format"), head_only_world)
  /\ Main.fetch "javascript:alert(1)" head_only_world
    = (Ok (HTTPException 400 "Invalid URL: Invalid URL format"), head_only_world).
Proof.
  destruct (rejected_url_sends_nothing "javascript:alert(1)" "Invalid URL format"
              head_only_world) as (Hs & _ & _ & Hf);
    [reflexivity |].
  split; assumption.
Defined.

Lemma scan_answers_every_accepted_url_witness :
  exists s,
    (scan "example.com" head_only_world).1 = Ok (ScanOk s)
    /\ s_url s = site
    /\ 0 <= s_score s <= 100
    /\ (length (s_explanations s) <= 3)%nat.
Proof.
  destruct (scan_answers_every_accepted_url "example.com" site head_only_world)
    as (s & Hs & Hu & Hr & _ & _ & _ & Hl);
    [reflexivity |].
  exists s. repeat split; try assumption; lia.
Defined.

Lemma failed_fetch_is_never_dangerous_witness :
  exists s,
    (scan "example.com" head_only_world).1 = Ok (ScanOk s)
    /\ s_title s = None
    /\ (s_verdict s = SAFE \/ s_verdict s = SUSPICIOUS).
Proof.
  destruct (failed_fetch_is_never_dangerous "example.com" site head_only_world
              (RequestError "ConnectError"))
    as (s & Hs & Ht & _ & _ & _ & Hv);
    [reflexivity | reflexivity |].
  exists s. repeat split; assumption.
Defined.

End PipelineCoverage.
